(** * Requirement traceability toolkit: a shallow embedding

    The development embeds the core of the [aidk] package:
    - [doc_syncer.py]   (annotation scanner, traceability computer,
                         matrix patch),
    - [spec_builder.py] (capability matcher, EARS categoriser,
                         document creation),
    - [code_builder.py] (specification parser, code generator),
    - [validate_specs.py] (document validator).

    Text is modelled as [string]: a sequence of 8-bit characters.  The
    character classes of the regular expressions ([\s], [.], [[A-Z0-9-]])
    and the string methods ([strip], [lower], [startswith], [in]) are
    written out on that alphabet; whitespace is the ASCII part of
    Python's [str.isspace] (codes 9-13 and 28-32), [\d] is 0-9 and
    [lower] acts on the letters A-Z.  A text with characters beyond
    ASCII is the sequence of the bytes that encode it (UTF-8); where
    a statement depends on the white space beyond ASCII or on the
    case of other letters, it says which texts it is about.  A file
    is the text it holds, and a reader in text mode gets that text
    with the line ends translated ([universal_newlines]); a directory
    is the list of its entries; a path is the text that joins its
    components with the separator.  Printing to the terminal is not
    modelled. *)

From Stdlib Require Import Ascii String List ZArith QArith Lia.
From Stdlib Require Import Decimal DecimalString Sorting.Sorted.
From Stdlib Require DecimalNat DecimalFacts.
From stdpp Require Import base gmap sets list strings.

Local Open Scope nat_scope.

(** ** Text primitives *)

Module Text.

Definition newline : ascii := ascii_of_nat 10.
Definition nl : string := String newline EmptyString.
Definition dquote : string := String (ascii_of_nat 34) EmptyString.
Definition backslash : ascii := ascii_of_nat 92.

(** [\s] and [str.isspace] on the ASCII range. *)
Definition is_space (c : ascii) : bool :=
  let n := nat_of_ascii c in
  ((9 <=? n) && (n <=? 13)) || ((28 <=? n) && (n <=? 32)).

(** [.] without DOTALL: every character but the line feed. *)
Definition not_newline (c : ascii) : bool :=
  negb (Ascii.eqb c newline).

Definition is_upper (c : ascii) : bool :=
  let n := nat_of_ascii c in (65 <=? n) && (n <=? 90).

Definition is_digit (c : ascii) : bool :=
  let n := nat_of_ascii c in (48 <=? n) && (n <=? 57).

Definition is_dash (c : ascii) : bool := Ascii.eqb c "-"%char.

(** [[A-Z0-9-]] *)
Definition is_id_char (c : ascii) : bool :=
  is_upper c || is_digit c || is_dash c.

(** [[A-Z-]] *)
Definition is_alpha_id_char (c : ascii) : bool :=
  is_upper c || is_dash c.

(** [s.startswith(p)] *)
Fixpoint startswith (p s : string) : bool :=
  match p, s with
  | EmptyString, _ => true
  | String a p', String b s' => Ascii.eqb a b && startswith p' s'
  | String _ _, EmptyString => false
  end.

(** [s[n:]] *)
Fixpoint drop (n : nat) (s : string) : string :=
  match n, s with
  | O, _ => s
  | S n', String _ s' => drop n' s'
  | S _, EmptyString => EmptyString
  end.

(** The rest of [s] after the literal [p], when [s] starts with it. *)
Definition after_literal (p s : string) : option string :=
  if startswith p s then Some (drop (String.length p) s) else None.

(** The longest prefix whose characters satisfy [f], and the rest:
    a greedy character-class repetition. *)
Fixpoint span (f : ascii -> bool) (s : string) : string * string :=
  match s with
  | EmptyString => (EmptyString, EmptyString)
  | String c s' =>
      if f c then let (a, b) := span f s' in (String c a, b)
      else (EmptyString, s)
  end.

(** [needle in s] *)
Fixpoint contains (needle s : string) : bool :=
  startswith needle s ||
  match s with
  | EmptyString => false
  | String _ s' => contains needle s'
  end.

(** [(.*?)needle] with DOTALL: the shortest text before the first
    occurrence of [needle], and the rest after that occurrence. *)
Fixpoint lazy_until (needle s : string) : option (string * string) :=
  match after_literal needle s with
  | Some r => Some (EmptyString, r)
  | None =>
      match s with
      | EmptyString => None
      | String c s' =>
          match lazy_until needle s' with
          | Some (g, r) => Some (String c g, r)
          | None => None
          end
      end
  end.

(** [s.endswith(p)] *)
Definition endswith (p s : string) : bool :=
  (String.length p <=? String.length s) &&
  String.eqb (drop (String.length s - String.length p) s) p.

Fixpoint lstrip (s : string) : string :=
  match s with
  | EmptyString => EmptyString
  | String c s' => if is_space c then lstrip s' else s
  end.

Fixpoint rstrip (s : string) : string :=
  match s with
  | EmptyString => EmptyString
  | String c s' =>
      match rstrip s' with
      | EmptyString => if is_space c then EmptyString else String c EmptyString
      | r => String c r
      end
  end.

(** [s.strip()] *)
Definition strip (s : string) : string := rstrip (lstrip s).

Definition lower_char (c : ascii) : ascii :=
  if is_upper c then ascii_of_nat (nat_of_ascii c + 32) else c.

(** [s.lower()] *)
Fixpoint lower (s : string) : string :=
  match s with
  | EmptyString => EmptyString
  | String c s' => String (lower_char c) (lower s')
  end.

(** [sep.join(l)] *)
Fixpoint join (sep : string) (l : list string) : string :=
  match l with
  | [] => EmptyString
  | [x] => x
  | x :: rest => x +:+ sep +:+ join sep rest
  end.

(** [\s*(.+)] at the start of [s], group 1.  The greedy [\s*] first
    takes a whitespace character and goes on; when the rest cannot
    match, it gives the character back and [.+] starts there.  [.+]
    runs to the end of the line; nothing follows it in the pattern. *)
Fixpoint ws_then_line (s : string) : option (string * string) :=
  match s with
  | EmptyString => None
  | String c s' =>
      if is_space c then
        match ws_then_line s' with
        | Some r => Some r
        | None => if not_newline c then Some (span not_newline s) else None
        end
      else Some (span not_newline s)
  end.

(** [re.search(field + r':\s*(.+)', text)], group 1. *)
Fixpoint search_field (field text : string) : option string :=
  match
    match after_literal (field +:+ ":") text with
    | Some r => ws_then_line r
    | None => None
    end
  with
  | Some (g, _) => Some g
  | None =>
      match text with
      | EmptyString => None
      | String _ text' => search_field field text'
      end
  end.

(** [re.search(r'---\n(.*?)\n---', content, re.DOTALL)], group 1. *)
Fixpoint search_frontmatter (content : string) : option string :=
  match
    match after_literal ("---" +:+ nl) content with
    | Some r => lazy_until (nl +:+ "---") r
    | None => None
    end
  with
  | Some (g, _) => Some g
  | None =>
      match content with
      | EmptyString => None
      | String _ content' => search_frontmatter content'
      end
  end.

Definition carriage_return : ascii := ascii_of_nat 13.

(** A character that ends no line, neither as written nor as read
    in text mode. *)
Definition no_line_end (c : ascii) : bool :=
  negb (Ascii.eqb c newline) && negb (Ascii.eqb c carriage_return).

(** The text with the given character codes. *)
Definition text_of_codes (codes : list nat) : string :=
  string_of_list_ascii (map ascii_of_nat codes).

(** The white space characters beyond ASCII that [\s] and [strip]
    know, as UTF-8 encodes them: U+0085, U+00A0, U+1680, U+2000 to
    U+200A, U+2028, U+2029, U+202F, U+205F and U+3000. *)
Definition unicode_spaces : list string :=
  map text_of_codes
    [[194; 133]; [194; 160]; [225; 154; 128];
     [226; 128; 128]; [226; 128; 129]; [226; 128; 130]; [226; 128; 131];
     [226; 128; 132]; [226; 128; 133]; [226; 128; 134]; [226; 128; 135];
     [226; 128; 136]; [226; 128; 137]; [226; 128; 138];
     [226; 128; 168]; [226; 128; 169]; [226; 128; 175];
     [226; 129; 159]; [227; 128; 128]].

(** No white space character beyond ASCII occurs in [s]: on such a
    text [is_space] is the whole of [\s] and of [str.isspace]. *)
Definition no_unicode_space (s : string) : bool :=
  forallb (fun w => negb (contains w s)) unicode_spaces.

(** A character of the ASCII range. *)
Definition is_ascii (c : ascii) : bool := nat_of_ascii c <? 128.

End Text.

(** ** [re.findall] / [re.finditer]: left-to-right, non-overlapping *)

Section Findall.
Context {A : Type}.

(** [m s] tries the pattern at the start of [s] and returns the value
    kept for the match with the text left after it.  [skip] counts
    the characters of the previous match still to be passed over. *)
Fixpoint findall_from (m : string -> option (A * string))
    (skip : nat) (s : string) : list A :=
  match s with
  | EmptyString => []
  | String _ s' =>
      match skip with
      | S k => findall_from m k s'
      | O =>
          match m s with
          | Some (g, rest) =>
              g :: findall_from m (String.length s' - String.length rest) s'
          | None => findall_from m 0 s'
          end
      end
  end.

Definition findall (m : string -> option (A * string)) (s : string) : list A :=
  findall_from m 0 s.
End Findall.

(** ** doc_syncer.py *)

Module DocSyncer.
Import Text.

Record CodeReference := {
  file_path : string;
  line_number : nat;
  requirement_id : string
}.

Record SyncReport := {
  spec_id : string;
  feature : string;
  total_requirements : nat;
  implemented_requirements : gset string;
  missing_requirements : gset string;
  code_files : list string;
  test_files : list string;
  mismatches : list string
}.

(** A regular file below the code directory: its path relative to the
    directory as [str(f.relative_to(code_dir))] renders it, and its
    lines as [readlines] returns them. *)
Record SourceFile := {
  rel_path : string;
  file_lines : list string
}.

(** Reading in text mode translates the line ends: a carriage return
    with or without a line feed after it becomes one line feed.
    [after_cr] tells that the last character read was a carriage
    return. *)
Fixpoint universal_newlines_from (after_cr : bool) (s : string) : string :=
  match s with
  | EmptyString => EmptyString
  | String c s' =>
      if Ascii.eqb c (ascii_of_nat 13)
      then String newline (universal_newlines_from true s')
      else if Ascii.eqb c newline && after_cr
      then universal_newlines_from false s'
      else String c (universal_newlines_from false s')
  end.

Definition universal_newlines (s : string) : string :=
  universal_newlines_from false s.

(** The lines of a text, each with its line feed; the last one may
    lack it. *)
Fixpoint split_keepends (s : string) : list string :=
  match s with
  | EmptyString => []
  | String c s' =>
      if Ascii.eqb c newline then String c EmptyString :: split_keepends s'
      else
        match split_keepends s' with
        | [] => [String c EmptyString]
        | line :: lines => String c line :: lines
        end
  end.

(** [f.readlines()] on a file opened for reading with the text
    [text]. *)
Definition readlines (text : string) : list string :=
  split_keepends (universal_newlines text).

(** The code directory: [dir_prefix] is what [str(f)] puts before the
    relative path of an entry (empty for the current directory,
    otherwise the directory followed by the separator); [entries] are
    the regular files below it in the order [rglob] walks them. *)
Record CodeDir := {
  dir_prefix : string;
  entries : list SourceFile
}.

Definition full_path (d : CodeDir) (f : SourceFile) : string :=
  dir_prefix d +:+ rel_path f.

(** [code_dir.rglob("*.kt")] *)
Definition rglob_kt (d : CodeDir) : list SourceFile :=
  filter (fun f => endswith ".kt" (rel_path f) = true) (entries d).

(** [(code_dir / "src" / "test").rglob("*Test.kt")] *)
Definition rglob_tests (d : CodeDir) : list SourceFile :=
  filter (fun f => startswith "src/test/" (rel_path f) = true
                   ∧ endswith "Test.kt" (rel_path f) = true) (entries d).

(** *** CodeAnalyzer *)

(** [//\s*((?:SPEC|REQ)-[A-Z0-9-]+)] at the start of [s]. *)
Definition match_annotation (s : string) : option (string * string) :=
  match after_literal "//" s with
  | None => None
  | Some r1 =>
      let r2 := snd (span is_space r1) in
      let kw :=
        match after_literal "SPEC" r2 with
        | Some r3 => Some ("SPEC", r3)
        | None =>
            match after_literal "REQ" r2 with
            | Some r3 => Some ("REQ", r3)
            | None => None
            end
        end in
      match kw with
      | None => None
      | Some (k, r3) =>
          match after_literal "-" r3 with
          | None => None
          | Some r4 =>
              match span is_id_char r4 with
              | (EmptyString, _) => None
              | (run, r5) => Some (k +:+ "-" +:+ run, r5)
              end
          end
      end
  end.

Definition add_reference (refs : gmap string (list CodeReference))
    (r : CodeReference) : gmap string (list CodeReference) :=
  <[requirement_id r := default [] (refs !! requirement_id r) ++ [r]]> refs.

(** The references of one line, in match order. *)
Definition line_references (path : string) (line_num : nat) (line : string)
    : list CodeReference :=
  map (fun m => {| file_path := path; line_number := line_num;
                   requirement_id := m |})
      (findall match_annotation line).

(** [enumerate(lines, 1)] *)
Fixpoint enumerate_from {A} (n : nat) (l : list A) : list (nat * A) :=
  match l with
  | [] => []
  | x :: l' => (n, x) :: enumerate_from (S n) l'
  end.

Definition file_references (f : SourceFile) : list CodeReference :=
  concat (map (fun p => line_references (rel_path f) (fst p) (snd p))
              (enumerate_from 1 (file_lines f))).

Definition find_spec_references (d : CodeDir)
    : gmap string (list CodeReference) :=
  foldl add_reference ∅ (concat (map file_references (rglob_kt d))).

Definition find_test_files (d : CodeDir) : list string :=
  map rel_path (rglob_tests d).

(** *** SpecParser *)

(** [-\s+\*\*([A-Z0-9-]+)\*\*:] at the start of [s].  Both repetitions
    are followed by a [*], which is in neither class, so only the
    longest run can succeed. *)
Definition match_bold_id (s : string) : option (string * string) :=
  match after_literal "-" s with
  | None => None
  | Some r1 =>
      match span is_space r1 with
      | (EmptyString, _) => None
      | (_, r2) =>
          match after_literal "**" r2 with
          | None => None
          | Some r3 =>
              match span is_id_char r3 with
              | (EmptyString, _) => None
              | (id, r4) =>
                  match after_literal "**:" r4 with
                  | None => None
                  | Some r5 => Some (id, r5)
                  end
              end
          end
      end
  end.

Definition parse_requirements (content : string) : list string :=
  filter (fun req => startswith "REQ-" req = true)
         (findall match_bold_id content).

Definition metadata_fields : list string :=
  ["spec_id"; "feature"; "version"; "status"].

Definition parse_metadata (content : string) : gmap string string :=
  match search_frontmatter content with
  | None => ∅
  | Some frontmatter =>
      foldl (fun md field =>
               match search_field field frontmatter with
               | Some g => <[field := strip g]> md
               | None => md
               end) ∅ metadata_fields
  end.

(** *** DocSyncer.verify *)

Definition implemented_of (requirements : list string)
    (references : gmap string (list CodeReference)) : gset string :=
  foldl (fun acc req_id =>
           if decide (is_Some (references !! req_id))
           then acc ∪ {[req_id]} else acc)
        ∅ requirements.

Definition verify (content : string) (d : CodeDir) : SyncReport :=
  let metadata := parse_metadata content in
  let requirements := parse_requirements content in
  let references := find_spec_references d in
  let tests := find_test_files d in
  let implemented := implemented_of requirements references in
  let missing := list_to_set requirements ∖ implemented in
  let code :=
    map rel_path
        (filter (fun f => contains "/test/" (full_path d f) = false)
                (rglob_kt d)) in
  {| spec_id := default "Unknown" (metadata !! "spec_id");
     feature := default "Unknown" (metadata !! "feature");
     total_requirements := length requirements;
     implemented_requirements := implemented;
     missing_requirements := missing;
     code_files := code;
     test_files := tests;
     mismatches := [] |}.

(** *** Implementation percentage *)

(** Python's [a / b] on integers: [ZeroDivisionError] for [b = 0].
    The quotient is kept exact (a rational), rounding to a double is
    not modelled. *)
Definition truediv (a b : nat) : option Q :=
  if b =? 0 then None
  else Some (inject_Z (Z.of_nat a) / inject_Z (Z.of_nat b))%Q.

(** [(len(implemented) / total * 100) if total > 0 else 0] *)
Definition impl_percentage (report : SyncReport) : option Q :=
  if 0 <? total_requirements report then
    match truediv (size (implemented_requirements report))
                  (total_requirements report) with
    | Some q => Some (q * 100)%Q
    | None => None
    end
  else Some 0%Q.

(** *** Matrix patch *)

(** [sorted(...)] on strings: insertion into an ordered list. *)
Fixpoint insert_sorted (x : string) (l : list string) : list string :=
  match l with
  | [] => [x]
  | y :: l' => if String.leb x y then x :: l else y :: insert_sorted x l'
  end.

Definition sorted (l : list string) : list string :=
  foldr insert_sorted [] l.

Definition placeholder_dash : string := "â€”".
Definition status_pending : string := "â³ Pending".
Definition status_implemented : string := "ğŸŸ¢ Implemented".

Definition table_header : string :=
  "## 7. Traceability Matrix" +:+ nl +:+ nl +:+
  "| Requirement | Code File | Test File | Status |" +:+ nl.

Definition table_separator : string :=
  "|-------------|-----------|-----------|--------|" +:+ nl.

(** [matrix_pattern] at the start of [s].  In the pattern only the
    first [|] of the separator row is escaped; the four that follow
    are alternation bars, so the expression has five branches, tried
    in order: the heading with the header row and the first run of
    dashes; eleven dashes; eleven dashes; eight dashes; and a line
    feed, [(.*?)] and two line feeds.  Group 1 belongs to the last
    branch.  The result is group 1 (when set) and the text left. *)
Definition match_matrix (s : string) : option (option string * string) :=
  match after_literal (table_header +:+ "|-------------") s with
  | Some r => Some (None, r)
  | None =>
  match after_literal "-----------" s with
  | Some r => Some (None, r)
  | None =>
  match after_literal "--------" s with
  | Some r => Some (None, r)
  | None =>
  match after_literal nl s with
  | Some r =>
      match lazy_until (nl +:+ nl) r with
      | Some (g, r') => Some (Some g, r')
      | None => None
      end
  | None => None
  end end end end.

(** [re.search(matrix_pattern, content, re.DOTALL)] *)
Fixpoint search_matrix (content : string) : option (option string * string) :=
  match match_matrix content with
  | Some r => Some r
  | None =>
      match content with
      | EmptyString => None
      | String _ content' => search_matrix content'
      end
  end.

(** The replacement string of [re.sub] is a template: a backslash
    starts an escape or a group reference. *)
Inductive piece :=
| Lit (s : string)
| Group (n : nat).

Definition is_octal (c : ascii) : bool :=
  let n := nat_of_ascii c in (48 <=? n) && (n <=? 55).

Definition is_ascii_letter (c : ascii) : bool :=
  let n := nat_of_ascii c in
  ((65 <=? n) && (n <=? 90)) || ((97 <=? n) && (n <=? 122)).

Definition digit_value (c : ascii) : nat := nat_of_ascii c - 48.

Definition number_in_base (base : nat) (s : string) : nat :=
  fold_left (fun acc c => acc * base + digit_value c)
            (list_ascii_of_string s) 0.

Definition simple_escape (c : ascii) : option ascii :=
  if Ascii.eqb c "a" then Some (ascii_of_nat 7)
  else if Ascii.eqb c "b" then Some (ascii_of_nat 8)
  else if Ascii.eqb c "f" then Some (ascii_of_nat 12)
  else if Ascii.eqb c "n" then Some (ascii_of_nat 10)
  else if Ascii.eqb c "r" then Some (ascii_of_nat 13)
  else if Ascii.eqb c "t" then Some (ascii_of_nat 9)
  else if Ascii.eqb c "v" then Some (ascii_of_nat 11)
  else if Ascii.eqb c backslash then Some backslash
  else None.

(** A reference to group [n] of a pattern with one group. *)
Definition addgroup (n consumed : nat) : option (piece * nat) :=
  if n <=? 1 then Some (Group n, consumed) else None.

(** The escape whose text [r] follows a backslash: the piece it
    stands for and the number of characters of [r] it takes; [None]
    is [re.error] (or [IndexError] for an unknown group name). *)
Definition escape_at (r : string) : option (piece * nat) :=
  match r with
  | EmptyString => None
  | String e r1 =>
      if Ascii.eqb e "g" then
        match after_literal "<" r1 with
        | None => None
        | Some r2 =>
            match lazy_until ">" r2 with
            | None => None
            | Some (EmptyString, _) => None
            | Some (name, _) =>
                if forallb is_digit (list_ascii_of_string name)
                then addgroup (number_in_base 10 name) (3 + String.length name)
                else None
            end
        end
      else if Ascii.eqb e "0" then
        let oct :=
          match r1 with
          | String d1 (String d2 _) =>
              if is_octal d1
              then if is_octal d2 then String d1 (String d2 EmptyString)
                   else String d1 EmptyString
              else EmptyString
          | String d1 EmptyString =>
              if is_octal d1 then String d1 EmptyString else EmptyString
          | EmptyString => EmptyString
          end in
        Some (Lit (String (ascii_of_nat (number_in_base 8 oct mod 256))
                          EmptyString),
              1 + String.length oct)
      else if is_digit e then
        match r1 with
        | String d1 r2 =>
            if is_digit d1 then
              match r2 with
              | String d2 _ =>
                  if is_octal e && is_octal d1 && is_octal d2 then
                    let v := number_in_base 8
                               (String e (String d1 (String d2 EmptyString))) in
                    if v <=? 255
                    then Some (Lit (String (ascii_of_nat v) EmptyString), 3)
                    else None
                  else addgroup (digit_value e * 10 + digit_value d1) 2
              | EmptyString => addgroup (digit_value e * 10 + digit_value d1) 2
              end
            else addgroup (digit_value e) 1
        | EmptyString => addgroup (digit_value e) 1
        end
      else
        match simple_escape e with
        | Some c => Some (Lit (String c EmptyString), 1)
        | None =>
            if is_ascii_letter e then None
            else Some (Lit (String backslash (String e EmptyString)), 1)
        end
  end.

Fixpoint parse_template_from (skip : nat) (s : string) : option (list piece) :=
  match s with
  | EmptyString => Some []
  | String c r =>
      match skip with
      | S k => parse_template_from k r
      | O =>
          if Ascii.eqb c backslash then
            match escape_at r with
            | None => None
            | Some (p, n) =>
                match parse_template_from n r with
                | Some ps => Some (p :: ps)
                | None => None
                end
            end
          else
            match parse_template_from 0 r with
            | Some ps => Some (Lit (String c EmptyString) :: ps)
            | None => None
            end
      end
  end.

Definition parse_template (repl : string) : option (list piece) :=
  parse_template_from 0 repl.

(** [s[:n]] *)
Fixpoint take (n : nat) (s : string) : string :=
  match n, s with
  | S n', String c s' => String c (take n' s')
  | _, _ => EmptyString
  end.

(** The text a template stands for at one match; a group that took
    no part in the match is empty. *)
Fixpoint expand (ps : list piece) (whole : string) (g1 : option string)
    : string :=
  match ps with
  | [] => EmptyString
  | Lit s :: ps' => s +:+ expand ps' whole g1
  | Group 0 :: ps' => whole +:+ expand ps' whole g1
  | Group _ :: ps' => default EmptyString g1 +:+ expand ps' whole g1
  end.

(** The scan of [re.sub]: text outside the matches is copied. *)
Fixpoint sub_from (ps : list piece) (skip : nat) (s : string) : string :=
  match s with
  | EmptyString => EmptyString
  | String c s' =>
      match skip with
      | S k => sub_from ps k s'
      | O =>
          match match_matrix s with
          | Some (g1, rest) =>
              let n := String.length s - String.length rest in
              expand ps (take n s) g1 +:+ sub_from ps (n - 1) s'
          | None => String c (sub_from ps 0 s')
          end
      end
  end.

(** [re.sub(matrix_pattern, repl, content, flags=re.DOTALL)] *)
Definition sub_matrix (repl content : string) : option string :=
  match parse_template repl with
  | Some ps => Some (sub_from ps 0 content)
  | None => None
  end.

Definition matrix_row (report : SyncReport)
    (references : gmap string (list CodeReference)) (req_id : string)
    : string :=
  let '(code_file, status) :=
    if decide (req_id ∈ implemented_requirements report) then
      match default [] (references !! req_id) with
      | ref :: _ => (file_path ref, status_implemented)
      | [] => (placeholder_dash, status_pending)
      end
    else (placeholder_dash, status_pending) in
  "| " +:+ req_id +:+ " | " +:+ code_file +:+ " | " +:+ placeholder_dash
       +:+ " | " +:+ status +:+ " |".

Definition new_rows (report : SyncReport)
    (references : gmap string (list CodeReference)) : list string :=
  map (matrix_row report references)
      (sorted (elements (implemented_requirements report
                         ∪ missing_requirements report))).

(** What the patch step does to the specification file. *)
Inductive PatchResult :=
| Skipped                        (* warning printed, file not opened for writing *)
| Written (new_content : string) (* file replaced by [new_content] *)
| Raised.                        (* [re.sub] raised, file not written *)

Definition update_traceability_matrix (content : string) (d : CodeDir)
    (report : SyncReport) : PatchResult :=
  match search_matrix content with
  | None => Skipped
  | Some _ =>
      let references := find_spec_references d in
      let new_matrix := join nl (new_rows report references) in
      match sub_matrix (table_header +:+ table_separator +:+ new_matrix
                        +:+ nl +:+ nl) content with
      | Some new_content => Written new_content
      | None => Raised
      end
  end.

(** *** main *)

Inductive Command :=
| CmdVerify
| CmdSync.

(** The exit status of [main] on a specification file and a code
    directory that can be read: [spec_file] is the text read, and
    [code_dir] holds the lines read from each file.  A path that does
    not exist is [None].  [verify] ends with status 1 when the report
    has a missing requirement.  [sync] ends with status 1 through an
    exception: of the steps after [verify], the matrix patch is the
    one that can raise on what was read.  A file that cannot be
    opened or decoded raises as well and gives status 1; that case
    has no [CodeDir] and is outside this definition. *)
Definition main (command : Command) (spec_file : option string)
    (code_dir : option CodeDir) : nat :=
  match spec_file with
  | None => 1
  | Some content =>
      match code_dir with
      | None => 1
      | Some d =>
          match command with
          | CmdVerify =>
              if decide (missing_requirements (verify content d) = ∅)
              then 0 else 1
          | CmdSync =>
              match update_traceability_matrix content d (verify content d) with
              | Raised => 1
              | _ => 0
              end
          end
      end
  end.

End DocSyncer.

(** ** spec_builder.py *)

Module SpecBuilder.
Import Text.

Record Skill := {
  keywords : list string;
  category : string;
  description : string
}.

(** [AndroidSkillMatcher.SKILLS]: a dict, iterated in insertion order. *)
Definition SKILLS : list (string * Skill) :=
  [
    ("android-clean-architecture",
     {| keywords := ["clean architecture"; "layer"; "separation"; "domain"; "presentation"; "data"];
        category := "Architecture";
        description := "Three-layer architecture pattern" |});
    ("android-mvvm-architecture",
     {| keywords := ["mvvm"; "viewmodel"; "state"; "architecture"];
        category := "Architecture";
        description := "MVVM architecture with ViewModel" |});
    ("android-compose-ui",
     {| keywords := ["ui"; "screen"; "compose"; "jetpack compose"; "composable"; "interface"];
        category := "UI";
        description := "Declarative UI with Jetpack Compose" |});
    ("android-compose-navigation",
     {| keywords := ["navigation"; "screen"; "route"; "navigate"; "deep link"];
        category := "UI";
        description := "Navigation between screens" |});
    ("android-compose-theming",
     {| keywords := ["theme"; "color"; "typography"; "material design"; "dark mode"];
        category := "UI";
        description := "Material 3 theming" |});
    ("android-material-components",
     {| keywords := ["button"; "card"; "dialog"; "material"; "component"];
        category := "UI";
        description := "Material Design components" |});
    ("android-list-ui",
     {| keywords := ["list"; "recyclerview"; "lazycolumn"; "scroll"];
        category := "UI";
        description := "Scrollable lists" |});
    ("android-forms-validation",
     {| keywords := ["form"; "input"; "validation"; "field"; "validate"];
        category := "UI";
        description := "Form input and validation" |});
    ("android-xml-views",
     {| keywords := ["xml"; "view"; "legacy"; "viewbinding"];
        category := "UI";
        description := "XML-based views" |});
    ("android-hilt-di",
     {| keywords := ["dependency injection"; "di"; "hilt"; "inject"; "module"];
        category := "DI";
        description := "Dependency injection with Hilt" |});
    ("android-koin-di",
     {| keywords := ["koin"; "dependency injection"; "di"];
        category := "DI";
        description := "Dependency injection with Koin" |});
    ("android-repository-pattern",
     {| keywords := ["repository"; "data source"; "data layer"];
        category := "Data";
        description := "Repository pattern" |});
    ("android-database-room",
     {| keywords := ["database"; "room"; "sql"; "local storage"; "cache"];
        category := "Data";
        description := "Local database with Room" |});
    ("android-networking-retrofit",
     {| keywords := ["api"; "network"; "retrofit"; "http"; "rest"; "endpoint"];
        category := "Data";
        description := "REST API with Retrofit" |});
    ("android-datastore",
     {| keywords := ["preferences"; "datastore"; "settings"; "key-value"];
        category := "Data";
        description := "DataStore for preferences" |});
    ("android-stateflow",
     {| keywords := ["state"; "stateflow"; "flow"; "reactive"; "observable"];
        category := "State";
        description := "State management with StateFlow" |});
    ("android-one-time-events",
     {| keywords := ["event"; "navigation event"; "one-time"; "channel"];
        category := "State";
        description := "One-time UI events" |});
    ("android-coroutines",
     {| keywords := ["async"; "coroutine"; "suspend"; "background"; "thread"];
        category := "Async";
        description := "Asynchronous operations with Coroutines" |});
    ("android-workmanager",
     {| keywords := ["background work"; "workmanager"; "periodic"; "sync"];
        category := "Background";
        description := "Background tasks with WorkManager" |});
    ("android-paging3",
     {| keywords := ["pagination"; "paging"; "infinite scroll"; "load more"];
        category := "Data";
        description := "Pagination with Paging 3" |});
    ("android-compose-testing",
     {| keywords := ["test"; "ui test"; "compose test"; "testing"];
        category := "Testing";
        description := "UI testing for Compose" |});
    ("android-unit-testing",
     {| keywords := ["unit test"; "testing"; "test"; "mock"];
        category := "Testing";
        description := "Unit testing" |});
    ("android-gradle-config",
     {| keywords := ["gradle"; "build"; "configuration"; "dependency"];
        category := "Build";
        description := "Gradle build configuration" |});
    ("android-project-setup",
     {| keywords := ["setup"; "project"; "initialize"; "new project"];
        category := "Setup";
        description := "Project setup and structure" |});
    ("android-permissions",
     {| keywords := ["permission"; "runtime permission"; "access"];
        category := "Features";
        description := "Runtime permissions" |});
    ("android-image-loading",
     {| keywords := ["image"; "coil"; "glide"; "picture"; "photo"];
        category := "Features";
        description := "Image loading with Coil/Glide" |});
    ("android-json-moshi",
     {| keywords := ["json"; "moshi"; "parsing"; "serialization"; "api"; "adapter"];
        category := "JSON";
        description := "JSON parsing with Moshi" |});
    ("android-json-kotlinx",
     {| keywords := ["json"; "kotlin serialization"; "serializable"; "kotlinx"; "serialization"];
        category := "JSON";
        description := "Kotlin Serialization" |});
    ("android-testing-mockk",
     {| keywords := ["mock"; "test"; "mockk"; "testing"; "verify"; "stub"];
        category := "Testing";
        description := "Mocking with MockK" |});
    ("android-testing-turbine",
     {| keywords := ["flow"; "test"; "turbine"; "stateflow"; "testing"; "await"];
        category := "Testing";
        description := "Flow testing with Turbine" |});
    ("android-logging-timber",
     {| keywords := ["log"; "timber"; "logging"; "debug"; "error"];
        category := "Utilities";
        description := "Logging with Timber" |});
    ("android-animation-lottie",
     {| keywords := ["animation"; "lottie"; "animate"; "motion"; "after effects"];
        category := "Animation";
        description := "Lottie animations" |});
    ("android-git-atomic-commits",
     {| keywords := ["git"; "commit"; "atomic"; "conventional"; "traceability"; "small commits"];
        category := "Git";
        description := "Atomic commits with conventional format" |});
    ("android-git-spec-workflow",
     {| keywords := ["git"; "spec"; "workflow"; "branch"; "feature branch"; "pull request"];
        category := "Git";
        description := "SPEC-First git workflow" |});
    ("android-git-conventional-commits",
     {| keywords := ["git"; "conventional"; "commit message"; "changelog"; "semantic versioning"];
        category := "Git";
        description := "Conventional commit format" |});
    ("android-git-multi-commit-feature",
     {| keywords := ["git"; "split"; "multi commit"; "refactor"; "large feature"; "code review"];
        category := "Git";
        description := "Split features into commits" |})
  ].

(** The matcher object; its methods read the catalog through [self]. *)
Record AndroidSkillMatcher := {
  matcher_SKILLS : list (string * Skill)
}.

Definition skill_matcher : AndroidSkillMatcher :=
  {| matcher_SKILLS := SKILLS |}.

Definition core_skills : list string :=
  ["android-clean-architecture"; "android-mvvm-architecture";
   "android-compose-ui"].

(** The inner loop: one point for each keyword found in [text]. *)
Definition keyword_score (text : string) (kws : list string) : nat :=
  foldl (fun score keyword =>
           if contains keyword text then score + 1 else score) 0 kws.

(** The outer loop: the entries with a positive score, with it. *)
Definition matched_entries (skills : list (string * Skill)) (text : string)
    : list (string * nat) :=
  foldl (fun matched entry =>
           let score := keyword_score text (keywords (snd entry)) in
           if 0 <? score then matched ++ [(fst entry, score)] else matched)
        [] skills.

(** [list.sort(key=lambda x: x[1], reverse=True)].  Python's sort is
    stable, also when reversed; it is modelled by insertion: an item
    goes before the first one whose score is not greater. *)
Fixpoint insert_by_score (x : string * nat) (l : list (string * nat))
    : list (string * nat) :=
  match l with
  | [] => [x]
  | y :: l' =>
      if snd y <=? snd x then x :: l else y :: insert_by_score x l'
  end.

Definition sort_by_score (l : list (string * nat)) : list (string * nat) :=
  foldr insert_by_score [] l.

(** [if x not in result: result.append(x)] *)
Definition append_if_absent (result : list string) (x : string)
    : list string :=
  if decide (x ∈ result) then result else result ++ [x].

Definition combined_text (feature_description : string)
    (requirements : list string) : string :=
  lower (feature_description +:+ " " +:+ join " " requirements).

Definition match_skills (self : AndroidSkillMatcher)
    (feature_description : string) (requirements : list string)
    : list string :=
  let text := combined_text feature_description requirements in
  let matched := sort_by_score (matched_entries (matcher_SKILLS self) text) in
  let result := foldl append_if_absent [] (map fst matched) in
  let result := foldl append_if_absent result core_skills in
  firstn 10 result.

(** *** EARSRequirementGenerator *)

(** [f"{number:02d}"] *)
Definition format_02d (number : nat) : string :=
  let digits := NilEmpty.string_of_uint (Nat.to_uint number) in
  if String.length digits <? 2 then "0" +:+ digits else digits.

Definition generate_requirement_id (spec_id req_type : string)
    (number : nat) : string :=
  "REQ-" +:+ spec_id +:+ "-" +:+ req_type +:+ "-" +:+ format_02d number.

(** [any(word in req_lower for word in words)] *)
Definition any_in (words : list string) (text : string) : bool :=
  existsb (fun word => contains word text) words.

Definition categorize_requirement (requirement : string) : string * string :=
  let req_lower := lower requirement in
  if any_in ["when"; "on click"; "on tap"; "trigger"; "event"] req_lower then
    if negb (startswith "WHEN" requirement)
    then ("E", "WHEN [trigger event], the system shall " +:+ requirement)
    else ("E", requirement)
  else if any_in ["while"; "during"; "in state"] req_lower then
    if negb (startswith "WHILE" requirement)
    then ("S", "WHILE [in specific state], the system shall " +:+ requirement)
    else ("S", requirement)
  else if any_in ["shall not"; "must not"; "cannot"; "should not"] req_lower then
    if negb (startswith "IF" requirement)
    then ("N", "IF [condition], THEN the system shall NOT " +:+ requirement)
    else ("N", requirement)
  else if any_in ["optional"; "if enabled"; "where available"] req_lower then
    if negb (startswith "WHERE" requirement)
    then ("O", "WHERE [feature is enabled], the system shall " +:+ requirement)
    else ("O", requirement)
  else if negb (startswith "The system shall" requirement)
    then ("U", "The system shall " +:+ requirement)
    else ("U", requirement).

(** *** SpecBuilder *)

Definition req_types : list string := ["U"; "S"; "E"; "O"; "N"].

(** [(req_id, req_type, requirement)] *)
Definition ears_requirement : Type := string * string * string.

(** The requirements of one kind, formatted, in input order:
    [categorized_reqs[req_type]]. *)
Definition categorized (requirements : list string) (req_type : string)
    : list string :=
  map snd (filter (fun p => fst p = req_type)
                  (map categorize_requirement requirements)).

(** Numbering within one kind starts at 1. *)
Definition numbered (spec_id req_type : string) (reqs : list string)
    : list ears_requirement :=
  map (fun p => (generate_requirement_id spec_id req_type (fst p),
                 req_type, snd p))
      (DocSyncer.enumerate_from 1 reqs).

Definition ears_requirements_of (spec_id : string)
    (requirements : list string) : list ears_requirement :=
  concat (map (fun req_type =>
                 numbered spec_id req_type (categorized requirements req_type))
              req_types).

Definition frontmatter_text (spec_id feature_name author today : string)
    (matched_skills : list string) : string :=
  "---
spec_id: SPEC-" +:+ spec_id +:+ "
feature: " +:+ feature_name +:+ "
status: draft
version: 1.0.0
author: " +:+ author +:+ "
date: " +:+ today +:+ "
related_skills:
"
  +:+ String.concat EmptyString
        (map (fun skill => "  - " +:+ skill +:+ nl) matched_skills)
  +:+ "traceability:
  requirements: []
  code_files: []
  test_files: []
---

".

Definition overview_text (feature_name purpose : string) : string :=
  "# " +:+ feature_name +:+ " Specification

## 1. Overview

**Purpose**: " +:+ purpose +:+ "

**Scope**:
- In Scope: [To be defined]
- Out of Scope: [To be defined]

**Dependencies**:
- External: [To be defined]
- Internal: [To be defined]

---

## 2. Requirements (EARS Format)

".

Definition section_title (req_type : string) : string :=
  if String.eqb req_type "U" then "Ubiquitous Requirements (Core Functionality)"
  else if String.eqb req_type "S" then "State-Driven Requirements"
  else if String.eqb req_type "E" then "Event-Driven Requirements"
  else if String.eqb req_type "O" then "Optional Requirements"
  else "Unwanted Behaviors".

Definition section_number (req_type : string) : string :=
  if String.eqb req_type "U" then "1"
  else if String.eqb req_type "S" then "2"
  else if String.eqb req_type "E" then "3"
  else if String.eqb req_type "O" then "4"
  else "5".

Definition format_note (req_type : string) : string :=
  if String.eqb req_type "U" then "*Format: " +:+ dquote +:+ "The system shall [requirement]" +:+ dquote +:+ "*

"
  else if String.eqb req_type "S" then "*Format: " +:+ dquote +:+ "WHILE [state], the system shall [requirement]" +:+ dquote +:+ "*

"
  else if String.eqb req_type "E" then "*Format: " +:+ dquote +:+ "WHEN [trigger event], the system shall [requirement]" +:+ dquote +:+ "*

"
  else if String.eqb req_type "O" then "*Format: " +:+ dquote +:+ "WHERE [feature is enabled], the system shall [requirement]" +:+ dquote +:+ "*

"
  else "*Format: " +:+ dquote +:+ "IF [condition], THEN the system shall NOT [unwanted behavior]" +:+ dquote +:+ "*

".

(** The section of one kind; nothing when the kind has no
    requirement. *)
Definition requirement_section (ears : list ears_requirement)
    (req_type : string) : string :=
  match filter (fun r => snd (fst r) = req_type) ears with
  | [] => EmptyString
  | reqs =>
      "### 2." +:+ section_number req_type +:+ " "
        +:+ section_title req_type +:+ nl
        +:+ format_note req_type
        +:+ String.concat EmptyString
              (map (fun r => "- **" +:+ fst (fst r) +:+ "**: " +:+ snd r +:+ nl)
                   reqs)
        +:+ nl
  end.

Definition stories_text : string :=
  "---

## 3. User Stories

### Story 1: [User Story Title]
**As a** [user type]
**I want** [goal/desire]
**So that** [benefit/value]

**Acceptance Criteria**:
- [ ] Given [precondition], when [action], then [expected result]

**Related Requirements**: [REQ IDs]

---

## 4. Architecture (Clean Architecture)

### 4.1 Domain Layer

**Models**:
```kotlin
data class [ModelName](
    val id: String,
    // Add properties based on requirements
)
```

**Use Cases**:
- `Get[Entity]UseCase`: [Description]
- `Create[Entity]UseCase`: [Description]

**Repository Interfaces**:
```kotlin
interface [Entity]Repository {
    suspend fun get[Entity](id: String): Result<[Entity]>
}
```

### 4.2 Data Layer

**API Endpoints**:
- `GET /api/[endpoint]`: [Description]
- `POST /api/[endpoint]`: [Description]

**Database Schema**:
```kotlin
@Entity(tableName = " +:+ dquote +:+ "[table_name]" +:+ dquote +:+ ")
data class [Entity]Entity(
    @PrimaryKey val id: String,
    // Fields
)
```

### 4.3 Presentation Layer

**Screens**:
- `[Feature]Screen.kt`: [Description]

**ViewModels**:
```kotlin
@HiltViewModel
class [Feature]ViewModel @Inject constructor() : ViewModel() {
    // Implementation
}
```

---

## 5. Related Skills

This feature uses the following Android skills:

".

Definition skill_description (self : AndroidSkillMatcher) (skill : string)
    : string :=
  match filter (fun e => fst e = skill) (matcher_SKILLS self) with
  | e :: _ => description (snd e)
  | [] => EmptyString
  end.

Definition checklist_text : string :=
  "
---

## 6. Implementation Checklist

### Domain Layer
- [ ] Define domain models
- [ ] Create use cases
- [ ] Define repository interfaces

### Data Layer
- [ ] Implement API service
- [ ] Create database entities
- [ ] Implement repository

### Presentation Layer
- [ ] Create ViewModel
- [ ] Define State, Actions, Events
- [ ] Implement UI screens

### Testing
- [ ] Write unit tests (85%+ coverage)
- [ ] Write UI tests
- [ ] Write integration tests

### Documentation
- [ ] Update README
- [ ] Add code comments with SPEC IDs
- [ ] Generate documentation

---

## 7. Traceability Matrix

| Requirement | Code File | Test File | Status |
|-------------|-----------|-----------|--------|
".

Definition pending_row (req_id : string) : string :=
  "| " +:+ req_id +:+ " | [TBD] | [TBD] | ‚è≥ Pending |
".

Definition notes_text (today : string) : string :=
  "
**Legend**: ‚è≥ Pending | üü¢ Implemented | ‚úÖ Tested | ‚ùå Failed

---

## 8. Notes & Considerations

### Next Steps
1. Review and refine requirements
2. Define detailed user stories
3. Design data models
4. Begin implementation

### Questions to Resolve
- [Question 1]
- [Question 2]

---

**Document Version**: 1.0.0
**Last Updated**: " +:+ today +:+ "
**Status**: Draft - Ready for review
".

Definition generate_spec_content (self : AndroidSkillMatcher)
    (spec_id feature_name purpose : string)
    (ears : list ears_requirement) (matched_skills : list string)
    (author today : string) : string :=
  frontmatter_text spec_id feature_name author today matched_skills
  +:+ overview_text feature_name purpose
  +:+ String.concat EmptyString (map (requirement_section ears) req_types)
  +:+ stories_text
  +:+ String.concat EmptyString
        (map (fun skill => "- `" +:+ skill +:+ "`: "
                           +:+ skill_description self skill +:+ nl)
             matched_skills)
  +:+ checklist_text
  +:+ String.concat EmptyString
        (map (fun r => pending_row (fst (fst r))) ears)
  +:+ notes_text today.

(** The text [create_spec] writes to [SPEC.md].  [today] is the date
    the clock gives, formatted [%Y-%m-%d].  The file goes into the
    directory of the feature ([SpecBuilderFiles.write_spec_file]); a
    reader opens it in text mode and gets
    [DocSyncer.universal_newlines] of this text. *)
Definition create_spec (self : AndroidSkillMatcher)
    (spec_id feature_name purpose : string) (requirements : list string)
    (matched_skills : list string) (author today : string) : string :=
  generate_spec_content self spec_id feature_name purpose
    (ears_requirements_of spec_id requirements) matched_skills author today.

(** *** get_next_spec_id *)

(** An entry of the specs directory: not a directory, a directory
    without [SPEC.md], or a directory with it and the text it holds. *)
Inductive SpecsEntry :=
| NotADirectory
| WithoutSpec
| WithSpec (content : string).

(** [spec_id:\s*SPEC-(\d+)] at the start of [s], group 1. *)
Definition match_spec_number (s : string) : option string :=
  match after_literal "spec_id:" s with
  | None => None
  | Some r1 =>
      match after_literal "SPEC-" (snd (span is_space r1)) with
      | None => None
      | Some r2 =>
          match span is_digit r2 with
          | (EmptyString, _) => None
          | (digits, _) => Some digits
          end
      end
  end.

(** [re.search(r'spec_id:\s*SPEC-(\d+)', content)], group 1. *)
Fixpoint search_spec_number (content : string) : option string :=
  match match_spec_number content with
  | Some g => Some g
  | None =>
      match content with
      | EmptyString => None
      | String _ content' => search_spec_number content'
      end
  end.

(** [int(s)] on a string of decimal digits. *)
Definition int_of_digits (s : string) : nat := DocSyncer.number_in_base 10 s.

(** The interpreter converts between text and integers up to this
    many digits (the default of [sys.int_info]); beyond it the
    conversion raises [ValueError]. *)
Definition max_str_digits : nat := 4300.

(** [int(s)] with its limit; [None] when it raises. *)
Definition int_checked (s : string) : option nat :=
  if String.length s <=? max_str_digits then Some (int_of_digits s) else None.

(** The numbers collected by the loop over the specs directory;
    [None] when a conversion raises. *)
Definition existing_spec_ids (entries : list SpecsEntry)
    : option (list nat) :=
  foldl (fun acc entry =>
           match acc with
           | None => None
           | Some spec_ids =>
               match entry with
               | WithSpec content =>
                   match search_spec_number content with
                   | Some g =>
                       match int_checked g with
                       | Some number => Some (spec_ids ++ [number])
                       | None => None
                       end
                   | None => Some spec_ids
                   end
               | _ => Some spec_ids
               end
           end) (Some []) entries.

(** [f"{number:03d}"] *)
Definition format_03d (number : nat) : string :=
  let digits := NilEmpty.string_of_uint (Nat.to_uint number) in
  match String.length digits with
  | 0 => "000" +:+ digits
  | 1 => "00" +:+ digits
  | 2 => "0" +:+ digits
  | _ => digits
  end.

(** [f"{number:03d}"] with the limit on the number of digits. *)
Definition format_03d_checked (number : nat) : option string :=
  if String.length (NilEmpty.string_of_uint (Nat.to_uint number))
       <=? max_str_digits
  then Some (format_03d number) else None.

(** [specs_dir] is [None] when the directory does not exist; the
    result is [None] when a [ValueError] is raised. *)
Definition get_next_spec_id (specs_dir : option (list SpecsEntry))
    : option string :=
  match specs_dir with
  | None => Some "001"
  | Some entries =>
      match existing_spec_ids entries with
      | None => None
      | Some spec_ids =>
          let next_id :=
            match spec_ids with
            | [] => 1
            | _ => foldr Nat.max 0 spec_ids + 1
            end in
          format_03d_checked next_id
      end
  end.

End SpecBuilder.

(** ** spec_builder.py: [match_skills] on the store of objects *)

Module SpecBuilderStore.
Import Text SpecBuilder.

(** A call of [match_skills] as the interpreter runs it.
    [match_skills] works on objects that outlive the call: the
    catalog dict, which every matcher shares through the class, and
    the list of requirements the caller passes.  The lists it fills
    ([matched_skills], [core_skills], [result]) and the slice it
    returns are new objects of each call. *)

Inductive Object :=
| Catalog (items : list (string * Skill))   (* the [SKILLS] dict *)
| Strings (items : list string)             (* a list of [str] *)
| Scored (items : list (string * nat)).     (* a list of (name, score) *)

(** The store: the objects by their identity. *)
Notation Store := (gmap positive Object).

(** A statement: it runs in a store and gives a value and the store
    after it, or raises ([None]). *)
Definition Stmt (A : Type) : Type := Store → option (A * Store).

Definition ret {A} (a : A) : Stmt A := fun store => Some (a, store).

Definition bind {A B} (m : Stmt A) (k : A → Stmt B) : Stmt B :=
  fun store =>
    match m store with
    | Some (a, store') => k a store'
    | None => None
    end.

Notation "'let!' x ':=' m 'in' k" := (bind m (fun x => k))
  (at level 20, x pattern, m at level 100, k at level 200).
Notation "m ';;;' k" := (bind m (fun _ => k))
  (at level 100, k at level 200, right associativity).

(** A new object: its identity is one the store does not hold. *)
Definition new (o : Object) : Stmt positive :=
  fun store =>
    let l := fresh (dom store) in Some (l, <[l := o]> store).

Definition read_catalog (l : positive) : Stmt (list (string * Skill)) :=
  fun store =>
    match store !! l with
    | Some (Catalog items) => Some (items, store)
    | _ => None
    end.

Definition read_strings (l : positive) : Stmt (list string) :=
  fun store =>
    match store !! l with
    | Some (Strings items) => Some (items, store)
    | _ => None
    end.

Definition read_scored (l : positive) : Stmt (list (string * nat)) :=
  fun store =>
    match store !! l with
    | Some (Scored items) => Some (items, store)
    | _ => None
    end.

(** [l.append(x)] *)
Definition append_string (l : positive) (x : string) : Stmt unit :=
  fun store =>
    match store !! l with
    | Some (Strings items) => Some (tt, <[l := Strings (items ++ [x])]> store)
    | _ => None
    end.

Definition append_scored (l : positive) (x : string * nat) : Stmt unit :=
  fun store =>
    match store !! l with
    | Some (Scored items) => Some (tt, <[l := Scored (items ++ [x])]> store)
    | _ => None
    end.

(** [l.sort(key=lambda x: x[1], reverse=True)], in place. *)
Definition sort_scored (l : positive) : Stmt unit :=
  fun store =>
    match store !! l with
    | Some (Scored items) =>
        Some (tt, <[l := Scored (sort_by_score items)]> store)
    | _ => None
    end.

(** [for x in items: body(x)] *)
Fixpoint for_each {A} (items : list A) (body : A → Stmt unit) : Stmt unit :=
  match items with
  | [] => ret tt
  | x :: items' => body x ;;; for_each items' body
  end.

(** [if x not in result: result.append(x)] *)
Definition append_if_not_in (result : positive) (x : string) : Stmt unit :=
  let! items := read_strings result in
  if decide (x ∈ items) then ret tt else append_string result x.

(** The body of [match_skills], statement by statement.  [self] is
    the identity of the catalog the matcher reads, [requirements]
    that of the caller's list; the value is the identity of the list
    returned. *)
Definition call_match_skills (self : positive)
    (feature_description : string) (requirements : positive)
    : Stmt positive :=
  let! reqs := read_strings requirements in
  let text := lower (feature_description +:+ " " +:+ join " " reqs) in
  let! matched_skills := new (Scored []) in
  let! skills := read_catalog self in
  for_each skills (fun entry =>
    let score := keyword_score text (keywords (snd entry)) in
    if 0 <? score then append_scored matched_skills (fst entry, score)
    else ret tt) ;;;
  sort_scored matched_skills ;;;
  let! core := new (Strings core_skills) in
  let! result := new (Strings []) in
  let! matched := read_scored matched_skills in
  for_each matched (fun entry => append_if_not_in result (fst entry)) ;;;
  let! core_items := read_strings core in
  for_each core_items (fun core_skill =>
    append_if_not_in result core_skill) ;;;
  let! items := read_strings result in
  new (Strings (firstn 10 items)).

End SpecBuilderStore.

(** ** code_builder.py *)

Module CodeBuilder.
Import Text.

Record Requirement := {
  id : string;
  type : string;
  description : string
}.

Record SpecDocument := {
  spec_id : string;
  feature : string;
  status : string;
  version : string;
  author : string;
  date : string;
  related_skills : list string;
  requirements : list Requirement;
  purpose : string
}.

(** The one exception [parse] raises itself:
    [ValueError("No frontmatter found in SPEC file")]. *)
Inductive ParseError :=
| NoFrontmatter.

(** [_extract_field(text, field, default)] *)
Definition extract_field (text field default : string) : string :=
  match search_field field text with
  | Some g => strip g
  | None => default
  end.

(** [-([USEON])-] anywhere in the identifier, group 1. *)
Definition is_kind_letter (c : ascii) : bool :=
  existsb (Ascii.eqb c) ["U"; "S"; "E"; "O"; "N"]%char.

Fixpoint search_kind (s : string) : option string :=
  match s with
  | EmptyString => None
  | String c s' =>
      match
        match s' with
        | String k (String c2 _) =>
            if Ascii.eqb c "-" && is_kind_letter k && Ascii.eqb c2 "-"
            then Some (String k EmptyString) else None
        | _ => None
        end
      with
      | Some k => Some k
      | None => search_kind s'
      end
  end.

(** [-\s+\*\*([A-Z-]+)\*\*:\s+(.+)] at the start of [s]: groups 1 and
    2 and the text left.  After the colon, [\s+] needs one whitespace
    character and then behaves as [\s*]. *)
Definition match_requirement (s : string)
    : option ((string * string) * string) :=
  match after_literal "-" s with
  | None => None
  | Some r1 =>
      match span is_space r1 with
      | (EmptyString, _) => None
      | (_, r2) =>
          match after_literal "**" r2 with
          | None => None
          | Some r3 =>
              match span is_alpha_id_char r3 with
              | (EmptyString, _) => None
              | (req_id, r4) =>
                  match after_literal "**:" r4 with
                  | Some (String c r5) =>
                      if is_space c then
                        match ws_then_line r5 with
                        | Some (g2, rest) => Some ((req_id, g2), rest)
                        | None => None
                        end
                      else None
                  | _ => None
                  end
              end
          end
      end
  end.

(** [_extract_requirements(content)] *)
Definition extract_requirements (content : string) : list Requirement :=
  map (fun m =>
         {| id := fst m;
            type := default "U" (search_kind (fst m));
            description := strip (snd m) |})
      (findall match_requirement content).

(** [(?:  - .*\n)*] at the start of [s]: the lines taken, each with
    its line feed. *)
Fixpoint skill_lines (fuel : nat) (s : string) : string :=
  match fuel with
  | O => EmptyString
  | S fuel' =>
      match after_literal "  - " s with
      | None => EmptyString
      | Some r =>
          match span not_newline r with
          | (line, String _ rest) =>
              "  - " +:+ line +:+ nl +:+ skill_lines fuel' rest
          | (_, EmptyString) => EmptyString
          end
      end
  end.

(** [re.search] for the key [related_skills:], a line feed and the
    group of bullet lines above; group 1.  The group may be empty, so
    the first occurrence of the key matches. *)
Definition search_skills (frontmatter : string) : option string :=
  match lazy_until ("related_skills:" +:+ nl) frontmatter with
  | Some (_, r) => Some (skill_lines (String.length r) r)
  | None => None
  end.

(** [s.split('\n')] *)
Fixpoint split_lines (s : string) : list string :=
  match s with
  | EmptyString => [EmptyString]
  | String c s' =>
      match split_lines s' with
      | [] => [EmptyString]
      | l :: ls =>
          if Ascii.eqb c newline then EmptyString :: l :: ls
          else String c l :: ls
      end
  end.

(** [s.replace('- ', '')] *)
Fixpoint remove_dash_space (skip : nat) (s : string) : string :=
  match s with
  | EmptyString => EmptyString
  | String c s' =>
      match skip with
      | S k => remove_dash_space k s'
      | O =>
          if startswith "- " s then remove_dash_space 1 s'
          else String c (remove_dash_space 0 s')
      end
  end.

Definition parse_related_skills (frontmatter : string) : list string :=
  match search_skills frontmatter with
  | None => []
  | Some skills_text =>
      map (fun line => remove_dash_space 0 (strip line))
          (filter (fun line => startswith "-" (strip line) = true)
                  (split_lines skills_text))
  end.

(** [re.search(r'\*\*Purpose\*\*: (.+)', content)], group 1. *)
Fixpoint search_purpose (content : string) : option string :=
  match
    match after_literal "**Purpose**: " content with
    | Some r =>
        match span not_newline r with
        | (EmptyString, _) => None
        | (g, _) => Some g
        end
    | None => None
    end
  with
  | Some g => Some g
  | None =>
      match content with
      | EmptyString => None
      | String _ content' => search_purpose content'
      end
  end.

(** [SpecParser.parse], on the text read from the file. *)
Definition parse (content : string) : ParseError + SpecDocument :=
  match search_frontmatter content with
  | None => inl NoFrontmatter
  | Some frontmatter =>
      inr {| spec_id := extract_field frontmatter "spec_id" EmptyString;
             feature := extract_field frontmatter "feature" EmptyString;
             status := extract_field frontmatter "status" "draft";
             version := extract_field frontmatter "version" "1.0.0";
             author := extract_field frontmatter "author" "Unknown";
             date := extract_field frontmatter "date" EmptyString;
             related_skills := parse_related_skills frontmatter;
             requirements := extract_requirements content;
             purpose := default EmptyString (search_purpose content) |}
  end.

(** *** CodeGenerator *)

(** [s.replace(old, new)] for a non-empty [old]: the occurrences of
    [old] are replaced from left to right, without overlap.  [skip]
    counts the characters of an occurrence still to pass. *)
Fixpoint replace_from (skip : nat) (old new s : string) : string :=
  match s with
  | EmptyString => EmptyString
  | String c s' =>
      match skip with
      | S k => replace_from k old new s'
      | O =>
          if startswith old s
          then new +:+ replace_from (String.length old - 1) old new s'
          else String c (replace_from 0 old new s')
      end
  end.

Definition replace (old new s : string) : string := replace_from 0 old new s.

(** The generator object.  Its output directory is the root of the
    relative paths below. *)
Record CodeGenerator := {
  spec : SpecDocument;
  package_name : string;
  feature_name : string
}.

(** [CodeGenerator.__init__] *)
Definition init (spec : SpecDocument) : CodeGenerator :=
  {| spec := spec;
     package_name := "com.example.app";
     feature_name :=
       replace "-" EmptyString (replace " " EmptyString (feature spec)) |}.

Definition _generate_domain_model (self : CodeGenerator) : string :=
  "package " +:+
  package_name self +:+
  ".domain.model

// " +:+
  spec_id (spec self) +:+
  ": " +:+
  feature (spec self) +:+
  "
// Purpose: " +:+
  purpose (spec self) +:+
  "
data class " +:+
  feature_name self +:+
  "(
    val id: String,
    // TODO: Add properties based on SPEC requirements
)
".

Definition _generate_repository_interface (self : CodeGenerator) : string :=
  "package " +:+
  package_name self +:+
  ".domain.repository

import " +:+
  package_name self +:+
  ".domain.model." +:+
  feature_name self +:+
  "

// " +:+
  spec_id (spec self) +:+
  ": Repository interface
interface " +:+
  feature_name self +:+
  "Repository {
    suspend fun get" +:+
  feature_name self +:+
  "(id: String): Result<" +:+
  feature_name self +:+
  ">
    // TODO: Add methods based on SPEC requirements
}
".

(** [usecase_name] in [_generate_usecases] *)
Definition usecase_name (self : CodeGenerator) : string :=
  "Get" +:+ feature_name self +:+ "UseCase".

(** [usecase_code] in [_generate_usecases] *)
Definition usecase_code (self : CodeGenerator) : string :=
  "package " +:+
  package_name self +:+
  ".domain.usecase

import " +:+
  package_name self +:+
  ".domain.model." +:+
  feature_name self +:+
  "
import " +:+
  package_name self +:+
  ".domain.repository." +:+
  feature_name self +:+
  "Repository
import javax.inject.Inject

// " +:+
  spec_id (spec self) +:+
  ": Get " +:+
  feature_name self +:+
  " use case
class " +:+
  usecase_name self +:+
  " @Inject constructor(
    private val repository: " +:+
  feature_name self +:+
  "Repository
) {
    suspend operator fun invoke(id: String): Result<" +:+
  feature_name self +:+
  "> {
        return repository.get" +:+
  feature_name self +:+
  "(id)
    }
}
".

Definition _generate_api_interface (self : CodeGenerator) : string :=
  "package " +:+
  package_name self +:+
  ".data.remote

import " +:+
  package_name self +:+
  ".data.remote." +:+
  feature_name self +:+
  "Dto
import retrofit2.Response
import retrofit2.http.GET
import retrofit2.http.Path

// " +:+
  spec_id (spec self) +:+
  ": API interface
interface " +:+
  feature_name self +:+
  "Api {
    @GET(" +:+ dquote +:+ "api/" +:+
  lower (feature_name self) +:+
  "/{id}" +:+ dquote +:+ ")
    suspend fun get" +:+
  feature_name self +:+
  "(@Path(" +:+ dquote +:+ "id" +:+ dquote +:+ ") id: String): Response<" +:+
  feature_name self +:+
  "Dto>
}
".

Definition _generate_dtos (self : CodeGenerator) : string :=
  "package " +:+
  package_name self +:+
  ".data.remote

import " +:+
  package_name self +:+
  ".domain.model." +:+
  feature_name self +:+
  "
import kotlinx.serialization.Serializable

// " +:+
  spec_id (spec self) +:+
  ": Data transfer object
@Serializable
data class " +:+
  feature_name self +:+
  "Dto(
    val id: String,
    // TODO: Add fields based on SPEC
)

// " +:+
  spec_id (spec self) +:+
  ": Mapper from DTO to Domain
fun " +:+
  feature_name self +:+
  "Dto.toDomain(): " +:+
  feature_name self +:+
  " = " +:+
  feature_name self +:+
  "(
    id = id,
    // TODO: Map fields
)
".

Definition _generate_repository_implementation (self : CodeGenerator) : string :=
  "package " +:+
  package_name self +:+
  ".data.repository

import " +:+
  package_name self +:+
  ".data.remote." +:+
  feature_name self +:+
  "Api
import " +:+
  package_name self +:+
  ".data.remote.toDomain
import " +:+
  package_name self +:+
  ".domain.model." +:+
  feature_name self +:+
  "
import " +:+
  package_name self +:+
  ".domain.repository." +:+
  feature_name self +:+
  "Repository
import javax.inject.Inject

// " +:+
  spec_id (spec self) +:+
  ": Repository implementation
class " +:+
  feature_name self +:+
  "RepositoryImpl @Inject constructor(
    private val api: " +:+
  feature_name self +:+
  "Api,
) : " +:+
  feature_name self +:+
  "Repository {

    override suspend fun get" +:+
  feature_name self +:+
  "(id: String): Result<" +:+
  feature_name self +:+
  "> {
        return try {
            val response = api.get" +:+
  feature_name self +:+
  "(id)
            if (response.isSuccessful) {
                response.body()?.let {
                    Result.success(it.toDomain())
                } ?: Result.failure(Exception(" +:+ dquote +:+ "Empty response" +:+ dquote +:+ "))
            } else {
                Result.failure(Exception(" +:+ dquote +:+ "Error: ${response.code()}" +:+ dquote +:+ "))
            }
        } catch (e: Exception) {
            Result.failure(e)
        }
    }
}
".

Definition _generate_state (self : CodeGenerator) : string :=
  "package " +:+
  package_name self +:+
  ".presentation.state

import " +:+
  package_name self +:+
  ".domain.model." +:+
  feature_name self +:+
  "

// " +:+
  spec_id (spec self) +:+
  ": Screen state
data class " +:+
  feature_name self +:+
  "State(
    val isLoading: Boolean = false,
    val data: " +:+
  feature_name self +:+
  "? = null,
    val error: String? = null,
)

// " +:+
  spec_id (spec self) +:+
  ": User actions
sealed interface " +:+
  feature_name self +:+
  "Action {
    data class Load(val id: String) : " +:+
  feature_name self +:+
  "Action
}

// " +:+
  spec_id (spec self) +:+
  ": One-time events
sealed interface " +:+
  feature_name self +:+
  "Event {
    data class ShowError(val message: String) : " +:+
  feature_name self +:+
  "Event
}
".

Definition _generate_viewmodel (self : CodeGenerator) : string :=
  "package " +:+
  package_name self +:+
  ".presentation.viewmodel

import androidx.lifecycle.ViewModel
import androidx.lifecycle.viewModelScope
import " +:+
  package_name self +:+
  ".domain.usecase.Get" +:+
  feature_name self +:+
  "UseCase
import " +:+
  package_name self +:+
  ".presentation.state." +:+
  feature_name self +:+
  "Action
import " +:+
  package_name self +:+
  ".presentation.state." +:+
  feature_name self +:+
  "Event
import " +:+
  package_name self +:+
  ".presentation.state." +:+
  feature_name self +:+
  "State
import dagger.hilt.android.lifecycle.HiltViewModel
import kotlinx.coroutines.channels.Channel
import kotlinx.coroutines.flow.*
import kotlinx.coroutines.launch
import javax.inject.Inject

// " +:+
  spec_id (spec self) +:+
  ": ViewModel
@HiltViewModel
class " +:+
  feature_name self +:+
  "ViewModel @Inject constructor(
    private val get" +:+
  feature_name self +:+
  "UseCase: Get" +:+
  feature_name self +:+
  "UseCase,
) : ViewModel() {

    private val _state = MutableStateFlow(" +:+
  feature_name self +:+
  "State())
    val state: StateFlow<" +:+
  feature_name self +:+
  "State> = _state.asStateFlow()

    private val _events = Channel<" +:+
  feature_name self +:+
  "Event>()
    val events = _events.receiveAsFlow()

    fun onAction(action: " +:+
  feature_name self +:+
  "Action) {
        when (action) {
            is " +:+
  feature_name self +:+
  "Action.Load -> load(action.id)
        }
    }

    private fun load(id: String) {
        viewModelScope.launch {
            _state.update { it.copy(isLoading = true, error = null) }

            get" +:+
  feature_name self +:+
  "UseCase(id)
                .onSuccess { data ->
                    _state.update { it.copy(isLoading = false, data = data) }
                }
                .onFailure { error ->
                    _state.update { it.copy(isLoading = false, error = error.message) }
                    _events.send(" +:+
  feature_name self +:+
  "Event.ShowError(error.message ?: " +:+ dquote +:+ "Unknown error" +:+ dquote +:+ "))
                }
        }
    }
}
".

Definition _generate_screen (self : CodeGenerator) : string :=
  "package " +:+
  package_name self +:+
  ".presentation.ui

import androidx.compose.foundation.layout.*
import androidx.compose.material3.*
import androidx.compose.runtime.*
import androidx.compose.ui.Alignment
import androidx.compose.ui.Modifier
import androidx.compose.ui.unit.dp
import androidx.hilt.navigation.compose.hiltViewModel
import androidx.lifecycle.compose.collectAsStateWithLifecycle
import " +:+
  package_name self +:+
  ".presentation.state." +:+
  feature_name self +:+
  "Action
import " +:+
  package_name self +:+
  ".presentation.state." +:+
  feature_name self +:+
  "Event
import " +:+
  package_name self +:+
  ".presentation.viewmodel." +:+
  feature_name self +:+
  "ViewModel

// " +:+
  spec_id (spec self) +:+
  ": Screen
@Composable
fun " +:+
  feature_name self +:+
  "Screen(
    viewModel: " +:+
  feature_name self +:+
  "ViewModel = hiltViewModel(),
) {
    val state by viewModel.state.collectAsStateWithLifecycle()

    LaunchedEffect(Unit) {
        viewModel.events.collect { event ->
            when (event) {
                is " +:+
  feature_name self +:+
  "Event.ShowError -> {
                    // TODO: Show snackbar or toast
                }
            }
        }
    }

    " +:+
  feature_name self +:+
  "Content(
        state = state,
        onAction = viewModel::onAction,
    )
}

@Composable
private fun " +:+
  feature_name self +:+
  "Content(
    state: " +:+
  replace " " EmptyString (feature (spec self)) +:+
  "State,
    onAction: (" +:+
  feature_name self +:+
  "Action) -> Unit,
) {
    Column(
        modifier = Modifier
            .fillMaxSize()
            .padding(16.dp),
        horizontalAlignment = Alignment.CenterHorizontally,
        verticalArrangement = Arrangement.Center,
    ) {
        when {
            state.isLoading -> CircularProgressIndicator()
            state.error != null -> Text(" +:+ dquote +:+ "Error: ${state.error}" +:+ dquote +:+ ")
            state.data != null -> Text(" +:+ dquote +:+ "Data: ${state.data}" +:+ dquote +:+ ")
            else -> Text(" +:+ dquote +:+ "No data" +:+ dquote +:+ ")
        }
    }
}
".

Definition _generate_unit_tests (self : CodeGenerator) : string :=
  "package " +:+
  package_name self +:+
  ".domain

import " +:+
  package_name self +:+
  ".domain.model." +:+
  feature_name self +:+
  "
import " +:+
  package_name self +:+
  ".domain.repository." +:+
  feature_name self +:+
  "Repository
import " +:+
  package_name self +:+
  ".domain.usecase.Get" +:+
  feature_name self +:+
  "UseCase
import kotlinx.coroutines.test.runTest
import org.junit.Before
import org.junit.Test
import org.mockito.Mock
import org.mockito.Mockito.`when`
import org.mockito.MockitoAnnotations
import kotlin.test.assertTrue

// TEST-" +:+
  spec_id (spec self) +:+
  "-U-01: Test Get" +:+
  feature_name self +:+
  "UseCase
class " +:+
  feature_name self +:+
  "UseCaseTest {

    @Mock
    private lateinit var repository: " +:+
  feature_name self +:+
  "Repository

    private lateinit var useCase: Get" +:+
  feature_name self +:+
  "UseCase

    @Before
    fun setup() {
        MockitoAnnotations.openMocks(this)
        useCase = Get" +:+
  feature_name self +:+
  "UseCase(repository)
    }

    @Test
    fun `get " +:+
  lower (feature_name self) +:+
  " returns success`() = runTest {
        // Given
        val id = " +:+ dquote +:+ "test-id" +:+ dquote +:+ "
        val expected" +:+
  feature_name self +:+
  " = " +:+
  feature_name self +:+
  "(id = id)
        `when`(repository.get" +:+
  feature_name self +:+
  "(id)).thenReturn(Result.success(expected" +:+
  feature_name self +:+
  "))

        // When
        val result = useCase(id)

        // Then
        assertTrue(result.isSuccess)
    }
}
".

Definition _generate_usecases (self : CodeGenerator)
    : list (string * string) :=
  [(usecase_name self, usecase_code self)].

(** A file to write: its path below the output directory, the
    components joined by the separator, and its text. *)
Definition WrittenFile : Type := string * string.

(** [self.package_name.replace(".", "/")] below [src/main/kotlin].
    The components are joined as text: that is the path [pathlib]
    makes when the package name has no empty part between its dots
    (no leading, trailing or doubled dot) and no separator of its
    own; the default package is such a name. *)
Definition base_path (self : CodeGenerator) : string :=
  "src/main/kotlin/" +:+ replace "." "/" (package_name self).

Definition _write_file (self : CodeGenerator) (subdir filename content : string)
    : WrittenFile :=
  (base_path self +:+ "/" +:+ subdir +:+ "/" +:+ filename, content).

Definition generate_domain_layer (self : CodeGenerator) : list WrittenFile :=
  [_write_file self "domain/model" (feature_name self +:+ ".kt")
     (_generate_domain_model self);
   _write_file self "domain/repository"
     (feature_name self +:+ "Repository.kt")
     (_generate_repository_interface self)]
  ++ map (fun usecase =>
            _write_file self "domain/usecase" (fst usecase +:+ ".kt")
              (snd usecase))
         (_generate_usecases self).

Definition generate_data_layer (self : CodeGenerator) : list WrittenFile :=
  [_write_file self "data/remote" (feature_name self +:+ "Api.kt")
     (_generate_api_interface self);
   _write_file self "data/remote" (feature_name self +:+ "Dto.kt")
     (_generate_dtos self);
   _write_file self "data/repository"
     (feature_name self +:+ "RepositoryImpl.kt")
     (_generate_repository_implementation self)].

Definition generate_presentation_layer (self : CodeGenerator)
    : list WrittenFile :=
  [_write_file self "presentation/state" (feature_name self +:+ "State.kt")
     (_generate_state self);
   _write_file self "presentation/viewmodel"
     (feature_name self +:+ "ViewModel.kt") (_generate_viewmodel self);
   _write_file self "presentation/ui" (feature_name self +:+ "Screen.kt")
     (_generate_screen self)].

Definition generate_tests (self : CodeGenerator) : list WrittenFile :=
  [("src/test/kotlin/" +:+ replace "." "/" (package_name self)
      +:+ "/domain/" +:+ feature_name self +:+ "UseCaseTest.kt",
    _generate_unit_tests self)].

(** The files [generate_all] writes, in the order it writes them. *)
Definition generate_all (self : CodeGenerator) : list WrittenFile :=
  generate_domain_layer self ++ generate_data_layer self
  ++ generate_presentation_layer self ++ generate_tests self.

(** [generator.package_name = args.package] *)
Definition with_package (self : CodeGenerator) (package : string)
    : CodeGenerator :=
  {| spec := spec self;
     package_name := package;
     feature_name := feature_name self |}.

(** [main] for the [generate] command, on the text of the SPEC file
    and the package option: the files written, or the error that ends
    the run with status 1. *)
Definition main (package content : string) : ParseError + list WrittenFile :=
  match parse content with
  | inl e => inl e
  | inr document => inr (generate_all (with_package (init document) package))
  end.

End CodeBuilder.

(** ** spec_builder.py: the document in the specs directory *)

Module SpecBuilderFiles.
Import Text SpecBuilder.

(** [feature_name.lower().replace(" ", "-")] *)
Definition feature_slug (feature_name : string) : string :=
  CodeBuilder.replace " " "-" (lower feature_name).

(** A name that [specs_dir / name] makes a direct child of the
    directory, and that a directory can bear: not empty, not [.] or
    [..], without separator and without the character of code 0, and
    of at most 255 bytes. *)
Definition child_name (name : string) : bool :=
  negb (String.eqb name EmptyString)
  && negb (String.eqb name ".")
  && negb (String.eqb name "..")
  && negb (contains "/" name)
  && negb (contains (String (ascii_of_nat 0) EmptyString) name)
  && (String.length name <=? 255).

(** The specs directory: its entries by name. *)
Notation SpecsDir := (gmap string SpecsEntry).

(** [specs_dir.iterdir()] yields the entries in an order of its own:
    [entries] is a listing of the directory. *)
Definition listing (specs_dir : SpecsDir) (entries : list SpecsEntry)
    : Prop :=
  entries ≡ₚ (map_to_list specs_dir).*2.

(** What [create_spec] does to the specs directory when the slug of
    the feature is a child name.  [mkdir(parents=True, exist_ok=True)]
    raises [FileExistsError] when the name is taken by something that
    is not a directory ([None]); otherwise the directory is there
    afterwards and its [SPEC.md] holds [content], which a reader gets
    in text mode. *)
Definition write_spec_file (specs_dir : SpecsDir)
    (feature_name content : string) : option SpecsDir :=
  match specs_dir !! feature_slug feature_name with
  | Some NotADirectory => None
  | _ =>
      Some (<[feature_slug feature_name :=
                WithSpec (DocSyncer.universal_newlines content)]> specs_dir)
  end.

End SpecBuilderFiles.

(** ** validate_specs.py *)

Module SpecValidator.
Import Text.

Definition REQUIRED_SECTIONS : list string :=
  ["## 1. Overview";
   "## 2. Requirements (EARS Format)";
   "## 3. User Stories";
   "## 4. Architecture (Clean Architecture)";
   "## 5. Related Skills";
   "## 6. Implementation Checklist";
   "## 7. Traceability Matrix"].

Definition REQUIRED_FRONTMATTER_FIELDS : list string :=
  ["spec_id"; "feature"; "status"; "version"; "related_skills"].

(** The validator object: the two lists its checks fill. *)
Record SpecValidator := {
  errors : list string;
  warnings : list string
}.

(** [SpecValidator.__init__] *)
Definition init : SpecValidator := {| errors := []; warnings := [] |}.

(** [self.errors.append(message)] *)
Definition add_error (self : SpecValidator) (message : string)
    : SpecValidator :=
  {| errors := errors self ++ [message]; warnings := warnings self |}.

(** [self.warnings.append(message)] *)
Definition add_warning (self : SpecValidator) (message : string)
    : SpecValidator :=
  {| errors := errors self; warnings := warnings self ++ [message] |}.

(** [re.search(r'^---\n(.*?)\n---', content, re.DOTALL)], group 1.
    Without MULTILINE the caret ties the match to the start of the
    text. *)
Definition match_frontmatter (content : string) : option string :=
  match after_literal ("---" +:+ nl) content with
  | Some r =>
      match lazy_until (nl +:+ "---") r with
      | Some (g, _) => Some g
      | None => None
      end
  | None => None
  end.

Definition _validate_frontmatter (self : SpecValidator) (content : string)
    : SpecValidator :=
  match match_frontmatter content with
  | None => add_error self "Missing YAML frontmatter"
  | Some frontmatter =>
      let self :=
        foldl (fun self field =>
                 if contains (field +:+ ":") frontmatter then self
                 else add_error self
                        ("Missing required frontmatter field: " +:+ field))
              self REQUIRED_FRONTMATTER_FIELDS in
      if contains "related_skills:" frontmatter then
        match CodeBuilder.search_skills frontmatter with
        | None => add_warning self "No skills listed in related_skills"
        | Some _ => self
        end
      else self
  end.

Definition _validate_sections (self : SpecValidator) (content : string)
    : SpecValidator :=
  foldl (fun self section =>
           if contains section content then self
           else add_error self ("Missing required section: " +:+ section))
        self REQUIRED_SECTIONS.

(** [-\s+\*\*([A-Z0-9-]+)\*\*:\s+(.+)] at the start of [s]: groups 1
    and 2 and the text left. *)
Definition match_requirement (s : string)
    : option ((string * string) * string) :=
  match after_literal "-" s with
  | None => None
  | Some r1 =>
      match span is_space r1 with
      | (EmptyString, _) => None
      | (_, r2) =>
          match after_literal "**" r2 with
          | None => None
          | Some r3 =>
              match span is_id_char r3 with
              | (EmptyString, _) => None
              | (req_id, r4) =>
                  match after_literal "**:" r4 with
                  | Some (String c r5) =>
                      if is_space c then
                        match ws_then_line r5 with
                        | Some (g2, rest) => Some ((req_id, g2), rest)
                        | None => None
                        end
                      else None
                  | _ => None
                  end
              end
          end
      end
  end.

(** [re.match(r'REQ-\d+-[USEON]-\d+', req_id)] succeeds. *)
Definition standard_id (req_id : string) : bool :=
  match after_literal "REQ-" req_id with
  | None => false
  | Some r1 =>
      match span is_digit r1 with
      | (EmptyString, _) => false
      | (_, String c1 (String k (String c2 r2))) =>
          Ascii.eqb c1 "-" && CodeBuilder.is_kind_letter k
          && Ascii.eqb c2 "-"
          && match span is_digit r2 with
             | (EmptyString, _) => false
             | _ => true
             end
      | _ => false
      end
  end.

Definition ears_sections : list string :=
  ["Ubiquitous Requirements"; "State-Driven Requirements";
   "Event-Driven Requirements"].

Definition _validate_requirements (self : SpecValidator) (content : string)
    : SpecValidator :=
  match findall match_requirement content with
  | [] => add_warning self "No requirements found"
  | requirements =>
      let self :=
        foldl (fun self req =>
                 if negb (startswith "REQ-" (fst req))
                 then add_error self
                        ("Invalid requirement ID format: " +:+ fst req)
                 else if negb (standard_id (fst req))
                 then add_warning self
                        ("Non-standard requirement ID format: " +:+ fst req)
                 else self)
              self requirements in
      foldl (fun self section =>
               if contains section content then self
               else add_warning self
                      ("No " +:+ section +:+ " section found"))
            self ears_sections
  end.

Definition _validate_spec_id (self : SpecValidator) (content : string)
    : SpecValidator :=
  match SpecBuilder.search_spec_number content with
  | None => add_error self "Invalid SPEC ID format"
  | Some spec_id =>
      if contains ("SPEC-" +:+ spec_id) content then self
      else add_warning self
             ("SPEC ID SPEC-" +:+ spec_id +:+ " not referenced in document")
  end.

(** [validate], on the path given and the text of the file, [None]
    when the file does not exist: the result and the object after
    it. *)
Definition validate (path : string) (spec_file : option string)
    : bool * SpecValidator :=
  match spec_file with
  | None => (false, add_error init ("File not found: " +:+ path))
  | Some content =>
      let self := _validate_frontmatter init content in
      let self := _validate_sections self content in
      let self := _validate_requirements self content in
      let self := _validate_spec_id self content in
      (match errors self with [] => true | _ => false end, self)
  end.

End SpecValidator.

(** ** Checks of the embedding on small inputs *)

Module Examples.
Import Text.

Definition lines (l : list string) : string :=
  String.concat EmptyString (map (fun s => s +:+ nl) l).

Definition small_doc : string :=
  lines ["---"; "spec_id: SPEC-001"; "feature: Login"; "---"; EmptyString;
         "- **REQ-001-U-01**: The system shall log in";
         "- **REQ-001-E-01**: WHEN tapped, the system shall act";
         "- **NOTE**: not a requirement"; EmptyString].

Example parse_requirements_small :
  DocSyncer.parse_requirements small_doc = ["REQ-001-U-01"; "REQ-001-E-01"].
Proof. reflexivity. Qed.

Example extract_requirements_small :
  map CodeBuilder.id (CodeBuilder.extract_requirements small_doc) = ["NOTE"].
Proof. reflexivity. Qed.

Example field_runs_into_next_line :
  search_field "feature" ("feature: " +:+ nl +:+ "status: draft")
  = Some "status: draft".
Proof. reflexivity. Qed.

End Examples.

(** * Properties *)

#[local] Arguments Ascii.eqb : simpl never.

(** ** Facts about the text primitives *)

Module TextFacts.
Import Text.

Lemma str_app_nil_l (s : string) : EmptyString +:+ s = s.
Proof. reflexivity. Qed.

Lemma str_app_cons (c : ascii) (a b : string) :
  String c a +:+ b = String c (a +:+ b).
Proof. reflexivity. Qed.

Lemma str_app_nil_r (s : string) : s +:+ EmptyString = s.
Proof. induction s as [|c s IH]; [done|]. by rewrite str_app_cons, IH. Qed.

Lemma str_app_assoc (a b c : string) : (a +:+ b) +:+ c = a +:+ (b +:+ c).
Proof.
  induction a as [|x a IH]; [done|]. by rewrite !str_app_cons, IH.
Qed.

(** Appends to the right, literals spelled out. *)
Ltac norm_app :=
  repeat first [rewrite str_app_assoc | rewrite str_app_cons | rewrite str_app_nil_l].

Lemma str_length_app (a b : string) :
  String.length (a +:+ b) = String.length a + String.length b.
Proof.
  induction a as [|x a IH]; [done|]. rewrite str_app_cons. simpl. by rewrite IH.
Qed.

Lemma startswith_app (p r : string) : startswith p (p +:+ r) = true.
Proof.
  induction p as [|c p IH]; [done|].
  rewrite str_app_cons. simpl. by rewrite Ascii.eqb_refl, IH.
Qed.

Lemma drop_app (p r : string) : drop (String.length p) (p +:+ r) = r.
Proof. induction p as [|c p IH]; [by destruct r|]. by rewrite str_app_cons. Qed.

Lemma startswith_inv (p s : string) :
  startswith p s = true → s = p +:+ drop (String.length p) s.
Proof.
  revert s. induction p as [|c p IH]; intros [|b s] H; simpl in *;
    try done.
  apply andb_true_iff in H as [Hc Hp].
  apply Ascii.eqb_eq in Hc as ->. rewrite str_app_cons. f_equal. by apply IH.
Qed.

Lemma after_literal_app (p r : string) : after_literal p (p +:+ r) = Some r.
Proof. unfold after_literal. by rewrite startswith_app, drop_app. Qed.

Lemma after_literal_inv (p s r : string) :
  after_literal p s = Some r → s = p +:+ r.
Proof.
  unfold after_literal. destruct (startswith p s) eqn:H; [|done].
  intros [= <-]. by apply startswith_inv.
Qed.

Lemma after_literal_char (c b : ascii) (r : string) :
  after_literal (String c EmptyString) (String b r)
  = if Ascii.eqb c b then Some r else None.
Proof. unfold after_literal. simpl. by destruct (Ascii.eqb c b). Qed.

Lemma contains_here (needle s : string) :
  startswith needle s = true → contains needle s = true.
Proof. intros H. destruct s; simpl in *; by rewrite H. Qed.

Lemma contains_cons (needle : string) (c : ascii) (s : string) :
  contains needle s = true → contains needle (String c s) = true.
Proof. intros H. simpl. rewrite H. apply orb_true_r. Qed.

Lemma contains_app_l (needle a s : string) :
  contains needle s = true → contains needle (a +:+ s) = true.
Proof.
  intros H. induction a as [|c a IH]; [done|].
  rewrite str_app_cons. by apply contains_cons.
Qed.

Lemma contains_infix (needle a b : string) :
  contains needle (a +:+ needle +:+ b) = true.
Proof. apply contains_app_l, contains_here, startswith_app. Qed.

(** Every character of [s] satisfies [f]. *)
Fixpoint string_forall (f : ascii -> bool) (s : string) : bool :=
  match s with
  | EmptyString => true
  | String c s' => f c && string_forall f s'
  end.

(** [c] occurs in [s]. *)
Fixpoint occurs (c : ascii) (s : string) : bool :=
  match s with
  | EmptyString => false
  | String x s' => Ascii.eqb x c || occurs c s'
  end.

Lemma string_forall_app (f : ascii -> bool) (a b : string) :
  string_forall f (a +:+ b) = string_forall f a && string_forall f b.
Proof.
  induction a as [|c a IH]; [done|].
  rewrite str_app_cons. simpl. by rewrite IH, andb_assoc.
Qed.

Lemma span_app (f : ascii -> bool) (r t : string) :
  span f (r +:+ t)
  = match span f r with
    | (a, EmptyString) => (a +:+ fst (span f t), snd (span f t))
    | (a, b) => (a, b +:+ t)
    end.
Proof.
  induction r as [|c r IH].
  - rewrite str_app_nil_l. simpl. by destruct (span f t).
  - rewrite str_app_cons. simpl. destruct (f c); [|done].
    rewrite IH. by destruct (span f r) as [a [|x b]].
Qed.

Lemma span_app_stop (f : ascii -> bool) (r : string) (c : ascii) (t : string) :
  f c = false →
  span f (r +:+ String c t)
  = (fst (span f r), snd (span f r) +:+ String c t).
Proof.
  intros Hc. rewrite span_app. simpl. rewrite Hc. simpl.
  destruct (span f r) as [a [|x b]]; simpl; [|done].
  by rewrite str_app_nil_r.
Qed.

Lemma span_all (f : ascii -> bool) (s : string) :
  string_forall f s = true → span f s = (s, EmptyString).
Proof.
  induction s as [|c s IH]; [done|]. simpl.
  intros [-> Hs]%andb_true_iff. by rewrite IH.
Qed.

Lemma span_all_stop (f : ascii -> bool) (s : string) (c : ascii) (t : string) :
  string_forall f s = true → f c = false →
  span f (s +:+ String c t) = (s, String c t).
Proof.
  intros Hs Hc. rewrite span_app_stop by done. by rewrite span_all.
Qed.

(** A literal that does not contain the first character of [t]
    cannot straddle the border between [r] and [t]. *)
Lemma after_literal_app_other (p r : string) (c : ascii) (t : string) :
  occurs c p = false →
  after_literal p (r +:+ String c t)
  = option_map (fun x => x +:+ String c t) (after_literal p r).
Proof.
  unfold after_literal. revert r.
  induction p as [|x p IH]; intros r Hp.
  - done.
  - simpl in Hp. apply orb_false_iff in Hp as [Hx Hp].
    destruct r as [|y r].
    + rewrite str_app_nil_l. simpl. by rewrite Hx.
    + rewrite str_app_cons. simpl. specialize (IH r Hp).
      destruct (Ascii.eqb x y); simpl; [|done]. exact IH.
Qed.

Lemma space_not_id_char (w : ascii) :
  is_space w = true →
  is_id_char w = false ∧ Ascii.eqb "*" w = false ∧ Ascii.eqb "-" w = false.
Proof.
  destruct w as [[] [] [] [] [] [] [] []]; intros H;
    first [discriminate H | by vm_compute].
Qed.

(** *** Searches *)

Lemma contains_false_inv (needle : string) (c : ascii) (s : string) :
  contains needle (String c s) = false →
  startswith needle (String c s) = false ∧ contains needle s = false.
Proof. simpl. by intros [? ?]%orb_false_iff. Qed.

Lemma contains_false_startswith (needle s : string) :
  contains needle s = false → startswith needle s = false.
Proof. destruct s; simpl; by intros [? ?]%orb_false_iff. Qed.

Lemma lazy_until_eq (needle s : string) :
  lazy_until needle s
  = match after_literal needle s with
    | Some r => Some (EmptyString, r)
    | None =>
        match s with
        | EmptyString => None
        | String c s' =>
            match lazy_until needle s' with
            | Some (g, r) => Some (String c g, r)
            | None => None
            end
        end
    end.
Proof. by destruct s. Qed.

Lemma lazy_until_sound (needle s g r : string) :
  lazy_until needle s = Some (g, r) → s = g +:+ needle +:+ r.
Proof.
  revert g. induction s as [|c s IH]; intros g; rewrite lazy_until_eq.
  - destruct (after_literal needle EmptyString) eqn:Ha; [|done].
    intros [= <- <-]. rewrite str_app_nil_l. by apply after_literal_inv.
  - destruct (after_literal needle (String c s)) eqn:Ha.
    + intros [= <- <-]. rewrite str_app_nil_l. by apply after_literal_inv.
    + destruct (lazy_until needle s) as [[g' r']|]; [|done].
      intros [= <- <-]. rewrite str_app_cons. f_equal. by apply IH.
Qed.

Lemma lazy_until_complete (needle a b : string) :
  is_Some (lazy_until needle (a +:+ needle +:+ b)).
Proof.
  induction a as [|c a IH]; rewrite lazy_until_eq.
  - by rewrite str_app_nil_l, after_literal_app.
  - rewrite str_app_cons.
    destruct (after_literal needle (String c (a +:+ needle +:+ b))); [done|].
    destruct IH as [[g r] ->]. done.
Qed.

Lemma search_frontmatter_eq (content : string) :
  search_frontmatter content
  = match
      match after_literal ("---" +:+ nl) content with
      | Some r => lazy_until (nl +:+ "---") r
      | None => None
      end
    with
    | Some (g, _) => Some g
    | None =>
        match content with
        | EmptyString => None
        | String _ content' => search_frontmatter content'
        end
    end.
Proof. by destruct content. Qed.

Lemma search_frontmatter_sound (content fm : string) :
  search_frontmatter content = Some fm →
  ∃ a b, content = a +:+ ("---" +:+ nl) +:+ fm +:+ (nl +:+ "---") +:+ b.
Proof.
  induction content as [|c content IH]; rewrite search_frontmatter_eq.
  - destruct (after_literal ("---" +:+ nl) EmptyString) eqn:Ha; [|done].
    by apply after_literal_inv in Ha.
  - destruct (after_literal ("---" +:+ nl) (String c content)) as [r|] eqn:Ha.
    + destruct (lazy_until (nl +:+ "---") r) as [[g rest]|] eqn:Hl.
      * intros [= <-]. exists EmptyString, rest.
        apply after_literal_inv in Ha. apply lazy_until_sound in Hl.
        by rewrite Ha, Hl.
      * intros (a & b & ->)%IH. by exists (String c a), b.
    + intros (a & b & ->)%IH. by exists (String c a), b.
Qed.

Lemma search_frontmatter_complete (a fm b : string) :
  is_Some (search_frontmatter
             (a +:+ ("---" +:+ nl) +:+ fm +:+ (nl +:+ "---") +:+ b)).
Proof.
  induction a as [|c a IH]; rewrite search_frontmatter_eq.
  - rewrite str_app_nil_l, after_literal_app.
    by destruct (lazy_until_complete (nl +:+ "---") fm b) as [[g r] ->].
  - rewrite str_app_cons.
    destruct (match after_literal _ _ with Some _ => _ | None => _ end)
      as [[g r]|]; [done|]. exact IH.
Qed.

Lemma search_field_eq (field text : string) :
  search_field field text
  = match
      match after_literal (field +:+ ":") text with
      | Some r => ws_then_line r
      | None => None
      end
    with
    | Some (g, _) => Some g
    | None =>
        match text with
        | EmptyString => None
        | String _ text' => search_field field text'
        end
    end.
Proof. by destruct text. Qed.

Lemma search_field_absent (field text : string) :
  contains (field +:+ ":") text = false → search_field field text = None.
Proof.
  induction text as [|c text IH]; intros H; rewrite search_field_eq;
    unfold after_literal; rewrite (contains_false_startswith _ _ H).
  - done.
  - apply IH. by apply contains_false_inv in H as [_ ?].
Qed.

Lemma lazy_until_step (needle : string) (c : ascii) (s : string) :
  startswith needle (String c s) = false →
  lazy_until needle (String c s)
  = option_map (fun m => (String c (fst m), snd m)) (lazy_until needle s).
Proof.
  intros H. rewrite lazy_until_eq. unfold after_literal. rewrite H.
  by destruct (lazy_until needle s) as [[g r]|].
Qed.

Lemma occurs_forall_not_newline (u : string) :
  string_forall not_newline u = true → occurs newline u = false.
Proof.
  induction u as [|c u IH]; [done|]. simpl.
  intros [Hc Hu]%andb_true_iff. rewrite (IH Hu).
  unfold not_newline in Hc. by destruct (Ascii.eqb c newline).
Qed.

(** A needle whose first character does not occur in [u] is not
    found before the end of [u]. *)
Lemma lazy_until_skip (n0 : ascii) (n' u t : string) :
  occurs n0 u = false →
  lazy_until (String n0 n') (u +:+ t)
  = option_map (fun m => (u +:+ fst m, snd m)) (lazy_until (String n0 n') t).
Proof.
  induction u as [|c u IH]; intros Hu.
  - rewrite str_app_nil_l. by destruct (lazy_until _ t) as [[g r]|].
  - simpl in Hu. apply orb_false_iff in Hu as [Hc Hu].
    rewrite str_app_cons, lazy_until_step.
    + rewrite (IH Hu). by destruct (lazy_until _ t) as [[g r]|].
    + simpl. by rewrite Ascii.eqb_sym, Hc.
Qed.

Lemma contains_cons_skip (needle : string) (c : ascii) (s : string) :
  startswith needle (String c s) = false →
  contains needle (String c s) = contains needle s.
Proof. intros H. simpl in *. by rewrite H. Qed.

(** A key without a line feed is not found in a line that does not
    contain it, nor across the end of that line. *)
Lemma search_field_skip_line (field u t : string) :
  occurs newline (field +:+ ":") = false →
  contains (field +:+ ":") u = false →
  search_field field (u +:+ String newline t) = search_field field t.
Proof.
  intros Hn. induction u as [|c u IH]; intros Hu.
  - rewrite str_app_nil_l, search_field_eq.
    assert (Ha : after_literal (field +:+ ":") (String newline t) = None).
    { unfold after_literal. destruct field as [|f field].
      - done.
      - rewrite str_app_cons in Hn |- *. simpl in Hn |- *.
        apply orb_false_iff in Hn as [-> _]. done. }
    by rewrite Ha.
  - rewrite str_app_cons, search_field_eq, <- str_app_cons.
    rewrite after_literal_app_other by done.
    unfold after_literal at 1.
    rewrite (contains_false_startswith _ _ Hu). cbn [option_map].
    apply IH. by apply contains_false_inv in Hu as [_ ?].
Qed.

Lemma string_forall_lstrip (f : ascii → bool) (x : string) :
  string_forall f x = true → string_forall f (lstrip x) = true.
Proof.
  induction x as [|c x IH]; [done|]. simpl.
  intros [Hc Hx]%andb_true_iff. destruct (is_space c); [auto|].
  simpl. by rewrite Hc, Hx.
Qed.

Lemma lstrip_idem (x : string) : lstrip (lstrip x) = lstrip x.
Proof.
  induction x as [|c x IH]; [done|]. simpl.
  destruct (is_space c) eqn:Hc; [done|]. simpl. by rewrite Hc.
Qed.

Lemma strip_lstrip (x : string) : strip (lstrip x) = strip x.
Proof. unfold strip. by rewrite lstrip_idem. Qed.

Lemma strip_nonempty_lstrip (x : string) :
  strip x ≠ EmptyString → lstrip x ≠ EmptyString.
Proof. unfold strip. intros H Hl. by rewrite Hl in H. Qed.

(** [\s*(.+)] on a line with a character that is not whitespace:
    the group is the line without its leading whitespace. *)
Lemma ws_then_line_line (x t : string) :
  string_forall not_newline x = true →
  lstrip x ≠ EmptyString →
  ws_then_line (x +:+ String newline t) = Some (lstrip x, String newline t).
Proof.
  induction x as [|c x IH]; [done|].
  intros Hx Hl. rewrite str_app_cons. cbn [ws_then_line lstrip] in *.
  destruct (is_space c) eqn:Hc.
  - simpl in Hx. apply andb_true_iff in Hx as [_ Hx]. by rewrite IH.
  - rewrite <- str_app_cons. rewrite span_all_stop; [done|done|].
    unfold not_newline. by rewrite Ascii.eqb_refl.
Qed.

(** *** Reading in text mode *)

Lemma no_line_end_inv (c : ascii) :
  no_line_end c = true →
  Ascii.eqb c (ascii_of_nat 13) = false ∧ Ascii.eqb c newline = false.
Proof.
  unfold no_line_end, carriage_return.
  intros [H1 H2]%andb_true_iff.
  by apply negb_true_iff in H1, H2.
Qed.

Lemma universal_cons (b : bool) (c : ascii) (s : string) :
  no_line_end c = true →
  DocSyncer.universal_newlines_from b (String c s)
  = String c (DocSyncer.universal_newlines_from false s).
Proof.
  intros [Hcr Hlf]%no_line_end_inv. cbn [DocSyncer.universal_newlines_from].
  by rewrite Hcr, Hlf.
Qed.

Lemma universal_newline (s : string) :
  DocSyncer.universal_newlines_from false (String newline s)
  = String newline (DocSyncer.universal_newlines_from false s).
Proof. reflexivity. Qed.

Lemma universal_app_plain (b : bool) (u t : string) :
  string_forall no_line_end u = true →
  u ≠ EmptyString ∨ b = false →
  DocSyncer.universal_newlines_from b (u +:+ t)
  = u +:+ DocSyncer.universal_newlines_from false t.
Proof.
  revert b. induction u as [|c u IH]; intros b Hu Hb.
  - destruct Hb as [Hb| ->]; [done|]. by rewrite !str_app_nil_l.
  - cbn [string_forall] in Hu. apply andb_true_iff in Hu as [Hc Hu].
    rewrite !str_app_cons, universal_cons by done.
    f_equal. apply IH; [done|by right].
Qed.

(** A line feed followed by a literal without line ends is still
    there after the translation, also when a carriage return came
    just before it. *)
Lemma universal_keeps_marker (m a t : string) :
  string_forall no_line_end m = true → m ≠ EmptyString →
  ∃ a' t',
    DocSyncer.universal_newlines_from false (a +:+ String newline (m +:+ t))
    = a' +:+ String newline (m +:+ t').
Proof.
  intros Hm Hne.
  assert (G : ∀ a b, ∃ a' t',
            (if b : bool
             then String newline
                    (DocSyncer.universal_newlines_from b
                       (a +:+ String newline (m +:+ t)))
             else DocSyncer.universal_newlines_from b
                    (a +:+ String newline (m +:+ t)))
            = a' +:+ String newline (m +:+ t')).
  { clear a. induction a as [|c a IH]; intros b.
    - rewrite str_app_nil_l.
      exists EmptyString, (DocSyncer.universal_newlines_from false t).
      rewrite str_app_nil_l.
      destruct b; cbn [DocSyncer.universal_newlines_from];
        change (Ascii.eqb newline (ascii_of_nat 13)) with false;
        change (Ascii.eqb newline newline) with true; cbn [andb];
        by rewrite universal_app_plain by (done || by left).
    - rewrite str_app_cons. cbn [DocSyncer.universal_newlines_from].
      destruct (Ascii.eqb c (ascii_of_nat 13)).
      + destruct (IH true) as (a' & t' & Heq). rewrite Heq.
        destruct b.
        * by exists (String newline a'), t'.
        * by exists a', t'.
      + destruct (IH false) as (a' & t' & Heq). rewrite Heq.
        destruct (Ascii.eqb c newline), b; cbn [andb].
        * by exists (String newline a'), t'.
        * by exists (String c a'), t'.
        * by exists (String newline (String c a')), t'.
        * by exists (String c a'), t'. }
  apply (G a false).
Qed.

(** A literal without line ends that occurs in a text occurs in the
    text as read. *)
Lemma universal_keeps_literal (lit s : string) (b : bool) :
  string_forall no_line_end lit = true →
  (∃ a t, s = a +:+ lit +:+ t) →
  ∃ a' t', DocSyncer.universal_newlines_from b s = a' +:+ lit +:+ t'.
Proof.
  intros Hlit (a & t & ->).
  destruct lit as [|l0 lit].
  { exists EmptyString. eexists. by rewrite !str_app_nil_l. }
  revert b. induction a as [|c a IH]; intros b.
  - exists EmptyString, (DocSyncer.universal_newlines_from false t).
    rewrite !str_app_nil_l. apply universal_app_plain; [done|by left].
  - rewrite str_app_cons. cbn [DocSyncer.universal_newlines_from].
    destruct (Ascii.eqb c (ascii_of_nat 13)).
    + destruct (IH true) as (a' & t' & ->). by exists (String newline a'), t'.
    + destruct (Ascii.eqb c newline && b).
      * destruct (IH false) as (a' & t' & ->). by exists a', t'.
      * destruct (IH false) as (a' & t' & ->). by exists (String c a'), t'.
Qed.

Lemma no_line_end_not_newline (s : string) :
  string_forall no_line_end s = true → string_forall not_newline s = true.
Proof.
  induction s as [|c s IH]; [done|]. cbn [string_forall].
  intros [Hc Hs]%andb_true_iff. rewrite IH by done.
  apply no_line_end_inv in Hc as [_ Hc]. unfold not_newline. by rewrite Hc.
Qed.

Lemma digits_no_line_end (s : string) :
  string_forall is_digit s = true → string_forall no_line_end s = true.
Proof.
  induction s as [|c s IH]; [done|]. cbn [string_forall].
  intros [Hc Hs]%andb_true_iff. rewrite IH by done.
  rewrite andb_true_r. unfold no_line_end, carriage_return.
  destruct (Ascii.eqb_spec c newline) as [->|_]; [by vm_compute in Hc|].
  destruct (Ascii.eqb_spec c (ascii_of_nat 13)) as [->|_];
    [by vm_compute in Hc|done].
Qed.

End TextFacts.

(** ** doc_syncer.py: the traceability computer *)

Module DocSyncerFacts.
Import Text TextFacts DocSyncer.

Lemma implemented_of_spec (requirements : list string)
    (references : gmap string (list CodeReference)) (x : string) :
  x ∈ implemented_of requirements references
  ↔ x ∈ requirements ∧ is_Some (references !! x).
Proof.
  unfold implemented_of.
  assert (G : ∀ acc : gset string,
    x ∈ foldl (fun acc req_id =>
                 if decide (is_Some (references !! req_id))
                 then acc ∪ {[req_id]} else acc) acc requirements
    ↔ x ∈ acc ∨ (x ∈ requirements ∧ is_Some (references !! x))).
  { induction requirements as [|r l IH]; intros acc; simpl.
    - set_solver.
    - rewrite IH. case_decide; set_solver. }
  rewrite G. set_solver.
Qed.

Lemma parse_requirements_prefix (content req : string) :
  req ∈ parse_requirements content → startswith "REQ-" req = true.
Proof.
  unfold parse_requirements. rewrite list_elem_of_filter. tauto.
Qed.

Lemma verify_sets (content : string) (d : CodeDir) :
  let report := verify content d in
  implemented_requirements report ∩ missing_requirements report = ∅
  ∧ implemented_requirements report ∪ missing_requirements report
    = list_to_set (parse_requirements content).
Proof.
  simpl. split; [set_solver|].
  apply set_eq. intros x.
  rewrite elem_of_union, elem_of_difference, implemented_of_spec,
    elem_of_list_to_set.
  destruct (decide (is_Some (find_spec_references d !! x))); tauto.
Qed.

(** C1. The implemented and the missing identifiers of a report
    computed by [verify] do not overlap, and together they are the
    set of the REQ-prefixed identifiers that [parse_requirements]
    extracts from the document text. *)
Theorem verify_partition (content : string) (d : CodeDir) :
  let report := verify content d in
  implemented_requirements report ∩ missing_requirements report = ∅
  ∧ implemented_requirements report ∪ missing_requirements report
    = list_to_set (parse_requirements content)
  ∧ Forall (fun req => startswith "REQ-" req = true)
           (parse_requirements content).
Proof.
  simpl. split; [|split].
  - set_solver.
  - apply set_eq. intros x.
    rewrite elem_of_union, elem_of_difference, implemented_of_spec,
      elem_of_list_to_set.
    destruct (decide (is_Some (find_spec_references d !! x))); tauto.
  - apply Forall_forall. intros x Hx.
    by apply parse_requirements_prefix with content.
Qed.

Lemma find_spec_references_no_source (d : CodeDir) :
  rglob_kt d = [] → find_spec_references d = ∅.
Proof. unfold find_spec_references. by intros ->. Qed.

Lemma zero_percent (n : nat) :
  (inject_Z (Z.of_nat 0) / inject_Z (Z.of_nat n) * 100 == 0)%Q.
Proof. unfold Qeq, Qdiv, Qmult. simpl. lia. Qed.

Lemma impl_percentage_eq (report : SyncReport) :
  impl_percentage report
  = Some (if 0 <? total_requirements report
          then (inject_Z (Z.of_nat (size (implemented_requirements report)))
                / inject_Z (Z.of_nat (total_requirements report)) * 100)%Q
          else 0%Q).
Proof.
  unfold impl_percentage, truediv.
  destruct (total_requirements report) as [|n]; reflexivity.
Qed.

(** C7. For a document with at least one REQ-prefixed requirement
    identifier and a code directory without any source file, the
    report has no implemented identifier, every identifier of the
    document is missing, and the percentage is 0. *)
Theorem verify_empty_tree (content : string) (d : CodeDir) :
  parse_requirements content ≠ [] →
  rglob_kt d = [] →
  let report := verify content d in
  implemented_requirements report = ∅
  ∧ missing_requirements report = list_to_set (parse_requirements content)
  ∧ ∃ q, impl_percentage report = Some q ∧ (q == 0)%Q.
Proof.
  intros Hreq Hno report.
  assert (Himpl : implemented_requirements report = ∅).
  { apply set_eq. intros x. subst report. cbn [verify implemented_requirements].
    rewrite implemented_of_spec, find_spec_references_no_source by done.
    rewrite lookup_empty. split; [|set_solver].
    intros [_ [v Hv]]. discriminate. }
  split; [done|]. split.
  - subst report. cbn [verify implemented_requirements missing_requirements] in *.
    rewrite Himpl. set_solver.
  - rewrite impl_percentage_eq, Himpl. eexists. split; [reflexivity|].
    destruct (0 <? total_requirements report); [|reflexivity].
    rewrite size_empty. apply zero_percent.
Qed.

Definition empty_tree : CodeDir :=
  {| dir_prefix := "generated/";
     entries := [ {| rel_path := "README.md"; file_lines := ["// REQ-001-U-01"] |} ] |}.

Lemma verify_empty_tree_witness :
  let report := verify Examples.small_doc empty_tree in
  implemented_requirements report = ∅
  ∧ missing_requirements report
    = list_to_set (parse_requirements Examples.small_doc)
  ∧ ∃ q, impl_percentage report = Some q ∧ (q == 0)%Q.
Proof.
  apply (verify_empty_tree Examples.small_doc empty_tree).
  - vm_compute. discriminate.
  - reflexivity.
Defined.

(** C8. The percentage is the number of implemented identifiers
    divided by the total and multiplied by 100 when the total is
    positive, and 0 when the total is 0; the division never raises. *)
Theorem impl_percentage_guarded (report : SyncReport) :
  impl_percentage report
  = Some (if 0 <? total_requirements report
          then (inject_Z (Z.of_nat (size (implemented_requirements report)))
                / inject_Z (Z.of_nat (total_requirements report)) * 100)%Q
          else 0%Q)
  ∧ is_Some (impl_percentage report).
Proof. rewrite impl_percentage_eq. split; [done|]. by eexists. Qed.

Lemma src_test_is_under_test (pre p : string) :
  startswith "src/test/" p = true → contains "/test/" (pre +:+ p) = true.
Proof.
  intros H. apply startswith_inv in H. rewrite H.
  change ("src/test/" +:+ drop (String.length "src/test/") p)
    with ("src" +:+ ("/test/" +:+ drop (String.length "src/test/") p)).
  rewrite <- (str_app_assoc pre "src"). apply contains_infix.
Qed.

(** C9. A path reported as a test file (below [src/test], name ending
    in [Test.kt]) is not reported as a production code file. *)
Theorem test_files_not_code_files (content : string) (d : CodeDir)
    (p : string) :
  p ∈ test_files (verify content d) →
  startswith "src/test/" p = true ∧ endswith "Test.kt" p = true
  ∧ p ∉ code_files (verify content d).
Proof.
  simpl. unfold find_test_files, rglob_tests.
  intros (f & -> & Hf)%list_elem_of_fmap.
  apply list_elem_of_filter in Hf as [[Hs He] _].
  split; [done|]. split; [done|].
  intros (g & Hg & Hin)%list_elem_of_fmap.
  apply list_elem_of_filter in Hin as [Hno _].
  unfold full_path in Hno. rewrite <- Hg in Hno.
  by rewrite (src_test_is_under_test _ _ Hs) in Hno.
Qed.

Definition mixed_tree : CodeDir :=
  {| dir_prefix := "generated/";
     entries :=
       [ {| rel_path := "src/main/Login.kt";
            file_lines := ["// REQ-001-U-01" +:+ nl] |};
         {| rel_path := "src/test/LoginTest.kt";
            file_lines := ["// REQ-001-E-01" +:+ nl] |} ] |}.

Lemma test_files_not_code_files_witness :
  startswith "src/test/" "src/test/LoginTest.kt" = true
  ∧ endswith "Test.kt" "src/test/LoginTest.kt" = true
  ∧ "src/test/LoginTest.kt" ∉ code_files (verify Examples.small_doc mixed_tree).
Proof.
  apply (test_files_not_code_files Examples.small_doc mixed_tree).
  vm_compute. apply list_elem_of_here.
Defined.

(** *** Repeated identifiers *)

Section FindallBoldId.

(** [t] begins the way a bolded-identifier line does: a dash and a
    whitespace character. *)
Variables (w : ascii) (t' : string).
Hypothesis Hw : is_space w = true.
Let t : string := String "-" (String w t').

(** An attempt that starts in [a] never reaches into [t]: it gives
    the same identifier with or without [t] after [a]. *)
Lemma match_bold_id_app (a : string) :
  a ≠ EmptyString →
  match_bold_id (a +:+ t)
  = option_map (fun m => (fst m, snd m +:+ t)) (match_bold_id a).
Proof.
  destruct (space_not_id_char w Hw) as (Hid & Hstar & Hdash).
  destruct a as [|b a]; [done|]. intros _.
  unfold match_bold_id. rewrite str_app_cons, !after_literal_char.
  destruct (Ascii.eqb "-" b); [|done].
  subst t. rewrite span_app_stop by done.
  destruct (span is_space a) as [[|x ws] r2]; [done|]. cbn [fst snd].
  rewrite after_literal_app_other by done.
  destruct (after_literal "**" r2) as [r3|]; [|done]. cbn [option_map].
  rewrite span_app.
  destruct (span is_id_char r3) as [i [|y r4]].
  - assert (Hs : span is_id_char (String "-" (String w t'))
                 = ("-", String w t')).
    { cbn [span]. by rewrite Hid. }
    rewrite Hs. cbn [fst snd].
    assert (Hn : ∀ u, after_literal "**:" (String w u) = None).
    { intros u. unfold after_literal. cbn [startswith]. by rewrite Hstar. }
    rewrite Hn. by destruct i.
  - destruct i as [|i0 i]; [done|].
    rewrite after_literal_app_other by done.
    by destruct (after_literal "**:" (String y r4)).
Qed.

Lemma findall_bold_id_app (a : string) (skip : nat) :
  skip ≤ String.length a →
  findall_from match_bold_id skip (a +:+ t)
  = findall_from match_bold_id skip a ++ findall match_bold_id t.
Proof.
  revert skip. induction a as [|b a IH]; intros skip Hskip.
  - simpl in Hskip. by replace skip with 0 by lia.
  - rewrite str_app_cons. destruct skip as [|k].
    + cbn [findall_from]. rewrite <- str_app_cons.
      rewrite match_bold_id_app by done.
      destruct (match_bold_id (String b a)) as [[g r]|]; simpl option_map.
      * cbn [fst snd]. rewrite !str_length_app.
        replace (String.length a + String.length t
                 - (String.length r + String.length t))
          with (String.length a - String.length r) by lia.
        rewrite IH by lia. done.
      * by rewrite IH by lia.
    + cbn [findall_from]. simpl in Hskip. apply IH. lia.
Qed.

End FindallBoldId.

Lemma findall_skip_exact {A} (m : string → option (A * string))
    (x s : string) :
  findall_from m (String.length x) (x +:+ s) = findall m s.
Proof. induction x as [|c x IH]; [done|]. rewrite str_app_cons. exact IH. Qed.

(** A bolded-identifier line as the pattern reads it. *)
Definition bolded (ws req_id : string) : string :=
  "-" +:+ ws +:+ "**" +:+ req_id +:+ "**:".

Lemma match_bold_id_here (ws req_id rest : string) :
  ws ≠ EmptyString → string_forall is_space ws = true →
  req_id ≠ EmptyString → string_forall is_id_char req_id = true →
  match_bold_id (bolded ws req_id +:+ rest) = Some (req_id, rest).
Proof.
  intros Hws1 Hws2 Hid1 Hid2. unfold match_bold_id, bolded.
  rewrite !str_app_assoc. rewrite after_literal_app.
  change ("**" +:+ req_id +:+ "**:" +:+ rest)
    with (String "*" ("*" +:+ req_id +:+ "**:" +:+ rest)).
  rewrite span_all_stop by done.
  destruct ws as [|x ws]; [done|].
  change (String "*" ("*" +:+ req_id +:+ "**:" +:+ rest))
    with ("**" +:+ req_id +:+ "**:" +:+ rest).
  rewrite after_literal_app.
  change ("**:" +:+ rest) with (String "*" ("*:" +:+ rest)).
  rewrite span_all_stop by done.
  destruct req_id as [|y req_id]; [done|].
  change (String "*" ("*:" +:+ rest)) with ("**:" +:+ rest).
  by rewrite after_literal_app.
Qed.

Lemma findall_bold_id_line (a ws req_id rest : string) :
  ws ≠ EmptyString → string_forall is_space ws = true →
  req_id ≠ EmptyString → string_forall is_id_char req_id = true →
  findall match_bold_id (a +:+ bolded ws req_id +:+ rest)
  = findall match_bold_id a ++ req_id :: findall match_bold_id rest.
Proof.
  intros Hws1 Hws2 Hid1 Hid2.
  assert (Hm := match_bold_id_here ws req_id rest Hws1 Hws2 Hid1 Hid2).
  destruct ws as [|w ws]; [done|].
  simpl in Hws2. apply andb_true_iff in Hws2 as [Hw Hws2].
  set (x := String w (ws +:+ "**" +:+ req_id +:+ "**:")).
  assert (Hshape : bolded (String w ws) req_id +:+ rest
                   = String "-" (x +:+ rest)).
  { unfold bolded, x. by norm_app. }
  rewrite Hshape in Hm |- *. unfold findall.
  assert (Hx : x +:+ rest
               = String w ((ws +:+ "**" +:+ req_id +:+ "**:") +:+ rest))
    by done.
  rewrite Hx at 1.
  rewrite (findall_bold_id_app w _ Hw a 0) by lia. rewrite <- Hx.
  f_equal. unfold findall. cbn [findall_from]. rewrite Hm. f_equal.
  rewrite str_length_app.
  replace (String.length x + String.length rest - String.length rest)
    with (String.length x) by lia.
  apply findall_skip_exact.
Qed.

Lemma parse_requirements_line (a ws req_id rest : string) :
  ws ≠ EmptyString → string_forall is_space ws = true →
  startswith "REQ-" req_id = true → string_forall is_id_char req_id = true →
  parse_requirements (a +:+ bolded ws req_id +:+ rest)
  = parse_requirements a ++ req_id :: parse_requirements rest.
Proof.
  intros Hws1 Hws2 Hreq Hid. unfold parse_requirements.
  rewrite findall_bold_id_line by (try done; by destruct req_id).
  by rewrite filter_app, filter_cons_True.
Qed.

Lemma size_list_to_set_le (l : list string) :
  size (list_to_set l : gset string) ≤ length l.
Proof.
  induction l as [|x l IH].
  - rewrite list_to_set_nil, size_empty. done.
  - rewrite list_to_set_cons, size_union_alt, size_singleton. cbn [length].
    assert (size (list_to_set l ∖ {[x]} : gset string)
            ≤ size (list_to_set l : gset string))
      by (apply subseteq_size; set_solver).
    lia.
Qed.

Lemma size_list_to_set_repeated (x : string) (l1 l2 l3 : list string) :
  size (list_to_set (l1 ++ x :: l2 ++ x :: l3) : gset string)
  < length (l1 ++ x :: l2 ++ x :: l3).
Proof.
  assert (Heq : (list_to_set (l1 ++ x :: l2 ++ x :: l3) : gset string)
                = list_to_set (l1 ++ l2 ++ x :: l3)).
  { apply set_eq. intros y. rewrite !elem_of_list_to_set.
    rewrite !elem_of_app, !elem_of_cons, !elem_of_app, !elem_of_cons. tauto. }
  rewrite Heq.
  pose proof (size_list_to_set_le (l1 ++ l2 ++ x :: l3)) as Hle.
  rewrite !List.length_app in *. cbn [length] in *.
  rewrite !List.length_app in *. cbn [length] in *. lia.
Qed.

Lemma percentage_below_100 (a b : nat) :
  a < b →
  (inject_Z (Z.of_nat a) / inject_Z (Z.of_nat b) * 100 < 100)%Q.
Proof.
  intros Hab. destruct b as [|n]; [lia|].
  unfold Qlt, Qdiv, Qmult, Qinv. simpl. lia.
Qed.

(** C10. When the same REQ-prefixed identifier stands in two
    bolded-identifier lines of the document, [parse_requirements]
    returns it once for each line and the total counts both, while
    the implemented and the missing identifiers are sets: the total
    exceeds the sum of their sizes and the percentage is below 100
    whatever the code directory contains. *)
Theorem repeated_identifier_counts_twice
    (a b c ws1 ws2 req_id : string) (d : CodeDir) :
  startswith "REQ-" req_id = true →
  string_forall is_id_char req_id = true →
  ws1 ≠ EmptyString → string_forall is_space ws1 = true →
  ws2 ≠ EmptyString → string_forall is_space ws2 = true →
  let content :=
    a +:+ bolded ws1 req_id +:+ b +:+ bolded ws2 req_id +:+ c in
  let report := verify content d in
  parse_requirements content
  = parse_requirements a ++ req_id :: parse_requirements b
      ++ req_id :: parse_requirements c
  ∧ total_requirements report = length (parse_requirements content)
  ∧ size (implemented_requirements report)
    + size (missing_requirements report) < total_requirements report
  ∧ ∃ q, impl_percentage report = Some q ∧ (q < 100)%Q.
Proof.
  intros Hreq Hid Hw1 Hw1' Hw2 Hw2' content report.
  assert (Hparse : parse_requirements content
                   = parse_requirements a ++ req_id :: parse_requirements b
                       ++ req_id :: parse_requirements c).
  { subst content. by rewrite !parse_requirements_line. }
  destruct (verify_sets content d) as (Hdisj & Hunion).
  fold report in Hdisj, Hunion.
  assert (Hsum : size (implemented_requirements report)
                 + size (missing_requirements report)
                 < total_requirements report).
  { rewrite <- size_union by set_solver. rewrite Hunion.
    subst report. cbn [verify total_requirements]. rewrite Hparse.
    apply size_list_to_set_repeated. }
  split; [done|]. split; [done|]. split; [done|].
  rewrite impl_percentage_eq. eexists. split; [reflexivity|].
  destruct (0 <? total_requirements report) eqn:Hpos.
  - apply percentage_below_100. lia.
  - reflexivity.
Qed.

Lemma repeated_identifier_counts_twice_witness :
  let content :=
    EmptyString +:+ bolded " " "REQ-001-U-01" +:+ " first" +:+ nl
      +:+ bolded " " "REQ-001-U-01" +:+ " second" +:+ nl in
  let report := verify content mixed_tree in
  parse_requirements content
  = parse_requirements EmptyString
      ++ "REQ-001-U-01" :: parse_requirements (" first" +:+ nl)
      ++ "REQ-001-U-01" :: parse_requirements (" second" +:+ nl)
  ∧ total_requirements report = length (parse_requirements content)
  ∧ size (implemented_requirements report)
    + size (missing_requirements report) < total_requirements report
  ∧ ∃ q, impl_percentage report = Some q ∧ (q < 100)%Q.
Proof.
  apply (repeated_identifier_counts_twice
           EmptyString (" first" +:+ nl) (" second" +:+ nl)
           " " " " "REQ-001-U-01" mixed_tree);
    first [reflexivity | discriminate].
Defined.

(** *** The matrix patch on small documents *)

(** A document without the matrix heading. *)
Definition plain_doc : string :=
  Examples.lines ["# Login"; EmptyString; "Notes"; EmptyString; "The end"].

(** A document with the heading, the header rows and one table row. *)
Definition anchored_doc : string :=
  Examples.lines
    ["- **REQ-001-U-01**: The system shall log in"; EmptyString;
     "## 7. Traceability Matrix"; EmptyString;
     "| Requirement | Code File | Test File | Status |";
     "|-------------|-----------|-----------|--------|";
     "| REQ-001-U-01 | [TBD] | [TBD] | Pending |"; EmptyString;
     "**Legend**"].

Definition implemented_row : string :=
  "| REQ-001-U-01 | src/main/Login.kt | " +:+ placeholder_dash +:+ " | "
    +:+ status_implemented +:+ " |".

(** [anchored_doc] with the rows of its table replaced by the row of
    its one requirement: the document the description of the patch
    step asks for. *)
Definition anchored_doc_rows_replaced : string :=
  Examples.lines
    ["- **REQ-001-U-01**: The system shall log in"; EmptyString;
     "## 7. Traceability Matrix"; EmptyString;
     "| Requirement | Code File | Test File | Status |";
     "|-------------|-----------|-----------|--------|";
     implemented_row; EmptyString;
     "**Legend**"].

(** C4, on two documents.  [plain_doc] has no matrix heading, yet the
    file is rewritten: the paragraph between the first line and the
    next blank line is replaced by a heading and an empty table.  In
    [anchored_doc] the blank line and the heading are replaced by a
    whole table, the header row stays, and the separator row with the
    old table row is replaced by a second whole table; the result is
    not the document with only the rows replaced. *)
Theorem matrix_patch_rewrites_other_text :
  contains "## 7. Traceability Matrix" plain_doc = false
  ∧ update_traceability_matrix plain_doc mixed_tree
      (verify plain_doc mixed_tree)
    = Written
        ("# Login" +:+ table_header +:+ table_separator +:+ nl +:+ nl
           +:+ "The end" +:+ nl)
  ∧ update_traceability_matrix anchored_doc mixed_tree
      (verify anchored_doc mixed_tree)
    = Written
        ("- **REQ-001-U-01**: The system shall log in"
           +:+ table_header +:+ table_separator +:+ implemented_row
           +:+ nl +:+ nl
           +:+ "| Requirement | Code File | Test File | Status |"
           +:+ table_header +:+ table_separator +:+ implemented_row
           +:+ nl +:+ nl
           +:+ "**Legend**" +:+ nl)
  ∧ update_traceability_matrix anchored_doc mixed_tree
      (verify anchored_doc mixed_tree)
    ≠ Written anchored_doc_rows_replaced.
Proof.
  split; [by vm_compute|]. split; [by vm_compute|]. split; [by vm_compute|].
  vm_compute. discriminate.
Qed.

(** A path with a backslash, as [str] renders a nested path where
    the separator is a backslash. *)
Definition backslash_tree : CodeDir :=
  {| dir_prefix := "generated" +:+ String backslash EmptyString;
     entries :=
       [ {| rel_path := "src" +:+ String backslash "main"
                        +:+ String backslash "Login.kt";
            file_lines := ["// REQ-001-U-01" +:+ nl] |} ] |}.

(** The replacement text is read as a template: the [\m] of such a
    path is a bad escape, and [re.sub] raises. *)
Example matrix_patch_backslash_path :
  update_traceability_matrix anchored_doc backslash_tree
    (verify anchored_doc backslash_tree) = Raised.
Proof. by vm_compute. Qed.

End DocSyncerFacts.

(** ** spec_builder.py: the capability matcher *)

Module SpecBuilderFacts.
Import Text TextFacts SpecBuilder.

(** The catalog in iteration order, each tag with its score. *)
Definition scored_catalog (self : AndroidSkillMatcher) (text : string)
    : list (string * nat) :=
  map (fun entry => (fst entry, keyword_score text (keywords (snd entry))))
      (matcher_SKILLS self).

Definition scores_desc (p q : string * nat) : Prop := snd q ≤ snd p.

Lemma keyword_score_count (text : string) (kws : list string) :
  keyword_score text kws
  = length (filter (fun kw => contains kw text = true) kws).
Proof.
  unfold keyword_score.
  assert (G : ∀ n, foldl (fun score keyword =>
                            if contains keyword text then score + 1 else score)
                         n kws
                   = n + length (filter (fun kw => contains kw text = true) kws)).
  { induction kws as [|k kws IH]; intros n; simpl; [lia|].
    rewrite IH. destruct (contains k text) eqn:Hk.
    - rewrite filter_cons_True by done. simpl. lia.
    - rewrite filter_cons_False by (by rewrite Hk). lia. }
  apply G.
Qed.

Lemma matched_entries_filter (self : AndroidSkillMatcher) (text : string) :
  matched_entries (matcher_SKILLS self) text
  = filter (fun p => 0 < snd p) (scored_catalog self text).
Proof.
  unfold matched_entries, scored_catalog.
  generalize (matcher_SKILLS self). intros skills.
  assert (G : ∀ acc,
    foldl (fun matched entry =>
             let score := keyword_score text (keywords (snd entry)) in
             if 0 <? score then matched ++ [(fst entry, score)] else matched)
          acc skills
    = acc ++ filter (fun p => 0 < snd p)
               (map (fun entry =>
                       (fst entry, keyword_score text (keywords (snd entry))))
                    skills)).
  { induction skills as [|e skills IH]; intros acc; simpl.
    - by rewrite app_nil_r.
    - rewrite IH.
      destruct (0 <? keyword_score text (keywords (snd e))) eqn:Hs.
      + apply Nat.ltb_lt in Hs. rewrite filter_cons_True by done.
        by rewrite <- app_assoc.
      + apply Nat.ltb_ge in Hs. rewrite filter_cons_False by (simpl; lia).
        done. }
  apply G.
Qed.

(** *** The sort *)

Lemma insert_by_score_perm (x : string * nat) (l : list (string * nat)) :
  insert_by_score x l ≡ₚ x :: l.
Proof.
  induction l as [|y l IH]; simpl; [done|].
  destruct (snd y <=? snd x); [done|]. rewrite IH. apply Permutation_swap.
Qed.

Lemma sort_by_score_perm (l : list (string * nat)) : sort_by_score l ≡ₚ l.
Proof.
  induction l as [|x l IH]; simpl; [done|].
  by rewrite insert_by_score_perm, IH.
Qed.





(** *** The two appending loops *)

Lemma filter_ext_in {A} (P Q : A → Prop)
    `{!∀ x, Decision (P x), !∀ x, Decision (Q x)} (l : list A) :
  (∀ x, x ∈ l → (P x ↔ Q x)) → filter P l = filter Q l.
Proof.
  induction l as [|x l IH]; intros Hext; [done|].
  assert (Hx : P x ↔ Q x) by (apply Hext; left).
  assert (Hl : filter P l = filter Q l).
  { apply IH. intros y Hy. apply Hext. by right. }
  destruct (decide (P x)) as [HP|HP].
  - rewrite !filter_cons_True by tauto. by rewrite Hl.
  - rewrite !filter_cons_False by tauto. done.
Qed.

Lemma foldl_append_if_absent (l acc : list string) :
  NoDup l →
  foldl append_if_absent acc l = acc ++ filter (fun x => x ∉ acc) l.
Proof.
  intros Hl. revert acc.
  induction Hl as [|x l Hx Hl IH]; intros acc; simpl.
  - by rewrite app_nil_r.
  - unfold append_if_absent at 2. destruct (decide (x ∈ acc)) as [Hin|Hin].
    + rewrite IH. by rewrite filter_cons_False by (intros H; by apply H).
    + rewrite IH, filter_cons_True by done. rewrite <- app_assoc. simpl.
      do 2 f_equal. apply filter_ext_in. intros y Hy.
      rewrite elem_of_app, list_elem_of_singleton.
      split; [tauto|]. intros Hn [?| ->]; [tauto|]. done.
Qed.

Lemma filter_not_in_nil (l : list string) :
  filter (fun x => x ∉ []) l = l.
Proof.
  induction l as [|x l IH]; [done|].
  rewrite filter_cons_True by apply not_elem_of_nil. by rewrite IH.
Qed.

Lemma NoDup_map_fst_filter {A B} (P : A * B → Prop)
    `{!∀ x, Decision (P x)} (l : list (A * B)) :
  NoDup (map fst l) → NoDup (map fst (filter P l)).
Proof.
  induction l as [|x l IH]; [done|]. simpl.
  intros [Hx Hl]%NoDup_cons. destruct (decide (P x)).
  - rewrite filter_cons_True by done. simpl. apply NoDup_cons. split; [|auto].
    intros Hin. apply Hx.
    apply list_elem_of_In, in_map_iff in Hin as (y & Hy1 & Hy2).
    apply list_elem_of_In, in_map_iff. exists y. split; [done|].
    apply list_elem_of_In. apply list_elem_of_In in Hy2.
    by apply list_elem_of_filter in Hy2 as [_ ?].
  - rewrite filter_cons_False by done. auto.
Qed.

Lemma scored_catalog_names (self : AndroidSkillMatcher) (text : string) :
  map fst (scored_catalog self text) = map fst (matcher_SKILLS self).
Proof.
  unfold scored_catalog. rewrite map_map. done.
Qed.


(** The three conditions on the ranked list leave one list only. *)
Lemma ranking_unique (l1 l2 : list (string * nat)) :
  StronglySorted scores_desc l1 → StronglySorted scores_desc l2 →
  (∀ k, filter (fun p => snd p = k) l1 = filter (fun p => snd p = k) l2) →
  l1 = l2.
Proof.
  intros H1. revert l2.
  induction H1 as [|x l1 Hs1 IH Hx]; intros l2 H2 Hf.
  - destruct l2 as [|y l2]; [done|].
    specialize (Hf (snd y)). by rewrite filter_cons_True in Hf by done.
  - destruct H2 as [|y l2 Hs2 Hy].
    { specialize (Hf (snd x)). by rewrite filter_cons_True in Hf by done. }
    assert (Hxy : snd y ≤ snd x).
    { pose proof (Hf (snd y)) as Hk.
      rewrite (filter_cons_True _ y) in Hk by done.
      assert (Hin : y ∈ filter (fun p => snd p = snd y) (x :: l1))
        by (rewrite Hk; left).
      apply list_elem_of_filter in Hin as [_ Hin].
      apply elem_of_cons in Hin as [->|Hin]; [done|].
      rewrite Forall_forall in Hx. by apply Hx. }
    assert (Hyx : snd x ≤ snd y).
    { pose proof (Hf (snd x)) as Hk.
      rewrite (filter_cons_True _ x) in Hk by done.
      assert (Hin : x ∈ filter (fun p => snd p = snd x) (y :: l2))
        by (rewrite <- Hk; left).
      apply list_elem_of_filter in Hin as [_ Hin].
      apply elem_of_cons in Hin as [->|Hin]; [done|].
      rewrite Forall_forall in Hy. by apply Hy. }
    assert (Heq : x = y).
    { pose proof (Hf (snd x)) as Hk.
      rewrite (filter_cons_True _ x), (filter_cons_True _ y) in Hk by lia.
      by injection Hk. }
    subst y. f_equal. apply IH; [done|]. intros k.
    specialize (Hf k). destruct (decide (snd x = k)).
    + rewrite !(filter_cons_True _ x) in Hf by done. by injection Hf.
    + by rewrite !(filter_cons_False _ x) in Hf by done.
Qed.


Example match_skills_forms :
  match_skills skill_matcher "user login form with validation" []
  = ["android-forms-validation"; "android-logging-timber";
     "android-clean-architecture"; "android-mvvm-architecture";
     "android-compose-ui"].
Proof. by vm_compute. Qed.

(** *** The call on the store of objects *)

Import SpecBuilderStore.

Lemma bind_eq {A B} (m : Stmt A) (k : A → Stmt B) (store store' : Store)
    (a : A) :
  m store = Some (a, store') → bind m k store = k a store'.
Proof. intros H. unfold bind. by rewrite H. Qed.

(** The first loop fills the list of scored names. *)
Lemma for_each_scored (text : string) (l : positive)
    (skills : list (string * Skill)) (acc : list (string * nat))
    (store : Store) :
  for_each skills (fun entry =>
    let score := keyword_score text (keywords (snd entry)) in
    if 0 <? score then append_scored l (fst entry, score) else ret tt)
    (<[l := Scored acc]> store)
  = Some (tt, <[l := Scored
                 (foldl (fun matched entry =>
                    let score := keyword_score text (keywords (snd entry)) in
                    if 0 <? score then matched ++ [(fst entry, score)]
                    else matched) acc skills)]> store).
Proof.
  revert acc. induction skills as [|e skills IH]; intros acc; [done|].
  cbn [for_each foldl]. cbv zeta.
  destruct (0 <? keyword_score text (keywords (snd e))).
  - unfold bind at 1. unfold append_scored at 1.
    rewrite lookup_insert_eq, insert_insert_eq. apply IH.
  - unfold bind at 1. cbn [ret]. apply IH.
Qed.

Lemma for_each_matched (text : string) (l : positive)
    (skills : list (string * Skill)) (store : Store) :
  for_each skills (fun entry =>
    if 0 <? keyword_score text (keywords (snd entry))
    then append_scored l
           (fst entry, keyword_score text (keywords (snd entry)))
    else ret tt)
    (<[l := Scored []]> store)
  = Some (tt, <[l := Scored (matched_entries skills text)]> store).
Proof. exact (for_each_scored text l skills [] store). Qed.

(** The two other loops add the names that are not there yet. *)
Lemma for_each_append {A} (name : A → string) (l : positive)
    (items : list A) (acc : list string) (store : Store) :
  for_each items (fun x => append_if_not_in l (name x))
    (<[l := Strings acc]> store)
  = Some (tt, <[l := Strings (foldl append_if_absent acc (map name items))]>
                store).
Proof.
  revert acc. induction items as [|x items IH]; intros acc; [done|].
  cbn [for_each foldl map].
  unfold bind at 1. unfold append_if_not_in at 1.
  unfold bind at 1, read_strings at 1. rewrite lookup_insert_eq.
  unfold append_if_absent at 2.
  destruct (decide (name x ∈ acc)).
  - cbn [ret]. apply IH.
  - unfold append_string at 1. rewrite lookup_insert_eq, insert_insert_eq.
    apply IH.
Qed.

Lemma new_fresh (store : Store) (o : Object) :
  store !! fresh (dom store) = None
  ∧ store ⊆ <[fresh (dom store) := o]> store.
Proof.
  assert (H : store !! fresh (dom store) = None)
    by apply not_elem_of_dom, is_fresh.
  split; [done|]. by apply insert_subseteq.
Qed.

Lemma new_eq (o : Object) (store : Store) :
  new o store = Some (fresh (dom store), <[fresh (dom store) := o]> store).
Proof. reflexivity. Qed.

(** What one call does: it returns a new list that holds the names
    [match_skills] computes, and every object the store held before
    is as it was. *)
Lemma call_match_skills_spec (store : Store) (self requirements : positive)
    (feature_description : string) (catalog : list (string * Skill))
    (reqs : list string) :
  store !! self = Some (Catalog catalog) →
  store !! requirements = Some (Strings reqs) →
  ∃ result store',
    call_match_skills self feature_description requirements store
    = Some (result, store')
    ∧ store !! result = None
    ∧ store' !! result
      = Some (Strings (match_skills {| matcher_SKILLS := catalog |}
                         feature_description reqs))
    ∧ store ⊆ store'.
Proof.
  intros Hself Hreqs. unfold call_match_skills.
  unfold bind at 1. unfold read_strings at 1. rewrite Hreqs.
  set (text := lower _).
  unfold bind at 1. rewrite new_eq.
  destruct (new_fresh store (Scored [])) as [Hm Hsub1].
  set (lm := fresh (dom store)) in *.
  assert (Hne : lm ≠ self) by (intros ->; congruence).
  unfold bind at 1. unfold read_catalog at 1.
  rewrite lookup_insert_ne, Hself by done.
  unfold bind at 1. rewrite for_each_matched.
  unfold bind at 1. unfold sort_scored at 1.
  rewrite lookup_insert_eq, insert_insert_eq.
  set (matched := sort_by_score (matched_entries catalog text)).
  set (s1 := <[lm := Scored matched]> store).
  assert (Hsub1' : store ⊆ s1) by (by apply insert_subseteq).
  unfold bind at 1. rewrite new_eq.
  destruct (new_fresh s1 (Strings core_skills)) as [Hc Hsub2].
  set (lc := fresh (dom s1)) in *.
  set (s2 := <[lc := Strings core_skills]> s1) in *.
  unfold bind at 1. rewrite new_eq.
  destruct (new_fresh s2 (Strings [])) as [Hr Hsub3].
  set (lr := fresh (dom s2)) in *.
  assert (Hlm : s2 !! lm = Some (Scored matched)).
  { apply (lookup_weaken s1); [|done]. apply lookup_insert_eq. }
  assert (Hlc : s2 !! lc = Some (Strings core_skills))
    by apply lookup_insert_eq.
  assert (Hrm : lr ≠ lm) by (intros Heq; rewrite Heq in Hr; congruence).
  assert (Hrc : lr ≠ lc) by (intros Heq; rewrite Heq in Hr; congruence).
  unfold bind at 1. unfold read_scored at 1.
  rewrite lookup_insert_ne, Hlm by done.
  unfold bind at 1. rewrite (for_each_append fst).
  unfold bind at 1. unfold read_strings at 1.
  rewrite lookup_insert_ne, Hlc by done.
  unfold bind at 1. rewrite (for_each_append id), map_id.
  unfold bind at 1. unfold read_strings at 1. rewrite lookup_insert_eq.
  rewrite new_eq.
  set (items := foldl append_if_absent _ core_skills).
  set (s3 := <[lr := Strings items]> s2).
  assert (Hsub3' : s2 ⊆ s3) by (by apply insert_subseteq).
  destruct (new_fresh s3 (Strings (firstn 10 items))) as [Hres Hsub4].
  set (lres := fresh (dom s3)) in *.
  eexists _, _. split; [reflexivity|]. split; [|split].
  - eapply lookup_weaken_None; [exact Hres|].
    by repeat (etrans; [|done || eassumption]).
  - by rewrite lookup_insert_eq.
  - repeat (etrans; [eassumption|]). done.
Qed.

(** C6. Two calls of [match_skills] with the same arguments, one
    after the other on the same matcher, return the same ordered
    list.  The calls run on the store of objects: the first leaves
    the catalog and the caller's requirement list as they were, so
    the second reads what the first read; each returns a list object
    of its own, and both hold the names [match_skills] computes, in
    the same order.  The second call does not touch the list the
    first one returned. *)
Theorem match_skills_deterministic (store : Store)
    (self requirements : positive) (feature_description : string)
    (catalog : list (string * Skill)) (reqs : list string) :
  store !! self = Some (Catalog catalog) →
  store !! requirements = Some (Strings reqs) →
  ∃ first store1 second store2 names,
    call_match_skills self feature_description requirements store
    = Some (first, store1)
    ∧ call_match_skills self feature_description requirements store1
      = Some (second, store2)
    ∧ store1 !! first = Some (Strings names)
    ∧ store2 !! second = Some (Strings names)
    ∧ store2 !! first = Some (Strings names)
    ∧ first ≠ second
    ∧ store2 !! self = Some (Catalog catalog)
    ∧ store2 !! requirements = Some (Strings reqs)
    ∧ names = match_skills {| matcher_SKILLS := catalog |}
                feature_description reqs.
Proof.
  intros Hself Hreqs.
  destruct (call_match_skills_spec store self requirements
              feature_description catalog reqs Hself Hreqs)
    as (first & store1 & Hrun1 & Hnew1 & Hres1 & Hsub1).
  assert (Hself1 : store1 !! self = Some (Catalog catalog))
    by (by apply (lookup_weaken store)).
  assert (Hreqs1 : store1 !! requirements = Some (Strings reqs))
    by (by apply (lookup_weaken store)).
  destruct (call_match_skills_spec store1 self requirements
              feature_description catalog reqs Hself1 Hreqs1)
    as (second & store2 & Hrun2 & Hnew2 & Hres2 & Hsub2).
  exists first, store1, second, store2,
    (match_skills {| matcher_SKILLS := catalog |} feature_description reqs).
  split; [exact Hrun1|]. split; [exact Hrun2|].
  split; [exact Hres1|]. split; [exact Hres2|].
  split; [by apply (lookup_weaken store1)|].
  split; [intros ->; congruence|].
  split; [by apply (lookup_weaken store1)|].
  split; [by apply (lookup_weaken store1)|done].
Qed.

(** A store with the catalog of the class and one list of
    requirements. *)
Definition sample_store : Store :=
  <[1%positive := Catalog SKILLS]>
    (<[2%positive := Strings ["form validation"]]> ∅).

Lemma match_skills_deterministic_witness :
  ∃ first store1 second store2 names,
    call_match_skills 1 "User Login" 2 sample_store = Some (first, store1)
    ∧ call_match_skills 1 "User Login" 2 store1 = Some (second, store2)
    ∧ store1 !! first = Some (Strings names)
    ∧ store2 !! second = Some (Strings names)
    ∧ store2 !! first = Some (Strings names)
    ∧ first ≠ second
    ∧ store2 !! 1%positive = Some (Catalog SKILLS)
    ∧ store2 !! 2%positive = Some (Strings ["form validation"])
    ∧ names = match_skills {| matcher_SKILLS := SKILLS |}
                "User Login" ["form validation"].
Proof.
  apply (match_skills_deterministic sample_store 1 2 "User Login" SKILLS
           ["form validation"]); reflexivity.
Defined.

(** The two calls on the sample store: the lists returned are the
    objects 6 and 10, with the same names. *)
Example two_calls :
  ∃ store1 store2,
    call_match_skills 1 "User Login" 2 sample_store
    = Some (6%positive, store1)
    ∧ call_match_skills 1 "User Login" 2 store1 = Some (10%positive, store2)
    ∧ store2 !! 6%positive = store2 !! 10%positive.
Proof. eexists _, _. split; [by vm_compute|]. split; by vm_compute. Qed.
End SpecBuilderFacts.

(** ** code_builder.py: the specification parser *)

Module CodeBuilderFacts.
Import Text TextFacts CodeBuilder.

(** A header block: the text between [---] with its line feed and
    the next line feed followed by [---]. *)
Definition has_header_block (content : string) : Prop :=
  ∃ a fm b, content = a +:+ ("---" +:+ nl) +:+ fm +:+ (nl +:+ "---") +:+ b.

Lemma extract_field_absent (fm field default : string) :
  contains (field +:+ ":") fm = false → extract_field fm field default = default.
Proof. intros H. unfold extract_field. by rewrite search_field_absent. Qed.

(** A header with neither of the two keys. *)
Definition header_without_keys : string :=
  Examples.lines ["---"; "status: reviewed"; "---"; EmptyString;
                  "# Untitled"].

(** C3, refuted as stated: the header block below has neither a
    [spec_id] nor a [feature] key, and [parse] returns a document,
    with both fields empty. *)
Lemma parse_accepts_header_without_keys :
  search_frontmatter header_without_keys = Some "status: reviewed"
  ∧ contains "spec_id:" "status: reviewed" = false
  ∧ contains "feature:" "status: reviewed" = false
  ∧ parse header_without_keys
    = inr {| spec_id := EmptyString; feature := EmptyString;
             status := "reviewed"; version := "1.0.0";
             author := "Unknown"; date := EmptyString;
             related_skills := []; requirements := [];
             purpose := EmptyString |}.
Proof. by vm_compute. Qed.

(** C3, amended.  [parse] fails exactly when the text has no header
    block.  With a header block it returns a document whether or not
    the two keys are there: a header without the [spec_id] key gives
    an empty spec identifier, one without the [feature] key an empty
    feature name. *)
Theorem parse_fails_only_without_header (content : string) :
  (parse content = inl NoFrontmatter ↔ ¬ has_header_block content)
  ∧ (has_header_block content →
     ∃ fm doc,
       search_frontmatter content = Some fm
       ∧ parse content = inr doc
       ∧ (contains "spec_id:" fm = false → spec_id doc = EmptyString)
       ∧ (contains "feature:" fm = false → feature doc = EmptyString)).
Proof.
  assert (Hsome : has_header_block content →
                  is_Some (search_frontmatter content)).
  { intros (a & fm & b & ->). apply search_frontmatter_complete. }
  split; [split|].
  - unfold parse. destruct (search_frontmatter content) eqn:Hs; [done|].
    intros _ Hh. destruct (Hsome Hh) as [? ?]. done.
  - intros Hno. unfold parse.
    destruct (search_frontmatter content) as [fm|] eqn:Hs; [|done].
    destruct Hno. apply search_frontmatter_sound in Hs as (a & b & ->).
    by exists a, fm, b.
  - intros [fm Hs]%Hsome. unfold parse. rewrite Hs.
    eexists fm, _. split; [done|]. split; [reflexivity|].
    cbn [spec_id feature].
    split; [apply (extract_field_absent fm "spec_id")
           |apply (extract_field_absent fm "feature")].
Qed.

Lemma parse_fails_only_without_header_witness :
  ∃ fm doc,
    search_frontmatter header_without_keys = Some fm
    ∧ parse header_without_keys = inr doc
    ∧ (contains "spec_id:" fm = false → spec_id doc = EmptyString)
    ∧ (contains "feature:" fm = false → feature doc = EmptyString).
Proof.
  apply (parse_fails_only_without_header header_without_keys).
  exists EmptyString, "status: reviewed", (nl +:+ nl +:+ "# Untitled" +:+ nl).
  reflexivity.
Defined.

(** *** Creation followed by parsing *)

Import SpecBuilder.

(** C2, refuted as stated: for the inputs below the parsed spec
    identifier carries the [SPEC-] prefix that [create_spec] writes
    before the input, and the parsed requirement list is empty
    although one requirement was given.  The document is read back
    the way the parsers read it, in text mode. *)
Lemma create_then_parse_differs :
  ∃ doc,
    parse (DocSyncer.universal_newlines
             (create_spec skill_matcher "001" "Login" "Sign users in"
                ["log the user in"]
                (match_skills skill_matcher "Login" ["log the user in"])
                "Claude Code" "2025-01-01"))
    = inr doc
    ∧ CodeBuilder.spec_id doc = "SPEC-001"
    ∧ CodeBuilder.spec_id doc ≠ "001"
    ∧ CodeBuilder.feature doc = "Login"
    ∧ CodeBuilder.requirements doc = []
    ∧ DocSyncer.parse_requirements
        (DocSyncer.universal_newlines
           (create_spec skill_matcher "001" "Login" "Sign users in"
              ["log the user in"]
              (match_skills skill_matcher "Login" ["log the user in"])
              "Claude Code" "2025-01-01"))
      = ["REQ-001-U-01"].
Proof. eexists. split; [by vm_compute|]. by vm_compute. Qed.

(** An empty feature name: the value read for the key is the next
    line of the header. *)
Example create_then_parse_empty_feature :
  ∃ doc,
    parse (create_spec skill_matcher "001" EmptyString "Sign users in"
             ["log the user in"] [] "Claude Code" "2025-01-01")
    = inr doc
    ∧ CodeBuilder.feature doc = "status: draft".
Proof. eexists. split; by vm_compute. Qed.

(** A carriage return in the feature name: the file is read in text
    mode, the carriage return comes back as a line feed and the value
    read for the key stops there. *)
Example create_then_parse_carriage_return :
  ∃ doc,
    parse (DocSyncer.universal_newlines
             (create_spec skill_matcher "001"
                ("User" +:+ String carriage_return "Login") "Sign users in"
                ["log the user in"] [] "Claude Code" "2025-01-01"))
    = inr doc
    ∧ CodeBuilder.feature doc = "User".
Proof. eexists. split; by vm_compute. Qed.

(** The header lines after the feature name, up to the closing
    marker, without their first letter. *)
Definition header_rest (author today : string)
    (matched_skills : list string) : string :=
  "tatus: draft
version: 1.0.0
author: " +:+ author +:+ "
date: " +:+ today +:+ "
related_skills:
" +:+ String.concat EmptyString
      (map (fun skill => "  - " +:+ skill +:+ nl) matched_skills)
+:+ "traceability:
  requirements: []
  code_files: []
  test_files: []".

Lemma frontmatter_text_shape (spec_id feature_name author today : string)
    (matched_skills : list string) (rest : string) :
  frontmatter_text spec_id feature_name author today matched_skills +:+ rest
  = ("---" +:+ nl)
      +:+ ("spec_id: SPEC-" +:+ spec_id)
      +:+ String newline
            (("feature: " +:+ feature_name)
             +:+ String newline
                   (("s" +:+ header_rest author today matched_skills)
                    +:+ (nl +:+ "---") +:+ (nl +:+ nl +:+ rest))).
Proof.
  unfold frontmatter_text, header_rest, nl. norm_app. reflexivity.
Qed.

Section CreatedHeader.
Variables (sid fname g : string).
Hypothesis Hsid : string_forall not_newline sid = true.
Hypothesis Hkey : contains "feature:" sid = false.
Hypothesis Hfname : string_forall not_newline fname = true.
Hypothesis Hname : strip fname ≠ EmptyString.

(** The header as [parse] finds it: the two first lines as they
    were written, then whatever follows up to the closing marker. *)
Let fm : string :=
  ("spec_id: SPEC-" +:+ sid)
    +:+ String newline (("feature: " +:+ fname) +:+ String newline g).

Lemma created_spec_id :
  extract_field fm "spec_id" EmptyString = strip ("SPEC-" +:+ sid).
Proof.
  unfold extract_field, fm. rewrite search_field_eq.
  change ("spec_id: SPEC-" +:+ sid) with ("spec_id:" +:+ (" SPEC-" +:+ sid)).
  rewrite str_app_assoc, after_literal_app.
  rewrite ws_then_line_line.
  - by rewrite strip_lstrip.
  - by rewrite string_forall_app, Hsid.
  - done.
Qed.

Lemma created_feature :
  extract_field fm "feature" EmptyString = strip fname.
Proof.
  unfold extract_field, fm.
  rewrite search_field_skip_line; [|done|].
  - rewrite search_field_eq.
    change ("feature: " +:+ fname) with ("feature:" +:+ (" " +:+ fname)).
    rewrite str_app_assoc, after_literal_app.
    rewrite ws_then_line_line.
    + by rewrite strip_lstrip.
    + by rewrite string_forall_app, Hfname.
    + by apply strip_nonempty_lstrip.
  - change ("spec_id: SPEC-" +:+ sid)
      with (String "s" (String "p" (String "e" (String "c" (String "_"
           (String "i" (String "d" (String ":" (String " " (String "S"
           (String "P" (String "E" (String "C" (String "-" sid)))))))))))))).
    by rewrite !contains_cons_skip by done.
Qed.
End CreatedHeader.

(** The created document as a reader gets it: the two first lines of
    the header as they were written, then some text up to a closing
    marker. *)
Lemma created_header_read (self : AndroidSkillMatcher)
    (spec_id feature_name purpose : string)
    (requirements matched_skills : list string) (author today : string) :
  string_forall no_line_end spec_id = true →
  string_forall no_line_end feature_name = true →
  ∃ g t,
    DocSyncer.universal_newlines
      (create_spec self spec_id feature_name purpose requirements
         matched_skills author today)
    = ("---" +:+ nl)
        +:+ ("spec_id: SPEC-" +:+ spec_id)
        +:+ String newline
              (("feature: " +:+ feature_name)
               +:+ String newline
                     (String "s" (g +:+ (nl +:+ "---") +:+ t))).
Proof.
  intros Hsid Hfname.
  unfold create_spec, generate_spec_content.
  rewrite frontmatter_text_shape.
  set (tail := nl +:+ nl +:+ _).
  set (hr := header_rest author today matched_skills).
  unfold DocSyncer.universal_newlines.
  change (("---" +:+ nl) +:+ ?x) with ("---" +:+ String newline x).
  rewrite (universal_app_plain false "---") by (done || by right).
  rewrite universal_newline.
  rewrite universal_app_plain
    by (by rewrite ?string_forall_app, ?Hsid || by right).
  rewrite universal_newline.
  rewrite universal_app_plain
    by (by rewrite ?string_forall_app, ?Hfname || by right).
  rewrite universal_newline.
  change ((nl +:+ "---") +:+ tail) with (String newline ("---" +:+ tail)).
  change ("s" +:+ hr) with (String "s" hr).
  rewrite (str_app_cons "s" hr).
  rewrite (universal_cons false "s") by done.
  destruct (universal_keeps_marker "---" hr tail) as (g & t & ->);
    [done..|].
  exists g, t. reflexivity.
Qed.

(** The header block found in the created document as read. *)
Lemma created_frontmatter_read (self : AndroidSkillMatcher)
    (spec_id feature_name purpose : string)
    (requirements matched_skills : list string) (author today : string) :
  string_forall no_line_end spec_id = true →
  string_forall no_line_end feature_name = true →
  ∃ g,
    search_frontmatter
      (DocSyncer.universal_newlines
         (create_spec self spec_id feature_name purpose requirements
            matched_skills author today))
    = Some (("spec_id: SPEC-" +:+ spec_id)
              +:+ String newline
                    (("feature: " +:+ feature_name) +:+ String newline g)).
Proof.
  intros Hsid Hfname.
  destruct (created_header_read self spec_id feature_name purpose
              requirements matched_skills author today Hsid Hfname)
    as (g0 & t & ->).
  apply no_line_end_not_newline in Hsid, Hfname.
  rewrite search_frontmatter_eq, after_literal_app.
  assert (Hl1 : occurs newline ("spec_id: SPEC-" +:+ spec_id) = false).
  { apply occurs_forall_not_newline. by rewrite string_forall_app, Hsid. }
  assert (Hl2 : occurs newline ("feature: " +:+ feature_name) = false).
  { apply occurs_forall_not_newline. by rewrite string_forall_app, Hfname. }
  change (nl +:+ "---") with (String newline "---").
  rewrite (lazy_until_skip newline "---" _ _ Hl1).
  rewrite lazy_until_step by done.
  rewrite (lazy_until_skip newline "---" _ _ Hl2).
  rewrite lazy_until_step by done.
  destruct (lazy_until_complete (String newline "---") (String "s" g0) t)
    as [[g r] Hg].
  rewrite <- str_app_cons.
  rewrite Hg. cbn [option_map fst snd]. by exists g.
Qed.

(** C2, amended.  For a spec identifier and a feature name without
    line feed, carriage return or white space beyond ASCII, where the
    identifier does not contain the text [feature:] and the name has
    a character that is not whitespace, the document written by
    [create_spec] and read back in text mode parses, the parsed spec
    identifier is [SPEC-] followed by the input identifier and the
    parsed feature name is the input name, both without surrounding
    whitespace. *)
Theorem create_then_parse_header (self : AndroidSkillMatcher)
    (spec_id feature_name purpose : string)
    (requirements matched_skills : list string) (author today : string) :
  string_forall no_line_end spec_id = true →
  no_unicode_space spec_id = true →
  contains "feature:" spec_id = false →
  string_forall no_line_end feature_name = true →
  no_unicode_space feature_name = true →
  strip feature_name ≠ EmptyString →
  ∃ doc,
    parse (DocSyncer.universal_newlines
             (create_spec self spec_id feature_name purpose requirements
                matched_skills author today)) = inr doc
    ∧ CodeBuilder.spec_id doc = strip ("SPEC-" +:+ spec_id)
    ∧ CodeBuilder.feature doc = strip feature_name.
Proof.
  intros Hsid _ Hkey Hfname _ Hname.
  destruct (created_frontmatter_read self spec_id feature_name purpose
              requirements matched_skills author today Hsid Hfname)
    as [g Hfm].
  apply no_line_end_not_newline in Hsid, Hfname.
  unfold parse. rewrite Hfm.
  eexists. split; [reflexivity|]. cbn [CodeBuilder.spec_id CodeBuilder.feature].
  split; [by apply created_spec_id | by apply created_feature].
Qed.

Lemma create_then_parse_header_witness :
  ∃ doc,
    parse (DocSyncer.universal_newlines
             (create_spec skill_matcher "001" "Login" "Sign users in"
                ["log the user in"] ["android-compose-ui"]
                "Claude Code" "2025-01-01")) = inr doc
    ∧ CodeBuilder.spec_id doc = strip ("SPEC-" +:+ "001")
    ∧ CodeBuilder.feature doc = strip "Login".
Proof.
  apply (create_then_parse_header skill_matcher "001" "Login"
           "Sign users in" ["log the user in"] ["android-compose-ui"]
           "Claude Code" "2025-01-01");
    first [reflexivity | discriminate].
Defined.

End CodeBuilderFacts.

(** ** doc_syncer.py: the annotation scanner *)

Module ScannerFacts.
Import Text TextFacts DocSyncer DocSyncerFacts.

(** The references of the whole tree in scan order: file by file, line
    by line, match by match. *)
Definition all_references (d : CodeDir) : list CodeReference :=
  concat (map file_references (rglob_kt d)).

Lemma foldl_add_reference_lookup (l : list CodeReference)
    (acc : gmap string (list CodeReference)) (k : string) :
  foldl add_reference acc l !! k
  = match acc !! k, filter (fun r => requirement_id r = k) l with
    | Some v, extra => Some (v ++ extra)
    | None, [] => None
    | None, extra => Some extra
    end.
Proof.
  revert acc. induction l as [|r l IH]; intros acc.
  - simpl. destruct (acc !! k); [by rewrite app_nil_r|done].
  - cbn [foldl]. rewrite IH. unfold add_reference.
    destruct (decide (requirement_id r = k)) as [Hk|Hk].
    + rewrite Hk, lookup_insert_eq, filter_cons_True by done.
      destruct (acc !! k) as [v|]; simpl.
      * by rewrite <- app_assoc.
      * done.
    + rewrite lookup_insert_ne, filter_cons_False by done. done.
Qed.

Lemma references_lookup (d : CodeDir) (k : string)
    (refs : list CodeReference) :
  find_spec_references d !! k = Some refs
  ↔ refs ≠ []
    ∧ refs = filter (fun r => requirement_id r = k) (all_references d).
Proof.
  unfold find_spec_references. fold (all_references d).
  rewrite foldl_add_reference_lookup, lookup_empty.
  destruct (filter _ (all_references d)) as [|r l] eqn:Hf.
  - split; [done|]. intros [Hne ->]. done.
  - split.
    + intros [= <-]. done.
    + intros [_ ->]. done.
Qed.

(** X1. The reference map groups the scan results by identifier: the
    list stored under a key is never empty and is the sub-list of all
    references with that identifier, in scan order; an identifier that
    no annotation names is not a key. *)
Theorem references_grouped (d : CodeDir) (k : string)
    (refs : list CodeReference) :
  find_spec_references d !! k = Some refs
  ↔ refs ≠ []
    ∧ refs = filter (fun r => requirement_id r = k) (all_references d).
Proof. apply references_lookup. Qed.

(** *** What a reference holds *)

Lemma findall_from_sound {A} (m : string → option (A * string))
    (skip : nat) (s : string) (g : A) :
  g ∈ findall_from m skip s →
  ∃ a s' rest, s = a +:+ s' ∧ m s' = Some (g, rest).
Proof.
  revert skip. induction s as [|c s IH]; intros skip; cbn [findall_from].
  - by intros ?%elem_of_nil.
  - assert (Htail : ∀ k, g ∈ findall_from m k s →
              ∃ a s' rest, String c s = a +:+ s' ∧ m s' = Some (g, rest)).
    { intros k (a & s' & rest & -> & Hm)%IH.
      exists (String c a), s', rest. by rewrite str_app_cons. }
    destruct skip as [|k]; [|apply Htail].
    destruct (m (String c s)) as [[g' rest]|] eqn:Hm; [|apply Htail].
    intros [->|Hin]%elem_of_cons; [|by eapply Htail].
    by exists EmptyString, (String c s), rest.
Qed.

Lemma span_forall (f : ascii → bool) (s : string) :
  string_forall f (fst (span f s)) = true.
Proof.
  induction s as [|c s IH]; [done|]. simpl.
  destruct (f c) eqn:Hc; [|done].
  destruct (span f s) as [a b]. simpl in *. by rewrite Hc, IH.
Qed.

Lemma span_app_eq (f : ascii → bool) (s : string) :
  s = fst (span f s) +:+ snd (span f s).
Proof.
  induction s as [|c s IH]; [done|]. simpl.
  destruct (f c); [|done]. destruct (span f s) as [a b]. simpl in *.
  by rewrite str_app_cons, <- IH.
Qed.

(** The shape of an annotation identifier: [SPEC] or [REQ], a dash,
    and a run of characters of the class that is not empty. *)
Definition annotation_id (x : string) : Prop :=
  ∃ run, (x = "SPEC-" +:+ run ∨ x = "REQ-" +:+ run)
         ∧ run ≠ EmptyString ∧ string_forall is_id_char run = true.

Lemma match_annotation_shape (s g rest : string) :
  match_annotation s = Some (g, rest) → annotation_id g.
Proof.
  unfold match_annotation.
  destruct (after_literal "//" s) as [r1|]; [|done].
  set (r2 := snd (span is_space r1)).
  assert (G : ∀ k r3,
    match after_literal "-" r3 with
    | Some r4 =>
        match span is_id_char r4 with
        | (EmptyString, _) => None
        | (String a s0 as run, r5) => Some (k +:+ "-" +:+ run, r5)
        end
    | None => None
    end = Some (g, rest) →
    ∃ run, g = k +:+ "-" +:+ run ∧ run ≠ EmptyString
           ∧ string_forall is_id_char run = true).
  { intros k r3. destruct (after_literal "-" r3) as [r4|]; [|done].
    pose proof (span_forall is_id_char r4) as Hrun.
    destruct (span is_id_char r4) as [[|a run] r5]; [done|].
    intros [= <- <-]. by exists (String a run). }
  destruct (after_literal "SPEC" r2) as [r3|].
  - intros (run & -> & ? & ?)%G. exists run. split; [by left|done].
  - destruct (after_literal "REQ" r2) as [r3|]; [|done].
    intros (run & -> & ? & ?)%G. exists run. split; [by right|done].
Qed.

Lemma elem_of_concat {A} (x : A) (ls : list (list A)) :
  x ∈ concat ls → ∃ l, x ∈ l ∧ l ∈ ls.
Proof.
  intros (l & Hl & Hx)%list_elem_of_In%in_concat.
  exists l. by rewrite !list_elem_of_In.
Qed.

Lemma elem_of_enumerate_from {A} (k n : nat) (x : A) (l : list A) :
  (n, x) ∈ enumerate_from k l → k ≤ n ∧ l !! (n - k) = Some x.
Proof.
  revert k. induction l as [|y l IH]; intros k; simpl.
  - by intros ?%elem_of_nil.
  - intros [[= -> ->]|Hin]%elem_of_cons.
    + split; [lia|]. by rewrite Nat.sub_diag.
    + apply IH in Hin as [Hle Hl]. split; [lia|].
      replace (n - k) with (S (n - S k)) by lia. done.
Qed.

(** X2. Every reference the scanner records points into a [*.kt] file
    of the tree: its path is that file's relative path, its line number
    counts from 1 and names a line of the file on which the annotation
    pattern matches the identifier, and the identifier is [SPEC-] or
    [REQ-] followed by one or more characters of [A-Z], [0-9], [-]. *)
Theorem references_point_to_lines (d : CodeDir) (r : CodeReference) :
  r ∈ all_references d →
  ∃ f line,
    f ∈ entries d
    ∧ endswith ".kt" (rel_path f) = true
    ∧ file_path r = rel_path f
    ∧ 1 ≤ line_number r ≤ length (file_lines f)
    ∧ file_lines f !! (line_number r - 1) = Some line
    ∧ requirement_id r ∈ findall match_annotation line
    ∧ annotation_id (requirement_id r).
Proof.
  unfold all_references.
  intros (refs & Hr & Hrefs)%elem_of_concat.
  apply list_elem_of_fmap in Hrefs as (f & -> & Hf).
  apply list_elem_of_filter in Hf as [Hkt Hf].
  unfold file_references in Hr.
  apply elem_of_concat in Hr as (lrefs & Hr & Hl).
  apply list_elem_of_fmap in Hl as ([n line] & -> & Hnl).
  apply elem_of_enumerate_from in Hnl as [Hn Hline].
  unfold line_references in Hr. cbn [fst snd] in Hr.
  apply list_elem_of_fmap in Hr as (g & -> & Hg).
  exists f, line. cbn [file_path line_number requirement_id].
  pose proof (lookup_lt_Some _ _ _ Hline) as Hlt.
  repeat split; try done; try lia.
  apply findall_from_sound in Hg as (a & s' & rest & _ & Hm).
  by eapply match_annotation_shape.
Qed.

Definition annotated_tree : CodeDir :=
  {| dir_prefix := "generated/";
     entries :=
       [ {| rel_path := "src/main/Login.kt";
            file_lines := ["package app" +:+ nl;
                           "// REQ-001-U-01: log in" +:+ nl] |} ] |}.

Lemma references_point_to_lines_witness :
  ∃ f line,
    f ∈ entries annotated_tree
    ∧ endswith ".kt" (rel_path f) = true
    ∧ "src/main/Login.kt" = rel_path f
    ∧ 1 ≤ 2 ≤ length (file_lines f)
    ∧ file_lines f !! (2 - 1) = Some line
    ∧ "REQ-001-U-01" ∈ findall match_annotation line
    ∧ annotation_id "REQ-001-U-01".
Proof.
  apply (references_point_to_lines annotated_tree
           {| file_path := "src/main/Login.kt"; line_number := 2;
              requirement_id := "REQ-001-U-01" |}).
  vm_compute. apply list_elem_of_here.
Defined.

(** X3. A requirement counts as implemented exactly when the document
    lists it and some line of some [*.kt] file of the tree, test files
    included, carries its annotation. *)
Theorem implemented_iff_annotated (content : string) (d : CodeDir)
    (req : string) :
  req ∈ implemented_requirements (verify content d)
  ↔ req ∈ parse_requirements content
    ∧ ∃ r, r ∈ all_references d ∧ requirement_id r = req.
Proof.
  cbn [verify implemented_requirements]. rewrite implemented_of_spec.
  split; intros [Hreq Hann]; (split; [done|]).
  - destruct Hann as [refs Hrefs].
    apply references_lookup in Hrefs as [Hne ->].
    destruct (filter _ (all_references d)) as [|r l] eqn:Hf; [done|].
    assert (Hr : r ∈ filter (fun r => requirement_id r = req)
                   (all_references d)) by (rewrite Hf; left).
    apply list_elem_of_filter in Hr as [? ?]. by exists r.
  - destruct Hann as (r & Hr & Hid).
    exists (filter (fun r => requirement_id r = req) (all_references d)).
    apply references_lookup. split; [|done].
    intros Hnil.
    assert (Hin : r ∈ filter (fun r => requirement_id r = req)
                    (all_references d)) by (by apply list_elem_of_filter).
    rewrite Hnil in Hin. by apply elem_of_nil in Hin.
Qed.

End ScannerFacts.

(** ** doc_syncer.py: report figures and exit status *)

Module ReportFacts.
Import Text TextFacts DocSyncer DocSyncerFacts ScannerFacts.

Lemma percentage_in_range (a b : nat) :
  a ≤ b → 0 < b →
  (0 <= inject_Z (Z.of_nat a) / inject_Z (Z.of_nat b) * 100)%Q
  ∧ (inject_Z (Z.of_nat a) / inject_Z (Z.of_nat b) * 100 <= 100)%Q.
Proof.
  intros Hab Hb. destruct b as [|n]; [lia|].
  unfold Qle, Qdiv, Qmult, Qinv. simpl. lia.
Qed.

Lemma implemented_size_le (content : string) (d : CodeDir) :
  size (implemented_requirements (verify content d))
  ≤ total_requirements (verify content d).
Proof.
  cbn [verify implemented_requirements total_requirements].
  etrans; [|apply size_list_to_set_le].
  apply subseteq_size. intros x Hx.
  apply implemented_of_spec in Hx as [Hx _]. by apply elem_of_list_to_set.
Qed.

(** X4. For every document and code directory the percentage that
    [verify] reports lies between 0 and 100, and the number of
    implemented identifiers does not exceed the total. *)
Theorem verify_percentage_in_range (content : string) (d : CodeDir) :
  size (implemented_requirements (verify content d))
  ≤ total_requirements (verify content d)
  ∧ ∃ q, impl_percentage (verify content d) = Some q
         ∧ (0 <= q)%Q ∧ (q <= 100)%Q.
Proof.
  pose proof (implemented_size_le content d) as Hle.
  split; [done|]. rewrite impl_percentage_eq. eexists. split; [reflexivity|].
  destruct (0 <? total_requirements (verify content d)) eqn:Hpos.
  - apply Nat.ltb_lt in Hpos. by apply percentage_in_range.
  - done.
Qed.



End ReportFacts.

(** ** doc_syncer.py: the rows of the matrix and the patch step *)

Module MatrixFacts.
Import Text TextFacts DocSyncer DocSyncerFacts ScannerFacts.

(** *** [sorted] *)

Lemma insert_sorted_perm (x : string) (l : list string) :
  insert_sorted x l ≡ₚ x :: l.
Proof.
  induction l as [|y l IH]; simpl; [done|].
  destruct (String.leb x y); [done|]. rewrite IH. apply Permutation_swap.
Qed.

Lemma sorted_perm (l : list string) : sorted l ≡ₚ l.
Proof.
  induction l as [|x l IH]; simpl; [done|].
  by rewrite insert_sorted_perm, IH.
Qed.

Lemma insert_sorted_sorted (x : string) (l : list string) :
  StronglySorted String.le l → StronglySorted String.le (insert_sorted x l).
Proof.
  induction 1 as [|y l Hl IH Hy]; simpl.
  - repeat constructor.
  - destruct (String.leb x y) eqn:Hxy.
    + assert (Hle : String.le x y) by (unfold String.le; by rewrite Hxy).
      constructor; [by constructor|]. constructor; [done|].
      eapply Forall_impl; [exact Hy|]. intros z Hz. by etrans.
    + assert (Hle : String.le y x).
      { destruct (total String.le x y) as [H|H]; [|done].
        unfold String.le in H. by rewrite Hxy in H. }
      constructor; [done|]. rewrite insert_sorted_perm. by constructor.
Qed.

Lemma sorted_sorted (l : list string) : StronglySorted String.le (sorted l).
Proof.
  induction l as [|x l IH]; simpl; [constructor|].
  by apply insert_sorted_sorted.
Qed.

(** X6. The new table has one row for each identifier of the report,
    implemented or missing, no identifier twice, in ascending
    lexicographic order of the identifiers. *)
Theorem new_rows_sorted (report : SyncReport)
    (references : gmap string (list CodeReference)) :
  ∃ ids,
    new_rows report references = map (matrix_row report references) ids
    ∧ (∀ x, x ∈ ids ↔ x ∈ implemented_requirements report
                      ∨ x ∈ missing_requirements report)
    ∧ NoDup ids
    ∧ StronglySorted String.le ids
    ∧ length (new_rows report references)
      = size (implemented_requirements report ∪ missing_requirements report).
Proof.
  set (u := implemented_requirements report ∪ missing_requirements report).
  exists (sorted (elements u)). unfold new_rows. fold u.
  split; [done|]. split.
  { intros x. rewrite sorted_perm, elem_of_elements. subst u. set_solver. }
  split; [rewrite sorted_perm; apply NoDup_elements|].
  split; [apply sorted_sorted|].
  rewrite length_map, sorted_perm. done.
Qed.

(** *** The row of an implemented requirement *)

Lemma first_reference (d : CodeDir) (req : string) :
  is_Some (find_spec_references d !! req) →
  ∃ ref rest,
    filter (fun r => requirement_id r = req) (all_references d) = ref :: rest
    ∧ default [] (find_spec_references d !! req) = ref :: rest.
Proof.
  intros [refs Hrefs]. rewrite Hrefs.
  apply references_lookup in Hrefs as [Hne ->].
  destruct (filter _ (all_references d)) as [|ref rest]; [done|].
  by exists ref, rest.
Qed.

(** X7. In the table built from a report of [verify] and the
    references of the same tree, the row of an implemented requirement
    carries the path of the first reference to it in scan order, the
    dash in the test-file column and the implemented marker. *)
Theorem implemented_row_first_file (content : string) (d : CodeDir)
    (req : string) :
  req ∈ implemented_requirements (verify content d) →
  ∃ ref rest,
    filter (fun r => requirement_id r = req) (all_references d) = ref :: rest
    ∧ matrix_row (verify content d) (find_spec_references d) req
      = "| " +:+ req +:+ " | " +:+ file_path ref +:+ " | "
          +:+ placeholder_dash +:+ " | " +:+ status_implemented +:+ " |".
Proof.
  intros Himpl. unfold matrix_row.
  destruct (decide (req ∈ implemented_requirements (verify content d)));
    [|done].
  cbn [verify implemented_requirements] in Himpl.
  apply implemented_of_spec in Himpl as [_ Hsome].
  destruct (first_reference d req Hsome) as (ref & rest & Hf & ->).
  by exists ref, rest.
Qed.

Lemma implemented_row_first_file_witness :
  ∃ ref rest,
    filter (fun r => requirement_id r = "REQ-001-U-01")
           (all_references mixed_tree) = ref :: rest
    ∧ matrix_row (verify anchored_doc mixed_tree)
        (find_spec_references mixed_tree) "REQ-001-U-01"
      = "| " +:+ "REQ-001-U-01" +:+ " | " +:+ file_path ref +:+ " | "
          +:+ placeholder_dash +:+ " | " +:+ status_implemented +:+ " |".
Proof.
  apply (implemented_row_first_file anchored_doc mixed_tree "REQ-001-U-01").
  apply (bool_decide_unpack _). vm_compute. exact I.
Defined.

(** *** When the patch step raises *)

Lemma occurs_app (c : ascii) (a b : string) :
  occurs c (a +:+ b) = occurs c a || occurs c b.
Proof.
  induction a as [|x a IH]; [done|].
  rewrite str_app_cons. simpl. by rewrite IH, orb_assoc.
Qed.

Lemma id_char_not_backslash (c : ascii) :
  is_id_char c = true → Ascii.eqb c backslash = false.
Proof.
  destruct c as [[] [] [] [] [] [] [] []]; intros H;
    first [discriminate H | by vm_compute].
Qed.

Lemma id_chars_no_backslash (x : string) :
  string_forall is_id_char x = true → occurs backslash x = false.
Proof.
  induction x as [|c x IH]; [done|]. simpl.
  intros [Hc Hx]%andb_true_iff.
  by rewrite (id_char_not_backslash c Hc), IH.
Qed.

Lemma match_bold_id_shape (s req_id rest : string) :
  match_bold_id s = Some (req_id, rest) →
  req_id ≠ EmptyString ∧ string_forall is_id_char req_id = true.
Proof.
  unfold match_bold_id.
  destruct (after_literal "-" s) as [r1|]; [|done].
  destruct (span is_space r1) as [[|w ws] r2]; [done|].
  destruct (after_literal "**" r2) as [r3|]; [|done].
  pose proof (span_forall is_id_char r3) as Hrun.
  destruct (span is_id_char r3) as [[|a run] r4]; [done|].
  destruct (after_literal "**:" r4); [|done].
  intros [= <- <-]. done.
Qed.

Lemma parse_requirements_id_chars (content req : string) :
  req ∈ parse_requirements content →
  req ≠ EmptyString ∧ string_forall is_id_char req = true.
Proof.
  unfold parse_requirements. intros [_ Hin]%list_elem_of_filter.
  apply findall_from_sound in Hin as (a & s' & rest & _ & Hm).
  by eapply match_bold_id_shape.
Qed.

Lemma reference_file (d : CodeDir) (r : CodeReference) :
  r ∈ all_references d → ∃ f, f ∈ rglob_kt d ∧ file_path r = rel_path f.
Proof.
  unfold all_references.
  intros (refs & Hr & Hrefs)%elem_of_concat.
  apply list_elem_of_fmap in Hrefs as (f & -> & Hf).
  exists f. split; [done|].
  unfold file_references in Hr.
  apply elem_of_concat in Hr as (lrefs & Hr & Hl).
  apply list_elem_of_fmap in Hl as ([n line] & -> & _).
  unfold line_references in Hr.
  by apply list_elem_of_fmap in Hr as (g & -> & _).
Qed.

Lemma parse_template_literal (s : string) :
  occurs backslash s = false → is_Some (parse_template_from 0 s).
Proof.
  induction s as [|c s IH]; [done|]. simpl.
  intros [Hc Hs]%orb_false_iff. rewrite Hc.
  destruct (IH Hs) as [ps ->]. done.
Qed.

Lemma occurs_join (c : ascii) (sep : string) (l : list string) :
  occurs c sep = false → Forall (fun x => occurs c x = false) l →
  occurs c (join sep l) = false.
Proof.
  intros Hsep. induction 1 as [|x l Hx Hl IH]; [done|].
  destruct l as [|y l]; [done|].
  change (join sep (x :: y :: l)) with (x +:+ sep +:+ join sep (y :: l)).
  by rewrite !occurs_app, Hx, Hsep, IH.
Qed.

Lemma matrix_row_no_backslash (content : string) (d : CodeDir)
    (req : string) :
  Forall (fun f => occurs backslash (rel_path f) = false) (rglob_kt d) →
  occurs backslash req = false →
  occurs backslash
    (matrix_row (verify content d) (find_spec_references d) req) = false.
Proof.
  intros Hfiles Hreq. unfold matrix_row.
  assert (Hrow : ∀ code_file status,
    occurs backslash code_file = false → occurs backslash status = false →
    occurs backslash
      ("| " +:+ req +:+ " | " +:+ code_file +:+ " | " +:+ placeholder_dash
         +:+ " | " +:+ status +:+ " |") = false).
  { intros code_file status Hc Hs. by rewrite !occurs_app, Hreq, Hc, Hs. }
  destruct (decide (req ∈ implemented_requirements (verify content d)));
    [|by apply Hrow].
  destruct (find_spec_references d !! req) as [refs|] eqn:Hrefs;
    [|by apply Hrow].
  cbn [default]. destruct refs as [|ref refs]; [by apply Hrow|].
  apply Hrow; [|done].
  apply references_lookup in Hrefs as [_ Hrefs].
  assert (Hin : ref ∈ filter (fun r => requirement_id r = req)
                  (all_references d)) by (rewrite <- Hrefs; left).
  apply list_elem_of_filter in Hin as [_ Hin].
  apply reference_file in Hin as (f & Hf & ->).
  rewrite Forall_forall in Hfiles. by apply Hfiles.
Qed.

(** The replacement text the patch step hands to [re.sub]. *)
Definition replacement (content : string) (d : CodeDir) : string :=
  table_header +:+ table_separator
  +:+ join nl (new_rows (verify content d) (find_spec_references d))
  +:+ nl +:+ nl.

Lemma replacement_no_backslash (content : string) (d : CodeDir) :
  Forall (fun f => occurs backslash (rel_path f) = false) (rglob_kt d) →
  occurs backslash (replacement content d) = false.
Proof.
  intros Hfiles. unfold replacement. rewrite !occurs_app.
  assert (Hrows : occurs backslash
            (join nl (new_rows (verify content d) (find_spec_references d)))
          = false).
  { apply occurs_join; [done|]. unfold new_rows.
    apply Forall_forall. intros row (req & -> & Hreq)%list_elem_of_fmap.
    apply matrix_row_no_backslash; [done|].
    rewrite MatrixFacts.sorted_perm, elem_of_elements in Hreq.
    destruct (verify_sets content d) as [_ Hu]. cbv zeta in Hu.
    rewrite Hu in Hreq. apply elem_of_list_to_set in Hreq.
    apply parse_requirements_id_chars in Hreq as [_ Hreq].
    by apply id_chars_no_backslash. }
  by rewrite Hrows.
Qed.

(** X8. When no [*.kt] path of the tree contains a backslash, the
    replacement text of the patch step has none either: [re.sub]
    takes it as it is written, whatever the text it is applied to,
    and the patch step does not raise on the template. *)
Theorem patch_without_backslash (content : string) (d : CodeDir) :
  Forall (fun f => occurs backslash (rel_path f) = false) (rglob_kt d) →
  occurs backslash (replacement content d) = false
  ∧ (∀ text, is_Some (sub_matrix (replacement content d) text))
  ∧ update_traceability_matrix content d (verify content d) ≠ Raised.
Proof.
  intros Hfiles.
  pose proof (replacement_no_backslash content d Hfiles) as Hrepl.
  assert (Hsub : ∀ text, is_Some (sub_matrix (replacement content d) text)).
  { intros text. unfold sub_matrix, parse_template.
    by destruct (parse_template_literal _ Hrepl) as [ps ->]. }
  split; [done|]. split; [done|].
  unfold update_traceability_matrix.
  destruct (search_matrix content); [|done].
  fold (replacement content d).
  by destruct (Hsub content) as [new ->].
Qed.

Lemma patch_without_backslash_witness :
  occurs backslash (replacement anchored_doc mixed_tree) = false
  ∧ (∀ text, is_Some (sub_matrix (replacement anchored_doc mixed_tree) text))
  ∧ update_traceability_matrix anchored_doc mixed_tree
      (verify anchored_doc mixed_tree) ≠ Raised.
Proof.
  apply (patch_without_backslash anchored_doc mixed_tree).
  vm_compute. repeat constructor.
Defined.
(** *** When the patch step is skipped *)

Lemma contains_inv (needle s : string) :
  contains needle s = true → ∃ a b, s = a +:+ needle +:+ b.
Proof.
  induction s as [|c s IH]; simpl.
  - rewrite orb_false_r. intros H%startswith_inv.
    exists EmptyString. eexists. exact H.
  - intros [H|H]%orb_true_iff.
    + apply startswith_inv in H. exists EmptyString. eexists. exact H.
    + destruct (IH H) as (a & b & ->). by exists (String c a), b.
Qed.

Lemma lazy_until_none (needle s : string) :
  lazy_until needle s = None ↔ contains needle s = false.
Proof.
  split.
  - intros Hn. destruct (contains needle s) eqn:Hc; [|done].
    apply contains_inv in Hc as (a & b & ->).
    destruct (lazy_until_complete needle a b) as [? Hs]. congruence.
  - intros Hc. destruct (lazy_until needle s) as [[g r]|] eqn:Hl; [|done].
    apply lazy_until_sound in Hl. rewrite Hl, contains_infix in Hc. done.
Qed.

Lemma search_matrix_eq (content : string) :
  search_matrix content
  = match match_matrix content with
    | Some r => Some r
    | None =>
        match content with
        | EmptyString => None
        | String _ content' => search_matrix content'
        end
    end.
Proof. by destruct content. Qed.

Lemma search_matrix_none (content : string) :
  search_matrix content = None
  ↔ ∀ a s', content = a +:+ s' → match_matrix s' = None.
Proof.
  induction content as [|c content IH]; rewrite search_matrix_eq.
  - split.
    + destruct (match_matrix EmptyString) eqn:Hm; [done|].
      intros _ a s' Heq. by destruct a, s'.
    + intros H. by rewrite (H EmptyString EmptyString).
  - split.
    + destruct (match_matrix (String c content)) eqn:Hm; [done|].
      intros Hs a s' Heq. destruct a as [|x a].
      * by rewrite str_app_nil_l in Heq; subst s'.
      * rewrite str_app_cons in Heq. injection Heq as -> ->.
        by eapply IH.
    + intros H. rewrite (H EmptyString (String c content)) by done.
      apply IH. intros a s' ->. by apply (H (String c a) s').
Qed.

Lemma match_matrix_none (s : string) :
  match_matrix s = None
  ↔ startswith (table_header +:+ "|-------------") s = false
    ∧ startswith "-----------" s = false
    ∧ startswith "--------" s = false
    ∧ ∀ r, s = nl +:+ r → contains (nl +:+ nl) r = false.
Proof.
  unfold match_matrix, after_literal.
  destruct (startswith (table_header +:+ "|-------------") s);
    [by split; [|intros [? _]]|].
  destruct (startswith "-----------" s);
    [by split; [|intros (_ & ? & _)]|].
  destruct (startswith "--------" s);
    [by split; [|intros (_ & _ & ? & _)]|].
  destruct (startswith nl s) eqn:Hnl.
  - apply startswith_inv in Hnl. set (r := drop (String.length nl) s) in *.
    destruct (lazy_until (nl +:+ nl) r) as [[g r']|] eqn:Hl.
    + split; [done|]. intros (_ & _ & _ & H).
      specialize (H r Hnl). apply lazy_until_none in H. congruence.
    + split; [|done]. intros _. repeat split.
      intros r0 Hr0. rewrite Hr0 in Hnl. apply String.app_inj in Hnl as ->.
      by apply lazy_until_none.
  - split; [|done]. intros _. repeat split.
    intros r Hr. rewrite Hr, startswith_app in Hnl. done.
Qed.

(** X9. The patch step gives up with its warning, before it builds
    a row, exactly when the document has no run of eight dashes and
    no line feed that is followed, somewhere later, by two line feeds
    in a row; the matrix heading plays no part in it.  (The file
    stays as it was in one more case, when [re.sub] raises:
    [matrix_patch_backslash_path].) *)
Theorem patch_skipped_iff (content : string) (d : CodeDir)
    (report : SyncReport) :
  update_traceability_matrix content d report = Skipped
  ↔ contains "--------" content = false
    ∧ ¬ ∃ a b c, content = a +:+ nl +:+ b +:+ (nl +:+ nl) +:+ c.
Proof.
  assert (Hskip : update_traceability_matrix content d report = Skipped
                  ↔ search_matrix content = None).
  { unfold update_traceability_matrix.
    destruct (search_matrix content); [|done].
    by destruct (sub_matrix _ content). }
  rewrite Hskip, search_matrix_none. split.
  - intros Hnone. split.
    + destruct (contains "--------" content) eqn:Hc; [|done].
      apply contains_inv in Hc as (a & b & ->).
      specialize (Hnone a _ eq_refl).
      apply match_matrix_none in Hnone as (_ & _ & H & _).
      by rewrite startswith_app in H.
    + intros (a & b & c & ->).
      specialize (Hnone a _ eq_refl).
      apply match_matrix_none in Hnone as (_ & _ & _ & H).
      specialize (H _ eq_refl). by rewrite contains_infix in H.
  - intros [Hdash Hblank] a s' ->. apply match_matrix_none.
    assert (Hd : ∀ p q, startswith (p +:+ "--------" +:+ q) s' = false).
    { intros p q. destruct (startswith _ s') eqn:Hs; [|done].
      apply startswith_inv in Hs. rewrite Hs in Hdash.
      rewrite !str_app_assoc, <- (str_app_assoc a p) in Hdash.
      by rewrite contains_infix in Hdash. }
    split; [exact (Hd (table_header +:+ "|-----") EmptyString)|].
    split; [exact (Hd "---" EmptyString)|].
    split; [exact (Hd EmptyString EmptyString)|].
    intros r ->. destruct (contains (nl +:+ nl) r) eqn:Hc; [|done].
    apply contains_inv in Hc as (b & c & ->). destruct Hblank.
    by exists a, b, c.
Qed.

End MatrixFacts.

(** ** Numbers in identifiers *)

Module NumberFacts.
Import Text TextFacts DocSyncer SpecBuilder.

Lemma fold_digits_of_uint (d : Decimal.uint) (acc : nat) :
  fold_left (fun acc c => acc * 10 + digit_value c)
            (list_ascii_of_string (NilEmpty.string_of_uint d)) acc
  = Nat.of_uint_acc d acc.
Proof.
  revert acc.
  induction d as [|d IH|d IH|d IH|d IH|d IH|d IH|d IH|d IH|d IH|d IH];
    intros acc; [done|..];
    cbn [NilEmpty.string_of_uint list_ascii_of_string fold_left Nat.of_uint_acc];
    rewrite IH; f_equal; rewrite Nat.tail_mul_spec;
    unfold digit_value;
    match goal with
    | |- context [nat_of_ascii ?c] =>
        let v := eval vm_compute in (nat_of_ascii c) in
        change (nat_of_ascii c) with v
    end; lia.
Qed.

Lemma int_of_decimal (n : nat) :
  int_of_digits (NilEmpty.string_of_uint (Nat.to_uint n)) = n.
Proof.
  unfold int_of_digits, number_in_base. rewrite fold_digits_of_uint.
  apply DecimalNat.Unsigned.of_to.
Qed.

Lemma decimal_digits (d : Decimal.uint) :
  string_forall is_digit (NilEmpty.string_of_uint d) = true.
Proof.
  induction d as [|d IH|d IH|d IH|d IH|d IH|d IH|d IH|d IH|d IH|d IH];
    [done|..]; cbn [NilEmpty.string_of_uint string_forall]; by rewrite IH.
Qed.

Lemma decimal_nonempty (n : nat) :
  NilEmpty.string_of_uint (Nat.to_uint n) ≠ EmptyString.
Proof.
  assert (Hn : Nat.to_uint n ≠ Decimal.Nil).
  { rewrite <- (DecimalNat.Unsigned.of_to n) at 1.
    rewrite DecimalNat.Unsigned.to_of. apply DecimalFacts.unorm_nonnil. }
  by destruct (Nat.to_uint n).
Qed.

Lemma int_of_zero_padded (s : string) :
  int_of_digits (String "0" s) = int_of_digits s.
Proof. reflexivity. Qed.

Lemma int_of_format_02d (n : nat) : int_of_digits (format_02d n) = n.
Proof.
  unfold format_02d.
  destruct (String.length _ <? 2); [|apply int_of_decimal].
  change ("0" +:+ ?s) with (String "0" s).
  by rewrite int_of_zero_padded, int_of_decimal.
Qed.

Lemma int_of_format_03d (n : nat) : int_of_digits (format_03d n) = n.
Proof.
  unfold format_03d.
  destruct (String.length _) as [|[|[|k]]];
    [change ("000" +:+ ?s) with (String "0" (String "0" (String "0" s)))
    |change ("00" +:+ ?s) with (String "0" (String "0" s))
    |change ("0" +:+ ?s) with (String "0" s)|];
    by rewrite ?int_of_zero_padded, int_of_decimal.
Qed.

Lemma format_02d_digits (n : nat) :
  string_forall is_digit (format_02d n) = true
  ∧ format_02d n ≠ EmptyString.
Proof.
  unfold format_02d. pose proof (decimal_nonempty n) as Hne.
  destruct (String.length _ <? 2).
  - split; [|done]. by rewrite string_forall_app, decimal_digits.
  - split; [apply decimal_digits|done].
Qed.

Lemma format_03d_digits (n : nat) :
  string_forall is_digit (format_03d n) = true
  ∧ 3 ≤ String.length (format_03d n).
Proof.
  unfold format_03d.
  destruct (String.length (NilEmpty.string_of_uint (Nat.to_uint n)))
    as [|[|[|k]]] eqn:Hlen;
    rewrite ?string_forall_app, ?str_length_app, ?decimal_digits, ?Hlen;
    split; try done; simpl; lia.
Qed.

End NumberFacts.

(** ** spec_builder.py: size and content of the match result *)

Module MatcherFacts.
Import Text TextFacts SpecBuilder SpecBuilderFacts.

(** The tags with a positive score, ranked. *)
Definition ranked_tags (self : AndroidSkillMatcher) (text : string)
    : list string :=
  map fst (sort_by_score (filter (fun p => 0 < snd p)
                                 (scored_catalog self text))).

Lemma ranked_tags_NoDup (self : AndroidSkillMatcher) (text : string) :
  NoDup (map fst (matcher_SKILLS self)) → NoDup (ranked_tags self text).
Proof.
  intros Hkeys. unfold ranked_tags.
  rewrite (Permutation_map fst (sort_by_score_perm _)).
  apply NoDup_map_fst_filter. by rewrite scored_catalog_names.
Qed.

Lemma core_skills_NoDup : NoDup core_skills.
Proof. unfold core_skills. repeat constructor; set_solver. Qed.

Lemma match_skills_eq (self : AndroidSkillMatcher)
    (feature_description : string) (requirements : list string) :
  NoDup (map fst (matcher_SKILLS self)) →
  let names :=
    ranked_tags self (combined_text feature_description requirements) in
  match_skills self feature_description requirements
  = firstn 10 (names ++ filter (fun c => c ∉ names) core_skills).
Proof.
  intros Hkeys names. unfold match_skills.
  rewrite matched_entries_filter. fold names.
  rewrite (foldl_append_if_absent _ [])
    by (by apply ranked_tags_NoDup).
  rewrite app_nil_l, filter_not_in_nil.
  rewrite foldl_append_if_absent by apply core_skills_NoDup. done.
Qed.

Lemma ranked_tag_scored (self : AndroidSkillMatcher) (text tag : string) :
  tag ∈ ranked_tags self text →
  ∃ entry, entry ∈ matcher_SKILLS self ∧ fst entry = tag
           ∧ 0 < keyword_score text (keywords (snd entry)).
Proof.
  unfold ranked_tags.
  intros ([t sc] & -> & Hin)%list_elem_of_fmap.
  rewrite sort_by_score_perm in Hin.
  apply list_elem_of_filter in Hin as [Hpos Hin].
  unfold scored_catalog in Hin.
  apply list_elem_of_fmap in Hin as (entry & [= -> ->] & Hentry).
  by exists entry.
Qed.

Lemma core_in_unranked (names : list string) (c : string) :
  c ∈ core_skills → c ∈ names ++ filter (fun c => c ∉ names) core_skills.
Proof.
  intros Hc. apply elem_of_app.
  destruct (decide (c ∈ names)); [by left|right].
  by apply list_elem_of_filter.
Qed.

(** X10. With unique catalog keys [match_skills] returns between 3 and
    10 tags, and each of them is a core tag or the tag of a catalog
    entry at least one keyword of which occurs in the combined
    text. *)
Theorem match_skills_size (self : AndroidSkillMatcher)
    (feature_description : string) (requirements : list string) :
  NoDup (map fst (matcher_SKILLS self)) →
  let result := match_skills self feature_description requirements in
  let text := combined_text feature_description requirements in
  3 ≤ length result ≤ 10
  ∧ ∀ tag, tag ∈ result →
      tag ∈ core_skills
      ∨ ∃ entry, entry ∈ matcher_SKILLS self ∧ fst entry = tag
                 ∧ 0 < keyword_score text (keywords (snd entry)).
Proof.
  intros Hkeys result text. subst result.
  rewrite match_skills_eq by done. fold text.
  set (names := ranked_tags self text).
  set (full := names ++ filter (fun c => c ∉ names) core_skills).
  assert (Hlen : 3 ≤ length full).
  { change 3 with (length core_skills).
    apply submseteq_length, NoDup_submseteq; [apply core_skills_NoDup|].
    intros c Hc. by apply core_in_unranked. }
  split.
  - rewrite length_take. lia.
  - intros tag Htag.
    assert (Hin : tag ∈ full).
    { eapply elem_of_sublist; [|apply sublist_take]. exact Htag. }
    apply elem_of_app in Hin as [Hin|Hin].
    + right. by apply ranked_tag_scored.
    + left. by apply list_elem_of_filter in Hin as [_ ?].
Qed.

Lemma match_skills_size_witness :
  let result := match_skills skill_matcher "User Login" ["form validation"] in
  let text := combined_text "User Login" ["form validation"] in
  3 ≤ length result ≤ 10
  ∧ ∀ tag, tag ∈ result →
      tag ∈ core_skills
      ∨ ∃ entry, entry ∈ matcher_SKILLS skill_matcher ∧ fst entry = tag
                 ∧ 0 < keyword_score text (keywords (snd entry)).
Proof.
  apply (match_skills_size skill_matcher "User Login" ["form validation"]).
  apply (bool_decide_unpack _). vm_compute. exact I.
Defined.

(** X11. When at most seven catalog entries have a positive score,
    nothing is cut off: the result is the ranked tags followed by the
    core tags that were not ranked, and every core tag is in it. *)
Theorem match_skills_keeps_core (self : AndroidSkillMatcher)
    (feature_description : string) (requirements : list string) :
  NoDup (map fst (matcher_SKILLS self)) →
  let text := combined_text feature_description requirements in
  length (filter (fun p => 0 < snd p) (scored_catalog self text)) ≤ 7 →
  match_skills self feature_description requirements
  = ranked_tags self text
      ++ filter (fun c => c ∉ ranked_tags self text) core_skills
  ∧ ∀ c, c ∈ core_skills →
         c ∈ match_skills self feature_description requirements.
Proof.
  intros Hkeys text Hfew.
  assert (Heq : match_skills self feature_description requirements
                = ranked_tags self text
                    ++ filter (fun c => c ∉ ranked_tags self text) core_skills).
  { rewrite match_skills_eq by done. fold text. apply firstn_all2.
    rewrite length_app.
    assert (length (ranked_tags self text) ≤ 7).
    { unfold ranked_tags. by rewrite length_map, sort_by_score_perm. }
    assert (length (filter (fun c => c ∉ ranked_tags self text) core_skills)
            ≤ length core_skills) by apply length_filter.
    change (length core_skills) with 3 in *. lia. }
  split; [done|]. intros c Hc. rewrite Heq. by apply core_in_unranked.
Qed.

Lemma match_skills_keeps_core_witness :
  match_skills skill_matcher "User Login" ["form validation"]
  = ranked_tags skill_matcher (combined_text "User Login" ["form validation"])
      ++ filter (fun c => c ∉ ranked_tags skill_matcher
                            (combined_text "User Login" ["form validation"]))
                core_skills
  ∧ ∀ c, c ∈ core_skills →
         c ∈ match_skills skill_matcher "User Login" ["form validation"].
Proof.
  apply (match_skills_keeps_core skill_matcher "User Login"
           ["form validation"]).
  - apply (bool_decide_unpack _). vm_compute. exact I.
  - vm_compute. lia.
Defined.

End MatcherFacts.

(** ** spec_builder.py: the requirements of a created document *)

Module RequirementFacts.
Import Text TextFacts DocSyncer SpecBuilder NumberFacts.

Lemma categorize_requirement_shape (requirement : string) :
  fst (categorize_requirement requirement) ∈ req_types
  ∧ ∃ prefix,
      snd (categorize_requirement requirement) = prefix +:+ requirement.
Proof.
  unfold categorize_requirement, req_types.
  repeat match goal with
         | |- context [if ?b then _ else _] => destruct b
         end;
    cbn [fst snd];
    (split; [set_solver | first [by exists EmptyString | by eexists]]).
Qed.

Section ByKey.
Context {A : Type} (key : A → string).

Lemma concat_filter_skip (keys : list string) (x : A) (l : list A) :
  key x ∉ keys →
  concat (map (fun k => filter (fun y => key y = k) (x :: l)) keys)
  = concat (map (fun k => filter (fun y => key y = k) l) keys).
Proof.
  induction keys as [|k keys IH]; [done|]. intros Hx.
  apply not_elem_of_cons in Hx as [Hk Hx]. cbn [map concat].
  by rewrite filter_cons_False, IH.
Qed.

Lemma concat_filter_cons (keys : list string) (x : A) (l : list A) :
  NoDup keys → key x ∈ keys →
  concat (map (fun k => filter (fun y => key y = k) (x :: l)) keys)
  ≡ₚ x :: concat (map (fun k => filter (fun y => key y = k) l) keys).
Proof.
  induction keys as [|k keys IH]; intros Hnd Hx.
  - by apply elem_of_nil in Hx.
  - apply NoDup_cons in Hnd as [Hk Hnd]. cbn [map concat].
    destruct (decide (key x = k)) as [Heq|Hne].
    + rewrite filter_cons_True by done.
      rewrite concat_filter_skip by (by rewrite Heq). done.
    + rewrite filter_cons_False by done.
      apply elem_of_cons in Hx as [?|Hx]; [done|].
      rewrite IH by done. by rewrite Permutation_middle.
Qed.

Lemma concat_filter_keys (keys : list string) (l : list A) :
  NoDup keys → (∀ x, x ∈ l → key x ∈ keys) →
  concat (map (fun k => filter (fun y => key y = k) l) keys) ≡ₚ l.
Proof.
  intros Hnd. induction l as [|x l IH]; intros Hkeys.
  - clear. induction keys as [|k keys IH]; [done|]. exact IH.
  - rewrite concat_filter_cons; [|done|apply Hkeys; left].
    f_equiv. apply IH. intros y Hy. apply Hkeys. by right.
Qed.

Lemma filter_all (P : A → Prop) `{!∀ y, Decision (P y)} (l : list A) :
  (∀ y, y ∈ l → P y) → filter P l = l.
Proof.
  induction l as [|y l IH]; [done|]. intros Hall.
  rewrite filter_cons_True by (apply Hall; left).
  f_equal. apply IH. intros z Hz. apply Hall. by right.
Qed.

Lemma filter_none (P : A → Prop) `{!∀ y, Decision (P y)} (l : list A) :
  (∀ y, y ∈ l → ¬ P y) → filter P l = [].
Proof.
  induction l as [|y l IH]; [done|]. intros Hall.
  rewrite filter_cons_False by (apply Hall; left).
  apply IH. intros z Hz. apply Hall. by right.
Qed.

(** The entries under one key, in order, when the pieces are laid out
    key after key. *)
Lemma filter_concat_keys (pieces : string → list A) (keys : list string)
    (k : string) :
  NoDup keys → k ∈ keys →
  (∀ k' y, y ∈ pieces k' → key y = k') →
  filter (fun y => key y = k) (concat (map pieces keys)) = pieces k.
Proof.
  intros Hnd Hk Hpieces.
  assert (Hother : ∀ ks, k ∉ ks →
            filter (fun y => key y = k) (concat (map pieces ks)) = []).
  { induction ks as [|k' ks IH]; [done|].
    intros [Hne Hks]%not_elem_of_cons. cbn [map concat].
    rewrite filter_app, IH by done. rewrite filter_none; [done|].
    intros y Hy Hkey. apply Hpieces in Hy. congruence. }
  induction keys as [|k' keys IH]; [by apply elem_of_nil in Hk|].
  apply NoDup_cons in Hnd as [Hk' Hnd]. cbn [map concat].
  rewrite filter_app. destruct (decide (k = k')) as [<-|Hne].
  - rewrite Hother by done. rewrite filter_all; [by rewrite app_nil_r|].
    intros y Hy. by apply Hpieces in Hy.
  - rewrite filter_none, IH; [done..| |].
    + apply elem_of_cons in Hk as [?|?]; done.
    + intros y Hy Hkey. apply Hpieces in Hy. congruence.
Qed.

End ByKey.

Lemma req_types_NoDup : NoDup req_types.
Proof. unfold req_types. repeat constructor; set_solver. Qed.

(** The kind and the text of an entry. *)
Definition kind_and_text (r : ears_requirement) : string * string :=
  (snd (fst r), snd r).

Lemma numbered_kind_and_text (spec_id req_type : string)
    (reqs : list string) :
  map kind_and_text (numbered spec_id req_type reqs)
  = map (fun text => (req_type, text)) reqs.
Proof.
  unfold numbered. generalize 1.
  induction reqs as [|x reqs IH]; intros n; [done|].
  cbn [enumerate_from map]. by rewrite IH.
Qed.

Lemma categorized_pairs (requirements : list string) (req_type : string) :
  map (fun text => (req_type, text)) (categorized requirements req_type)
  = filter (fun p => fst p = req_type)
           (map categorize_requirement requirements).
Proof.
  unfold categorized.
  induction (map categorize_requirement requirements) as [|[t x] l IH];
    [done|].
  destruct (decide (t = req_type)) as [->|Hne].
  - rewrite !filter_cons_True by done. cbn [map snd]. by rewrite IH.
  - by rewrite !filter_cons_False by done.
Qed.

Lemma ears_kind_and_text (spec_id : string) (requirements : list string) :
  map kind_and_text (ears_requirements_of spec_id requirements)
  = concat (map (fun req_type =>
                   filter (fun p => fst p = req_type)
                          (map categorize_requirement requirements))
                req_types).
Proof.
  unfold ears_requirements_of. rewrite concat_map, map_map.
  f_equal. apply map_ext. intros t.
  by rewrite numbered_kind_and_text, categorized_pairs.
Qed.

(** X12. [create_spec] keeps every requirement it is given: the
    entries it numbers are, up to their order, the input requirements
    as [categorize_requirement] classifies and words them.  So each
    entry has one of the five kinds and a text that ends with the
    words of an input requirement. *)
Theorem ears_requirements_keep_all (spec_id : string)
    (requirements : list string) :
  map kind_and_text (ears_requirements_of spec_id requirements)
  ≡ₚ map categorize_requirement requirements
  ∧ ∀ r, r ∈ ears_requirements_of spec_id requirements →
      snd (fst r) ∈ req_types
      ∧ ∃ requirement prefix,
          requirement ∈ requirements ∧ snd r = prefix +:+ requirement.
Proof.
  assert (Hperm : map kind_and_text
                    (ears_requirements_of spec_id requirements)
                  ≡ₚ map categorize_requirement requirements).
  { rewrite ears_kind_and_text.
    apply (concat_filter_keys fst); [apply req_types_NoDup|].
    intros p (req & -> & _)%list_elem_of_fmap.
    apply categorize_requirement_shape. }
  split; [done|]. intros r Hr.
  assert (Hin : kind_and_text r ∈ map categorize_requirement requirements).
  { rewrite <- Hperm. by apply list_elem_of_fmap_2. }
  apply list_elem_of_fmap in Hin as (req & Heq & Hreq).
  destruct (categorize_requirement_shape req) as [Hkind [prefix Htext]].
  rewrite <- Heq in Hkind, Htext. split; [done|]. by exists req, prefix.
Qed.

Lemma numbered_kind (spec_id req_type : string) (reqs : list string)
    (r : ears_requirement) :
  r ∈ numbered spec_id req_type reqs → snd (fst r) = req_type.
Proof.
  unfold numbered. by intros (p & -> & _)%list_elem_of_fmap.
Qed.

Lemma ears_of_kind (spec_id : string) (requirements : list string)
    (req_type : string) :
  req_type ∈ req_types →
  filter (fun r => snd (fst r) = req_type)
         (ears_requirements_of spec_id requirements)
  = numbered spec_id req_type (categorized requirements req_type).
Proof.
  intros Hkind. unfold ears_requirements_of.
  apply (filter_concat_keys (fun r : ears_requirement => snd (fst r)));
    [apply req_types_NoDup|done|].
  intros k r. apply numbered_kind.
Qed.

Lemma numbered_ids (spec_id req_type : string) (reqs : list string) :
  map (fun r => fst (fst r)) (numbered spec_id req_type reqs)
  = map (generate_requirement_id spec_id req_type)
        (seq 1 (length reqs)).
Proof.
  unfold numbered. generalize 1.
  induction reqs as [|x reqs IH]; intros n; [done|].
  cbn [enumerate_from map length seq fst]. by rewrite IH.
Qed.

Lemma numbered_texts (spec_id req_type : string) (reqs : list string) :
  map snd (numbered spec_id req_type reqs) = reqs.
Proof.
  unfold numbered. generalize 1.
  induction reqs as [|x reqs IH]; intros n; [done|].
  cbn [enumerate_from map snd]. by rewrite IH.
Qed.

Lemma categorized_inputs (requirements : list string) (req_type : string) :
  categorized requirements req_type
  = map (fun req => snd (categorize_requirement req))
        (filter (fun req => fst (categorize_requirement req) = req_type)
                requirements).
Proof.
  unfold categorized.
  induction requirements as [|req l IH]; [done|]. cbn [map].
  destruct (decide (fst (categorize_requirement req) = req_type)).
  - rewrite !filter_cons_True by done. cbn [map]. by rewrite IH.
  - by rewrite !filter_cons_False by done.
Qed.

(** X13. Within each of the five kinds the entries are numbered from
    1 without a gap, in the order of the input: the identifiers of
    kind [req_type] are those of the numbers 1 to k, where k input
    requirements are of that kind, and their texts are the formatted
    inputs of that kind in input order. *)
Theorem ears_requirements_numbering (spec_id : string)
    (requirements : list string) (req_type : string) :
  req_type ∈ req_types →
  let of_kind :=
    filter (fun req => fst (categorize_requirement req) = req_type)
           requirements in
  let entries :=
    filter (fun r => snd (fst r) = req_type)
           (ears_requirements_of spec_id requirements) in
  map (fun r => fst (fst r)) entries
  = map (generate_requirement_id spec_id req_type)
        (seq 1 (length of_kind))
  ∧ map snd entries
    = map (fun req => snd (categorize_requirement req)) of_kind.
Proof.
  intros Hkind of_kind entries. subst entries.
  rewrite ears_of_kind by done.
  rewrite numbered_ids, numbered_texts, categorized_inputs.
  by rewrite length_map.
Qed.

Lemma ears_requirements_numbering_witness :
  let requirements := ["show a list"; "refresh when pulled"; "cache items"] in
  let of_kind :=
    filter (fun req => fst (categorize_requirement req) = "U")
           requirements in
  let entries :=
    filter (fun r => snd (fst r) = "U")
           (ears_requirements_of "001" requirements) in
  map (fun r => fst (fst r)) entries
  = map (generate_requirement_id "001" "U") (seq 1 (length of_kind))
  ∧ map snd entries
    = map (fun req => snd (categorize_requirement req)) of_kind.
Proof.
  apply (ears_requirements_numbering "001"
           ["show a list"; "refresh when pulled"; "cache items"] "U").
  unfold req_types. left.
Defined.

Lemma str_app_inj_l (a b c : string) : a +:+ b = a +:+ c → b = c.
Proof.
  induction a as [|x a IH]; [done|].
  rewrite !str_app_cons. intros [= H]. by apply IH.
Qed.

Lemma format_02d_inj (m n : nat) : format_02d m = format_02d n → m = n.
Proof.
  intros H. by rewrite <- (int_of_format_02d m), H, int_of_format_02d.
Qed.

Lemma kind_one_char (req_type : string) :
  req_type ∈ req_types → ∃ c, req_type = String c EmptyString.
Proof.
  unfold req_types. intros H.
  repeat (apply elem_of_cons in H as [->|H]; [by eexists|]).
  by apply elem_of_nil in H.
Qed.

(** An identifier tells its kind and its number. *)
Lemma generate_requirement_id_inj (spec_id t1 t2 : string) (m n : nat) :
  t1 ∈ req_types → t2 ∈ req_types →
  generate_requirement_id spec_id t1 m = generate_requirement_id spec_id t2 n →
  t1 = t2 ∧ m = n.
Proof.
  intros [c1 ->]%kind_one_char [c2 ->]%kind_one_char.
  unfold generate_requirement_id. intros H.
  apply (str_app_inj_l "REQ-"), str_app_inj_l, (str_app_inj_l "-") in H.
  rewrite !str_app_cons, !str_app_nil_l in H.
  injection H as -> H. split; [done|]. by apply format_02d_inj.
Qed.

Lemma NoDup_concat_keys {A} (pieces : string → list A) (keys : list string) :
  NoDup keys →
  (∀ k, k ∈ keys → NoDup (pieces k)) →
  (∀ k1 k2 y, k1 ∈ keys → k2 ∈ keys →
              y ∈ pieces k1 → y ∈ pieces k2 → k1 = k2) →
  NoDup (concat (map pieces keys)).
Proof.
  induction keys as [|k keys IH]; intros Hnd Hpieces Hdisj.
  - constructor.
  - apply NoDup_cons in Hnd as [Hk Hnd]. cbn [map concat].
    apply NoDup_app. split; [apply Hpieces; left|]. split.
    + intros y Hy (l & Hyl & Hl)%ScannerFacts.elem_of_concat.
      apply list_elem_of_fmap in Hl as (k' & -> & Hk').
      assert (k = k') by
        (apply (Hdisj k k' y); [left|by right|done..]).
      by subst.
    + apply IH; [done| |].
      * intros k' Hk'. apply Hpieces. by right.
      * intros k1 k2 y H1 H2. apply Hdisj; by right.
Qed.

(** X14. The identifiers [create_spec] gives to the requirements of
    one document are pairwise distinct. *)
Theorem requirement_ids_distinct (spec_id : string)
    (requirements : list string) :
  NoDup (map (fun r => fst (fst r))
             (ears_requirements_of spec_id requirements)).
Proof.
  unfold ears_requirements_of. rewrite concat_map, map_map.
  apply (NoDup_concat_keys
           (fun t => map (fun r : ears_requirement => fst (fst r))
                         (numbered spec_id t (categorized requirements t)))).
  - apply req_types_NoDup.
  - intros t Ht. rewrite numbered_ids.
    apply NoDup_fmap_2_strong; [|apply NoDup_seq].
    intros m n _ _ H.
    by destruct (generate_requirement_id_inj spec_id t t m n Ht Ht H).
  - intros t1 t2 y Ht1 Ht2. rewrite !numbered_ids.
    intros (m & -> & _)%list_elem_of_fmap (n & H & _)%list_elem_of_fmap.
    by destruct (generate_requirement_id_inj spec_id t1 t2 m n Ht1 Ht2 H).
Qed.

End RequirementFacts.

(** ** spec_builder.py: the next identifier *)

Module NextIdFacts.
Import Text TextFacts DocSyncer SpecBuilder SpecBuilderFiles NumberFacts.

(** *** Decimal digits *)

Lemma string_of_uint_length (d : Decimal.uint) :
  String.length (NilEmpty.string_of_uint d) = Decimal.nb_digits d.
Proof.
  induction d as [|d IH|d IH|d IH|d IH|d IH|d IH|d IH|d IH|d IH|d IH];
    [done|..]; cbn [NilEmpty.string_of_uint String.length Decimal.nb_digits];
    by rewrite IH.
Qed.

Lemma digits_decimal (s : string) :
  string_forall is_digit s = true →
  ∃ d, NilEmpty.string_of_uint d = s.
Proof.
  induction s as [|c s IH]; [by exists Decimal.Nil|].
  cbn [string_forall]. intros [Hc [d <-]%IH]%andb_true_iff.
  destruct c as [[] [] [] [] [] [] [] []];
    vm_compute in Hc; try discriminate Hc;
    first [ by exists (Decimal.D0 d) | by exists (Decimal.D1 d)
          | by exists (Decimal.D2 d) | by exists (Decimal.D3 d)
          | by exists (Decimal.D4 d) | by exists (Decimal.D5 d)
          | by exists (Decimal.D6 d) | by exists (Decimal.D7 d)
          | by exists (Decimal.D8 d) | by exists (Decimal.D9 d) ].
Qed.

Lemma int_of_uint (d : Decimal.uint) :
  int_of_digits (NilEmpty.string_of_uint d) = Nat.of_uint d.
Proof.
  unfold int_of_digits, number_in_base. by rewrite fold_digits_of_uint.
Qed.

Lemma list_ascii_app (a b : string) :
  list_ascii_of_string (a +:+ b)
  = list_ascii_of_string a ++ list_ascii_of_string b.
Proof.
  induction a as [|c a IH]; [done|].
  rewrite str_app_cons. cbn [list_ascii_of_string]. by rewrite IH.
Qed.

Lemma int_of_digits_snoc (s : string) (c : ascii) :
  int_of_digits (s +:+ String c EmptyString)
  = int_of_digits s * 10 + digit_value c.
Proof.
  unfold int_of_digits, number_in_base.
  by rewrite list_ascii_app, fold_left_app.
Qed.

(** Every number below [10 ^ k] is written with [k] digits. *)
Lemma padded_digits (k n : nat) :
  n < 10 ^ k →
  ∃ s, String.length s = k ∧ string_forall is_digit s = true
       ∧ int_of_digits s = n.
Proof.
  revert n. induction k as [|k IH]; intros n Hn.
  - exists EmptyString. rewrite Nat.pow_0_r in Hn.
    repeat split. unfold int_of_digits, number_in_base. simpl. lia.
  - rewrite Nat.pow_succ_r' in Hn.
    destruct (IH (n / 10)) as (s & Hlen & Hdig & Hint).
    { apply Nat.Div0.div_lt_upper_bound. lia. }
    pose proof (Nat.mod_upper_bound n 10 ltac:(lia)) as Hr.
    pose proof (Nat.div_mod_eq n 10) as Hdiv.
    set (r := n mod 10) in *.
    exists (s +:+ String (ascii_of_nat (48 + r)) EmptyString).
    assert (Hcode : nat_of_ascii (ascii_of_nat (48 + r)) = 48 + r)
      by (apply nat_ascii_embedding; lia).
    split; [rewrite str_length_app; simpl; lia|]. split.
    + rewrite string_forall_app, Hdig. cbn [string_forall andb].
      unfold is_digit. rewrite Hcode.
      rewrite andb_true_r. apply andb_true_iff.
      split; apply Nat.leb_le; lia.
    + rewrite int_of_digits_snoc, Hint. unfold digit_value.
      rewrite Hcode. lia.
Qed.

Lemma decimal_length_le (k n : nat) :
  0 < k → n < 10 ^ k →
  String.length (NilEmpty.string_of_uint (Nat.to_uint n)) ≤ k.
Proof.
  intros Hk Hn.
  destruct (padded_digits k n Hn) as (s & Hlen & Hdig & Hint).
  destruct (digits_decimal s Hdig) as [d <-].
  rewrite int_of_uint in Hint. rewrite string_of_uint_length in Hlen.
  rewrite <- Hint, DecimalNat.Unsigned.to_of, string_of_uint_length.
  rewrite <- Hlen. apply DecimalFacts.nb_digits_unorm.
  apply DecimalFacts.nb_digits_n0. lia.
Qed.

Lemma int_of_digits_lt (s : string) :
  string_forall is_digit s = true →
  int_of_digits s < 10 ^ String.length s.
Proof.
  unfold int_of_digits, number_in_base.
  assert (H : ∀ acc,
            string_forall is_digit s = true →
            fold_left (fun acc c => acc * 10 + digit_value c)
                      (list_ascii_of_string s) acc
            < (acc + 1) * 10 ^ String.length s).
  { induction s as [|c s IH]; intros acc.
    - intros _. simpl. lia.
    - cbn [string_forall list_ascii_of_string fold_left String.length].
      intros [Hc Hs]%andb_true_iff. specialize (IH (acc * 10 + digit_value c) Hs).
      rewrite Nat.pow_succ_r'.
      assert (Hd : digit_value c ≤ 9).
      { unfold is_digit in Hc. apply andb_true_iff in Hc as [_ Hc].
        apply Nat.leb_le in Hc. unfold digit_value. lia. }
      generalize dependent (10 ^ String.length s). intros P IH. nia. }
  intros Hs. specialize (H 0 Hs). simpl in H. lia.
Qed.

(** *** The numbers found in the directory *)

(** The digits the pattern finds in one entry. *)
Definition found_number (entry : SpecsEntry) : option string :=
  match entry with
  | WithSpec content => search_spec_number content
  | _ => None
  end.

Definition fits (g : string) : bool := String.length g <=? max_str_digits.

Lemma existing_spec_ids_eq (entries : list SpecsEntry) :
  existing_spec_ids entries
  = if forallb fits (omap found_number entries)
    then Some (map int_of_digits (omap found_number entries))
    else None.
Proof.
  unfold existing_spec_ids.
  match goal with |- foldl ?f _ _ = _ => set (step := f) end.
  assert (Hnone : ∀ l, foldl step None l = None).
  { induction l as [|e l IH]; [done|]. exact IH. }
  assert (Hgen : ∀ l acc,
            foldl step (Some acc) l
            = if forallb fits (omap found_number l)
              then Some (acc ++ map int_of_digits (omap found_number l))
              else None).
  { induction l as [|entry l IH]; intros acc.
    - simpl. by rewrite app_nil_r.
    - cbn [foldl].
      destruct entry as [| |content]; cbn [omap list_omap found_number];
        [apply IH..|].
      unfold step at 2.
      destruct (search_spec_number content) as [g|]; [|apply IH].
      cbn [forallb map]. unfold int_checked, fits at 1.
      destruct (String.length g <=? max_str_digits); cbn [andb].
      + rewrite IH. by rewrite <- app_assoc.
      + apply Hnone. }
  apply (Hgen entries []).
Qed.

Lemma found_number_elem (entries : list SpecsEntry) (g : string) :
  g ∈ omap found_number entries
  ↔ ∃ content, WithSpec content ∈ entries
               ∧ search_spec_number content = Some g.
Proof.
  rewrite list_elem_of_omap. split.
  - intros ([| |content] & Hin & Hg); [done..|]. by exists content.
  - intros (content & Hin & Hg). by exists (WithSpec content).
Qed.

Lemma match_spec_number_digits (s g : string) :
  match_spec_number s = Some g →
  string_forall is_digit g = true ∧ g ≠ EmptyString.
Proof.
  unfold match_spec_number.
  destruct (after_literal "spec_id:" s) as [r1|]; [|done].
  destruct (after_literal "SPEC-" _) as [r2|]; [|done].
  pose proof (ScannerFacts.span_forall is_digit r2) as Hd.
  destruct (span is_digit r2) as [[|c digits] r3]; [done|].
  intros [= <-]. by split.
Qed.

Lemma search_spec_number_digits (content g : string) :
  search_spec_number content = Some g →
  string_forall is_digit g = true ∧ g ≠ EmptyString.
Proof.
  induction content as [|c content IH]; cbn [search_spec_number].
  - destruct (match_spec_number EmptyString) eqn:Hm; [|done].
    intros [= ->]. by apply match_spec_number_digits in Hm.
  - destruct (match_spec_number (String c content)) eqn:Hm; [|exact IH].
    intros [= ->]. by apply match_spec_number_digits in Hm.
Qed.

Lemma max_elem_le (n : nat) (ns : list nat) :
  n ∈ ns → n ≤ foldr Nat.max 0 ns.
Proof.
  induction ns as [|m ns IH]; [by intros ?%elem_of_nil|].
  intros [->|Hin]%elem_of_cons; simpl; [lia|]. apply IH in Hin. lia.
Qed.

Lemma max_below (b : nat) (ns : list nat) :
  (∀ n, n ∈ ns → n < b) → 0 < b → foldr Nat.max 0 ns < b.
Proof.
  intros Hall Hb. induction ns as [|m ns IH]; [done|]. simpl.
  assert (m < b) by (apply Hall; left).
  assert (foldr Nat.max 0 ns < b)
    by (apply IH; intros n Hn; apply Hall; by right).
  lia.
Qed.

Lemma next_number_positive (ns : list nat) :
  0 < match ns with [] => 1 | _ => foldr Nat.max 0 ns + 1 end.
Proof. destruct ns; lia. Qed.

Lemma next_number_above (ns : list nat) (n : nat) :
  n ∈ ns → n < match ns with [] => 1 | _ => foldr Nat.max 0 ns + 1 end.
Proof.
  intros Hn. pose proof (max_elem_le n ns Hn).
  destruct ns; [by apply elem_of_nil in Hn|]. lia.
Qed.

(** X15. When every number found in the directory has fewer digits
    than the interpreter converts, [get_next_spec_id] returns an
    identifier of at least three digits whose number is positive and
    larger than the number of every [SPEC.md] in the directory. *)
Theorem get_next_spec_id_fresh (entries : list SpecsEntry) :
  (∀ content g, WithSpec content ∈ entries →
                search_spec_number content = Some g →
                String.length g < max_str_digits) →
  ∃ next,
    get_next_spec_id (Some entries) = Some next
    ∧ string_forall is_digit next = true
    ∧ 3 ≤ String.length next
    ∧ 0 < int_of_digits next
    ∧ ∀ content g, WithSpec content ∈ entries →
                   search_spec_number content = Some g →
                   int_of_digits g < int_of_digits next.
Proof.
  intros Hshort. unfold get_next_spec_id. rewrite existing_spec_ids_eq.
  set (found := omap found_number entries).
  assert (Hfound : ∀ g, g ∈ found →
            String.length g < max_str_digits
            ∧ string_forall is_digit g = true).
  { intros g (content & Hin & Hg)%found_number_elem. split.
    - by apply (Hshort content).
    - by apply search_spec_number_digits in Hg as [? _]. }
  assert (Hfits : forallb fits found = true).
  { apply forallb_forall. intros g Hg%list_elem_of_In.
    apply Hfound in Hg as [Hlen _]. apply Nat.leb_le. lia. }
  rewrite Hfits.
  set (ids := map int_of_digits found).
  set (next_id := match ids with [] => 1 | _ => foldr Nat.max 0 ids + 1 end).
  assert (Hlimit : 1 < max_str_digits)
    by (apply Nat.ltb_lt; vm_compute; reflexivity).
  assert (Hbound : next_id < 10 ^ max_str_digits).
  { assert (Hmax : foldr Nat.max 0 ids < 10 ^ (max_str_digits - 1)).
    { apply max_below.
      - intros n (g & -> & Hg)%list_elem_of_fmap.
        apply Hfound in Hg as [Hlen Hdig].
        eapply Nat.lt_le_trans; [by apply int_of_digits_lt|].
        apply Nat.pow_le_mono_r; lia.
      - apply Nat.neq_0_lt_0, Nat.pow_nonzero. lia. }
    assert (Hpow : 10 ^ max_str_digits = 10 * 10 ^ (max_str_digits - 1)).
    { rewrite <- Nat.pow_succ_r'. by f_equal. }
    rewrite Hpow. generalize dependent (10 ^ (max_str_digits - 1)).
    intros P HP _. subst next_id. destruct ids; lia. }
  exists (format_03d next_id). split; [|split; [|split; [|split]]].
  - unfold format_03d_checked.
    assert (Hlen : String.length
                     (NilEmpty.string_of_uint (Nat.to_uint next_id))
                   ≤ max_str_digits)
      by (apply decimal_length_le; [lia|done]).
    apply Nat.leb_le in Hlen. by rewrite Hlen.
  - apply format_03d_digits.
  - apply format_03d_digits.
  - rewrite int_of_format_03d. apply next_number_positive.
  - intros content g Hin Hg. rewrite int_of_format_03d.
    apply next_number_above. apply list_elem_of_fmap_2.
    apply found_number_elem. by exists content.
Qed.

(** A directory with two documents, one of them without a number. *)
Definition two_specs : list SpecsEntry :=
  [WithSpec "---
spec_id: SPEC-007
feature: Login
---
"; WithoutSpec; NotADirectory; WithSpec "no header"].

Lemma get_next_spec_id_fresh_witness :
  ∃ next,
    get_next_spec_id (Some two_specs) = Some next
    ∧ string_forall is_digit next = true
    ∧ 3 ≤ String.length next
    ∧ 0 < int_of_digits next
    ∧ ∀ content g, WithSpec content ∈ two_specs →
                   search_spec_number content = Some g →
                   int_of_digits g < int_of_digits next.
Proof.
  apply (get_next_spec_id_fresh two_specs).
  intros content g Hin Hg. unfold two_specs in Hin.
  repeat (apply elem_of_cons in Hin as [Heq|Hin];
          [try discriminate Heq; injection Heq as ->;
           vm_compute in Hg; try discriminate Hg; injection Hg as <-;
           apply Nat.ltb_lt; vm_compute; reflexivity|]).
  by apply elem_of_nil in Hin.
Defined.

(** *** A created document in the directory *)

Lemma search_spec_number_skip (c : ascii) (s : string) :
  Ascii.eqb "s" c = false →
  search_spec_number (String c s) = search_spec_number s.
Proof.
  intros Hc. cbn [search_spec_number]. unfold match_spec_number at 1.
  unfold after_literal at 1. cbn [startswith]. by rewrite Hc.
Qed.

Lemma search_spec_number_header (spec_id rest : string) :
  string_forall is_digit spec_id = true → spec_id ≠ EmptyString →
  search_spec_number
    (("---" +:+ nl) +:+ ("spec_id: SPEC-" +:+ spec_id)
       +:+ String newline rest)
  = Some spec_id.
Proof.
  intros Hdig Hne.
  change (search_spec_number
            (String "-" (String "-" (String "-" (String newline
               (("spec_id: SPEC-" +:+ spec_id) +:+ String newline rest)))))
          = Some spec_id).
  do 4 rewrite search_spec_number_skip by done.
  assert (Hm : match_spec_number
                 (("spec_id: SPEC-" +:+ spec_id) +:+ String newline rest)
               = Some spec_id).
  { unfold match_spec_number.
    change ("spec_id: SPEC-" +:+ spec_id)
      with ("spec_id:" +:+ String " " ("SPEC-" +:+ spec_id)).
    rewrite str_app_assoc, after_literal_app.
    rewrite str_app_cons. cbn [span].
    change (is_space " ") with true. cbn iota.
    rewrite str_app_assoc.
    change (span is_space ("SPEC-" +:+ spec_id +:+ String newline rest))
      with (EmptyString, "SPEC-" +:+ spec_id +:+ String newline rest).
    cbn [fst snd]. rewrite after_literal_app.
    rewrite span_all_stop by done.
    by destruct spec_id. }
  generalize dependent (("spec_id: SPEC-" +:+ spec_id) +:+ String newline rest).
  intros s Hm. destruct s; cbn [search_spec_number]; by rewrite Hm.
Qed.

(** The number the pattern finds in the created document as read. *)
Lemma search_spec_number_read (self : AndroidSkillMatcher)
    (spec_id feature_name purpose : string) (requirements : list string)
    (matched_skills : list string) (author today : string) :
  string_forall is_digit spec_id = true → spec_id ≠ EmptyString →
  search_spec_number
    (DocSyncer.universal_newlines
       (create_spec self spec_id feature_name purpose requirements
          matched_skills author today))
  = Some spec_id.
Proof.
  intros Hdig Hne. unfold create_spec, generate_spec_content.
  rewrite CodeBuilderFacts.frontmatter_text_shape.
  match goal with
  | |- context [String newline ?x] => generalize x
  end.
  intros rest. unfold DocSyncer.universal_newlines.
  pose proof (digits_no_line_end spec_id Hdig) as Hplain.
  change (("---" +:+ nl) +:+ ?x) with ("---" +:+ String newline x).
  rewrite (universal_app_plain false "---") by (done || by right).
  rewrite universal_newline.
  rewrite universal_app_plain
    by (by rewrite ?string_forall_app, ?Hplain || by right).
  rewrite universal_newline.
  by apply (search_spec_number_header spec_id).
Qed.

Lemma forallb_perm {A} (f : A → bool) (l l' : list A) :
  l ≡ₚ l' → forallb f l = forallb f l'.
Proof.
  induction 1 as [|x l l' _ IH|x y l|l l' l'' _ IH1 _ IH2]; simpl.
  - done.
  - by rewrite IH.
  - by destruct (f x), (f y).
  - by rewrite IH1.
Qed.

Lemma max_perm (l l' : list nat) :
  l ≡ₚ l' → foldr Nat.max 0 l = foldr Nat.max 0 l'.
Proof.
  induction 1 as [|x l l' _ IH|x y l|l l' l'' _ IH1 _ IH2]; simpl; lia.
Qed.

Lemma format_03d_length (n : nat) :
  String.length (NilEmpty.string_of_uint (Nat.to_uint n)) ≤ max_str_digits →
  String.length (format_03d n) ≤ max_str_digits.
Proof.
  assert (Hlimit : 3 ≤ max_str_digits)
    by (apply Nat.leb_le; vm_compute; reflexivity).
  unfold format_03d.
  destruct (String.length (NilEmpty.string_of_uint (Nat.to_uint n)))
    as [|[|[|k]]] eqn:Hlen; rewrite ?str_length_app, ?Hlen; simpl; lia.
Qed.

(** A directory that lists a new document under the number proposed
    and some of the entries it had. *)
Lemma next_id_with_new_entry (entries kept entries' : list SpecsEntry)
    (spec_id content : string) :
  get_next_spec_id (Some entries) = Some spec_id →
  kept ⊆ entries →
  entries' ≡ₚ WithSpec content :: kept →
  search_spec_number content = Some spec_id →
  get_next_spec_id (Some entries')
  = format_03d_checked (int_of_digits spec_id + 1).
Proof.
  intros Hnext Hkept Hperm Hcontent. unfold get_next_spec_id in *.
  rewrite existing_spec_ids_eq in *.
  destruct (forallb fits (omap found_number entries)) eqn:Hfits; [|done].
  set (ids := map int_of_digits (omap found_number entries)) in *.
  set (next_id := match ids with [] => 1 | _ => foldr Nat.max 0 ids + 1 end)
    in *.
  unfold format_03d_checked in Hnext.
  destruct (String.length _ <=? max_str_digits) eqn:Hlen in Hnext; [|done].
  injection Hnext as <-. apply Nat.leb_le in Hlen.
  assert (Hsub : ∀ g, g ∈ omap found_number kept →
                      g ∈ omap found_number entries).
  { intros g (c & Hin & Hg)%found_number_elem.
    apply found_number_elem. exists c. split; [by apply Hkept|done]. }
  assert (Hfound : omap found_number entries'
                   ≡ₚ format_03d next_id :: omap found_number kept).
  { rewrite Hperm. cbn [omap list_omap found_number]. by rewrite Hcontent. }
  assert (Hfits' : forallb fits (omap found_number kept) = true).
  { apply forallb_forall. intros g Hg%list_elem_of_In%Hsub.
    rewrite forallb_forall in Hfits. by apply Hfits, list_elem_of_In. }
  rewrite (forallb_perm _ _ _ Hfound). cbn [forallb]. rewrite Hfits'.
  unfold fits at 1. apply format_03d_length, Nat.leb_le in Hlen.
  rewrite Hlen. cbn [andb].
  set (ids' := map int_of_digits (omap found_number kept)).
  assert (Hids : map int_of_digits (omap found_number entries')
                 ≡ₚ next_id :: ids').
  { rewrite Hfound. cbn [map]. by rewrite int_of_format_03d. }
  rewrite int_of_format_03d. f_equal.
  assert (Hbelow : foldr Nat.max 0 ids' < next_id).
  { apply max_below; [|apply next_number_positive].
    intros n (g & -> & Hg)%list_elem_of_fmap.
    apply next_number_above. by apply list_elem_of_fmap_2, Hsub. }
  assert (Hmax : foldr Nat.max 0 (map int_of_digits
                                    (omap found_number entries'))
                 = next_id).
  { rewrite (max_perm _ _ Hids). simpl. lia. }
  destruct (map int_of_digits (omap found_number entries')) eqn:Hl.
  - by apply Permutation_nil_cons in Hids.
  - by rewrite Hmax.
Qed.

Lemma next_id_digits (entries : list SpecsEntry) (spec_id : string) :
  get_next_spec_id (Some entries) = Some spec_id →
  string_forall is_digit spec_id = true ∧ spec_id ≠ EmptyString.
Proof.
  unfold get_next_spec_id.
  destruct (existing_spec_ids entries) as [ids|]; [|done].
  unfold format_03d_checked.
  destruct (String.length _ <=? max_str_digits); [|done].
  intros [= <-].
  match goal with |- context [format_03d ?n] =>
    pose proof (format_03d_digits n) as [Hd Hl] end.
  split; [done|]. intros Heq. rewrite Heq in Hl. simpl in Hl. lia.
Qed.

(** A listing of the directory after an entry has been written holds
    that entry and entries of the directory before. *)
Lemma listing_insert (specs_dir : SpecsDir) (name : string)
    (entry : SpecsEntry) (entries entries' : list SpecsEntry) :
  listing specs_dir entries →
  listing (<[name := entry]> specs_dir) entries' →
  ∃ kept, kept ⊆ entries ∧ entries' ≡ₚ entry :: kept.
Proof.
  unfold listing. intros Hl Hl'.
  exists (map_to_list (delete name specs_dir)).*2. split.
  - intros e ([k e'] & -> & Hin)%list_elem_of_fmap.
    apply elem_of_map_to_list in Hin.
    apply lookup_delete_Some in Hin as [_ Hin].
    rewrite Hl. apply list_elem_of_fmap. exists (k, e'). split; [done|].
    by apply elem_of_map_to_list.
  - rewrite Hl', <- insert_delete_eq.
    rewrite map_to_list_insert by apply lookup_delete_eq. done.
Qed.

(** X16. Once [create_spec] has written a document under the
    identifier that [get_next_spec_id] proposed, the next proposal is
    the following number.  The feature name is one whose slug names a
    direct child of the specs directory: then the document is where
    the loop over the directory looks for it, in a directory of its
    own or in the place of the document of the same slug. *)
Theorem next_id_after_create (self : AndroidSkillMatcher)
    (specs_dir specs_dir' : SpecsDir) (entries entries' : list SpecsEntry)
    (spec_id feature_name purpose : string) (requirements : list string)
    (matched_skills : list string) (author today : string) :
  listing specs_dir entries →
  get_next_spec_id (Some entries) = Some spec_id →
  string_forall is_ascii feature_name = true →
  child_name (feature_slug feature_name) = true →
  write_spec_file specs_dir feature_name
    (create_spec self spec_id feature_name purpose requirements
       matched_skills author today) = Some specs_dir' →
  listing specs_dir' entries' →
  get_next_spec_id (Some entries')
  = format_03d_checked (int_of_digits spec_id + 1).
Proof.
  intros Hl Hnext _ _ Hw Hl'.
  destruct (next_id_digits entries spec_id Hnext) as [Hdig Hne].
  assert (Hdir : specs_dir'
                 = <[feature_slug feature_name :=
                       WithSpec (universal_newlines
                         (create_spec self spec_id feature_name purpose
                            requirements matched_skills author today))]>
                     specs_dir).
  { unfold write_spec_file in Hw.
    destruct (specs_dir !! feature_slug feature_name) as [[]|];
      congruence. }
  subst specs_dir'.
  destruct (listing_insert _ _ _ _ _ Hl Hl') as (kept & Hkept & Hperm).
  apply (next_id_with_new_entry entries kept entries' spec_id _ Hnext Hkept
           Hperm).
  by apply search_spec_number_read.
Qed.

#[local] Instance SpecsEntry_eq_dec : EqDecision SpecsEntry.
Proof. solve_decision. Defined.

(** A directory with two documents, one of them without a number. *)
Definition two_specs_dir : SpecsDir :=
  <["login" := WithSpec "---
spec_id: SPEC-007
feature: Login
---
"]> (<["drafts" := WithoutSpec]>
       (<["README.md" := NotADirectory]>
          (<["notes" := WithSpec "no header"]> ∅))).

Lemma next_id_after_create_witness :
  get_next_spec_id
    (Some [WithSpec "---
spec_id: SPEC-007
feature: Login
---
";
           WithSpec (universal_newlines
                       (create_spec skill_matcher "008" "User Logout" "Leave"
                          ["clear the session"] ["android-mvi-architecture"]
                          "dev" "2025-01-01"));
           WithoutSpec; NotADirectory; WithSpec "no header"])
  = format_03d_checked (int_of_digits "008" + 1).
Proof.
  apply (next_id_after_create skill_matcher two_specs_dir
           (<["user-logout" :=
                WithSpec (universal_newlines
                  (create_spec skill_matcher "008" "User Logout" "Leave"
                     ["clear the session"] ["android-mvi-architecture"]
                     "dev" "2025-01-01"))]> two_specs_dir)
           two_specs _ "008" "User Logout" "Leave" ["clear the session"]
           ["android-mvi-architecture"] "dev" "2025-01-01").
  - unfold listing. apply (bool_decide_unpack _). by vm_compute.
  - by vm_compute.
  - reflexivity.
  - reflexivity.
  - reflexivity.
  - unfold listing. apply (bool_decide_unpack _). by vm_compute.
Defined.

(** Names the theorem leaves out: with a separator the document goes
    one level further down, and for the empty name into the specs
    directory itself; the loop over the directory finds neither. *)
Example names_left_out :
  child_name (feature_slug "Login/Logout") = false
  ∧ child_name (feature_slug EmptyString) = false.
Proof. by vm_compute. Qed.

End NextIdFacts.

(** ** From spec_builder.py to doc_syncer.py and code_builder.py *)

Module PipelineFacts.
Import Text TextFacts SpecBuilder NumberFacts.

(** *** Pieces of a text *)

(** [x] stands somewhere in [s]. *)
Definition within (x s : string) : Prop := ∃ a b, s = a +:+ x +:+ b.

Lemma within_here (x b : string) : within x (x +:+ b).
Proof. by exists EmptyString, b. Qed.

Lemma within_app_r (x p s : string) : within x s → within x (p +:+ s).
Proof. intros (a & b & ->). exists (p +:+ a), b. by rewrite !str_app_assoc. Qed.

Lemma within_app_l (x s q : string) : within x s → within x (s +:+ q).
Proof. intros (a & b & ->). exists a, (b +:+ q). by rewrite !str_app_assoc. Qed.

Lemma within_trans (x y s : string) : within x y → within y s → within x s.
Proof. intros Hx (a & b & ->). by apply within_app_r, within_app_l. Qed.

Lemma str_concat_cons (x : string) (l : list string) :
  String.concat EmptyString (x :: l) = x +:+ String.concat EmptyString l.
Proof. destruct l; cbn [String.concat]; [by rewrite str_app_nil_r|done]. Qed.

Lemma within_concat {A} (f : A → string) (x : A) (l : list A) :
  x ∈ l → within (f x) (String.concat EmptyString (map f l)).
Proof.
  induction l as [|y l IH]; [by intros ?%elem_of_nil|].
  cbn [map]. rewrite str_concat_cons.
  intros [->|Hin]%elem_of_cons; [apply within_here|].
  by apply within_app_r, IH.
Qed.

Lemma string_forall_impl (f g : ascii → bool) (s : string) :
  (∀ c, f c = true → g c = true) →
  string_forall f s = true → string_forall g s = true.
Proof.
  intros Hfg. induction s as [|c s IH]; [done|]. cbn [string_forall].
  intros [Hc Hs]%andb_true_iff. by rewrite (Hfg c Hc), IH.
Qed.

(** *** The identifiers of a created document *)

Lemma ears_entry (spec_id : string) (requirements : list string)
    (r : ears_requirement) :
  r ∈ ears_requirements_of spec_id requirements →
  snd (fst r) ∈ req_types
  ∧ ∃ number,
      fst (fst r) = generate_requirement_id spec_id (snd (fst r)) number.
Proof.
  unfold ears_requirements_of.
  intros (l & Hr & Hl)%ScannerFacts.elem_of_concat.
  apply list_elem_of_fmap in Hl as (t & -> & Ht).
  unfold numbered in Hr.
  apply list_elem_of_fmap in Hr as ([n x] & -> & _).
  split; [done|]. by exists n.
Qed.

Lemma generated_id_chars (spec_id req_type : string) (number : nat) :
  string_forall is_id_char spec_id = true → req_type ∈ req_types →
  string_forall is_id_char
    (generate_requirement_id spec_id req_type number) = true
  ∧ startswith "REQ-" (generate_requirement_id spec_id req_type number)
    = true.
Proof.
  intros Hsid Hkind. unfold generate_requirement_id. split.
  - rewrite !string_forall_app, Hsid.
    assert (Hnum : string_forall is_id_char (format_02d number) = true).
    { apply (string_forall_impl is_digit); [|apply format_02d_digits].
      intros c Hc. unfold is_id_char. rewrite Hc. by destruct (is_upper c). }
    rewrite Hnum. unfold req_types in Hkind.
    repeat (apply elem_of_cons in Hkind as [->|Hkind]; [done|]).
    by apply elem_of_nil in Hkind.
  - apply startswith_app.
Qed.

(** The line [create_spec] writes for an entry. *)
Definition requirement_line (r : ears_requirement) : string :=
  "- **" +:+ fst (fst r) +:+ "**: " +:+ snd r +:+ nl.

Lemma requirement_line_within (ears : list ears_requirement)
    (r : ears_requirement) :
  r ∈ ears → snd (fst r) ∈ req_types →
  within (requirement_line r)
         (String.concat EmptyString (map (requirement_section ears) req_types)).
Proof.
  intros Hr Hkind.
  apply (within_trans _ (requirement_section ears (snd (fst r))));
    [|by apply (within_concat (requirement_section ears))].
  unfold requirement_section.
  assert (Hin : r ∈ filter (fun r' => snd (fst r') = snd (fst r)) ears)
    by (by apply list_elem_of_filter).
  destruct (filter _ ears) as [|r0 l] eqn:Hf; [by apply elem_of_nil in Hin|].
  do 6 apply within_app_r. apply within_app_l.
  apply (within_concat requirement_line). exact Hin.
Qed.

Lemma created_line_within (self : AndroidSkillMatcher)
    (spec_id feature_name purpose : string) (requirements : list string)
    (matched_skills : list string) (author today : string)
    (r : ears_requirement) :
  r ∈ ears_requirements_of spec_id requirements →
  within (DocSyncerFacts.bolded " " (fst (fst r)))
         (create_spec self spec_id feature_name purpose requirements
            matched_skills author today).
Proof.
  intros Hr. destruct (ears_entry _ _ _ Hr) as [Hkind _].
  unfold create_spec, generate_spec_content.
  do 2 apply within_app_r. apply within_app_l.
  eapply within_trans; [|by apply requirement_line_within].
  exists EmptyString, (" " +:+ snd r +:+ nl).
  unfold requirement_line, DocSyncerFacts.bolded. by norm_app.
Qed.

Lemma bolded_parsed (content req_id : string) :
  within (DocSyncerFacts.bolded " " req_id) content →
  string_forall is_id_char req_id = true →
  startswith "REQ-" req_id = true →
  req_id ∈ DocSyncer.parse_requirements content.
Proof.
  intros (a & b & ->) Hchars Hreq.
  rewrite DocSyncerFacts.parse_requirements_line by done.
  apply elem_of_app. right. left.
Qed.

(** X17. What spec_builder writes, doc_syncer reads: when the spec
    identifier consists of capitals, digits and dashes, every
    requirement identifier [create_spec] generates is among those
    [parse_requirements] finds in the created document. *)
Theorem created_ids_parsed (self : AndroidSkillMatcher)
    (spec_id feature_name purpose : string) (requirements : list string)
    (matched_skills : list string) (author today : string)
    (r : ears_requirement) :
  string_forall is_id_char spec_id = true →
  r ∈ ears_requirements_of spec_id requirements →
  fst (fst r)
  ∈ DocSyncer.parse_requirements
      (create_spec self spec_id feature_name purpose requirements
         matched_skills author today).
Proof.
  intros Hsid Hr.
  destruct (ears_entry _ _ _ Hr) as [Hkind [number Hid]].
  destruct (generated_id_chars spec_id (snd (fst r)) number Hsid Hkind)
    as [Hchars Hreq].
  rewrite <- Hid in Hchars, Hreq.
  apply bolded_parsed; [by apply created_line_within|done..].
Qed.

Lemma created_ids_parsed_witness :
  fst (fst ("REQ-001-U-02", "U", "The system shall cache items"))
  ∈ DocSyncer.parse_requirements
      (create_spec skill_matcher "001" "Feed" "Show the feed"
         ["show a list"; "refresh when pulled"; "cache items"]
         ["android-compose-ui"] "dev" "2025-01-01").
Proof.
  apply (created_ids_parsed skill_matcher "001" "Feed" "Show the feed"
           ["show a list"; "refresh when pulled"; "cache items"]
           ["android-compose-ui"] "dev" "2025-01-01"
           ("REQ-001-U-02", "U", "The system shall cache items")).
  - reflexivity.
  - vm_compute. right. left.
Defined.

End PipelineFacts.

(** ** code_builder.py: what the parser returns *)

Module ParserFacts.
Import Text TextFacts SpecBuilder CodeBuilder NumberFacts.

Lemma digit_not_alpha_id (c : ascii) :
  is_digit c = true → is_alpha_id_char c = false.
Proof.
  unfold is_digit, is_alpha_id_char, is_upper, is_dash.
  intros [H1 H2]%andb_true_iff.
  apply Nat.leb_le in H1, H2.
  destruct (Ascii.eqb_spec c "-") as [->|_]; [vm_compute in H1; lia|].
  rewrite orb_false_r. apply andb_false_iff. left. apply Nat.leb_gt. lia.
Qed.

Lemma generated_id_has_digit (spec_id req_type : string) (number : nat) :
  string_forall is_alpha_id_char
    (generate_requirement_id spec_id req_type number) = false.
Proof.
  unfold generate_requirement_id. rewrite !string_forall_app.
  destruct (format_02d_digits number) as [Hdig Hne].
  destruct (format_02d number) as [|c s]; [done|].
  cbn [string_forall] in *. apply andb_true_iff in Hdig as [Hc _].
  rewrite (digit_not_alpha_id c Hc). cbn [andb]. by rewrite !andb_false_r.
Qed.

Lemma match_requirement_id (s req_id text rest : string) :
  match_requirement s = Some ((req_id, text), rest) →
  req_id ≠ EmptyString ∧ string_forall is_alpha_id_char req_id = true.
Proof.
  unfold match_requirement.
  destruct (after_literal "-" s) as [r1|]; [|done].
  destruct (span is_space r1) as [[|w ws] r2]; [done|].
  destruct (after_literal "**" r2) as [r3|]; [|done].
  pose proof (ScannerFacts.span_forall is_alpha_id_char r3) as Hid.
  destruct (span is_alpha_id_char r3) as [[|i req] r4]; [done|].
  destruct (after_literal "**:" r4) as [[|c r5]|]; [done| |done].
  destruct (is_space c); [|done].
  destruct (ws_then_line r5) as [[g2 rest']|]; [|done].
  intros [= <- _ _]. by split.
Qed.

Lemma search_kind_kind (s k : string) :
  search_kind s = Some k → k ∈ req_types.
Proof.
  induction s as [|c s IH]; [done|]. cbn [search_kind].
  destruct s as [|k0 [|c2 s]]; try exact IH.
  destruct (Ascii.eqb c "-" && is_kind_letter k0 && Ascii.eqb c2 "-")
    eqn:Hm; [|exact IH].
  intros [= <-].
  apply andb_true_iff in Hm as [[_ Hk]%andb_true_iff _].
  unfold is_kind_letter in Hk. cbn [existsb] in Hk. unfold req_types.
  repeat (apply orb_true_iff in Hk as [->%Ascii.eqb_eq|Hk]; [set_solver|]).
  done.
Qed.

(** X20. Every requirement [_extract_requirements] returns has a
    non-empty identifier of capitals and dashes and one of the five
    kinds.  An identifier holds no digit, so it is never one that
    [generate_requirement_id] produces. *)
Theorem extract_requirements_ids (content : string) (req : Requirement) :
  req ∈ extract_requirements content →
  id req ≠ EmptyString
  ∧ string_forall is_alpha_id_char (id req) = true
  ∧ type req ∈ req_types
  ∧ ∀ spec_id req_type number,
      id req ≠ generate_requirement_id spec_id req_type number.
Proof.
  unfold extract_requirements.
  intros ([req_id text] & -> & Hm)%list_elem_of_fmap.
  cbn [id type fst].
  apply ScannerFacts.findall_from_sound in Hm as (a & s' & rest & _ & Hm).
  apply match_requirement_id in Hm as [Hne Hchars].
  split; [done|]. split; [done|]. split.
  - destruct (search_kind req_id) as [k|] eqn:Hk; cbn [default].
    + by apply search_kind_kind in Hk.
    + unfold req_types. left.
  - intros spec_id req_type number Heq.
    rewrite Heq, generated_id_has_digit in Hchars. done.
Qed.

Lemma extract_requirements_ids_witness :
  let req := {| id := "REQ-LOGIN-E-A"; type := "E";
                description := "WHEN tapped, sign in" |} in
  id req ≠ EmptyString
  ∧ string_forall is_alpha_id_char (id req) = true
  ∧ type req ∈ req_types
  ∧ ∀ spec_id req_type number,
      id req ≠ generate_requirement_id spec_id req_type number.
Proof.
  apply (extract_requirements_ids
           "## Requirements
- **REQ-LOGIN-E-A**: WHEN tapped, sign in
- **REQ-001-U-01**: The system shall sign in
").
  vm_compute. left.
Defined.

(** *** The header, read by both parsers *)

(** X19. doc_syncer and code_builder read the header alike.  Where
    [parse] raises, [parse_metadata] returns an empty dictionary;
    otherwise each of the keys [spec_id], [feature], [status] and
    [version] is in the dictionary with the value of the parsed
    document, or is missing from it and the document has the
    default. *)
Theorem parsers_agree (content : string) :
  match parse content with
  | inl _ => DocSyncer.parse_metadata content = ∅
  | inr doc =>
      let metadata := DocSyncer.parse_metadata content in
      spec_id doc = default EmptyString (metadata !! "spec_id")
      ∧ feature doc = default EmptyString (metadata !! "feature")
      ∧ status doc = default "draft" (metadata !! "status")
      ∧ version doc = default "1.0.0" (metadata !! "version")
  end.
Proof.
  unfold parse, DocSyncer.parse_metadata.
  destruct (search_frontmatter content) as [fm|]; [|done].
  cbn [spec_id feature status version]. unfold extract_field.
  unfold DocSyncer.metadata_fields. cbn [foldl].
  destruct (search_field "spec_id" fm), (search_field "feature" fm),
    (search_field "version" fm), (search_field "status" fm);
    repeat split;
    repeat first [ rewrite lookup_insert_eq
                 | rewrite lookup_insert_ne by done
                 | rewrite lookup_empty ];
    reflexivity.
Qed.

(** X21. A header that lacks an optional key gives the default of
    that key: [draft] for the status, [1.0.0] for the version,
    [Unknown] for the author, the empty text for the date, and no
    related skill when the key [related_skills] is not followed by a
    line feed anywhere. *)
Theorem parse_defaults (content fm : string) :
  search_frontmatter content = Some fm →
  ∃ doc,
    parse content = inr doc
    ∧ (contains "status:" fm = false → status doc = "draft")
    ∧ (contains "version:" fm = false → version doc = "1.0.0")
    ∧ (contains "author:" fm = false → author doc = "Unknown")
    ∧ (contains "date:" fm = false → date doc = EmptyString)
    ∧ (contains ("related_skills:" +:+ nl) fm = false →
       related_skills doc = []).
Proof.
  intros Hfm. unfold parse. rewrite Hfm. eexists. split; [reflexivity|].
  cbn [status version author date related_skills].
  repeat split; intros Habsent.
  - by apply (CodeBuilderFacts.extract_field_absent fm "status").
  - by apply (CodeBuilderFacts.extract_field_absent fm "version").
  - by apply (CodeBuilderFacts.extract_field_absent fm "author").
  - by apply (CodeBuilderFacts.extract_field_absent fm "date").
  - unfold parse_related_skills, search_skills.
    apply MatrixFacts.lazy_until_none in Habsent. by rewrite Habsent.
Qed.

Lemma parse_defaults_witness :
  ∃ doc,
    parse "---
spec_id: SPEC-001
---
" = inr doc
    ∧ (contains "status:" "spec_id: SPEC-001" = false → status doc = "draft")
    ∧ (contains "version:" "spec_id: SPEC-001" = false →
       version doc = "1.0.0")
    ∧ (contains "author:" "spec_id: SPEC-001" = false →
       author doc = "Unknown")
    ∧ (contains "date:" "spec_id: SPEC-001" = false → date doc = EmptyString)
    ∧ (contains ("related_skills:" +:+ nl) "spec_id: SPEC-001" = false →
       related_skills doc = []).
Proof.
  apply (parse_defaults "---
spec_id: SPEC-001
---
" "spec_id: SPEC-001").
  vm_compute. reflexivity.
Defined.

(** *** The header of a created document, read by doc_syncer *)

Lemma metadata_lookup (content fm field : string) :
  search_frontmatter content = Some fm →
  field ∈ DocSyncer.metadata_fields →
  DocSyncer.parse_metadata content !! field
  = strip <$> search_field field fm.
Proof.
  intros Hfm Hfield. unfold DocSyncer.parse_metadata. rewrite Hfm.
  unfold DocSyncer.metadata_fields in *. cbn [foldl].
  repeat (apply elem_of_cons in Hfield as [->|Hfield];
          [destruct (search_field "spec_id" fm), (search_field "feature" fm),
             (search_field "version" fm), (search_field "status" fm);
           cbn [fmap option_fmap option_map];
           repeat first [ rewrite lookup_insert_eq
                        | rewrite lookup_insert_ne by done
                        | rewrite lookup_empty ];
           reflexivity|]).
  by apply elem_of_nil in Hfield.
Qed.

Lemma extract_field_found (fm field value fallback : string) :
  extract_field fm field EmptyString = value → value ≠ EmptyString →
  default fallback (strip <$> search_field field fm) = value.
Proof.
  unfold extract_field.
  destruct (search_field field fm); simpl; congruence.
Qed.

Lemma strip_nonempty (c : ascii) (s : string) :
  is_space c = false → strip (String c s) ≠ EmptyString.
Proof.
  intros Hc. unfold strip. cbn [lstrip]. rewrite Hc. cbn [rstrip].
  destruct (rstrip s); by rewrite ?Hc.
Qed.

Lemma created_frontmatter (self : AndroidSkillMatcher)
    (spec_id feature_name purpose : string)
    (requirements matched_skills : list string) (author today : string) :
  string_forall not_newline spec_id = true →
  string_forall not_newline feature_name = true →
  ∃ g,
    search_frontmatter
      (create_spec self spec_id feature_name purpose requirements
         matched_skills author today)
    = Some (("spec_id: SPEC-" +:+ spec_id)
              +:+ String newline
                    (("feature: " +:+ feature_name) +:+ String newline g)).
Proof.
  intros Hsid Hfname.
  unfold create_spec, generate_spec_content.
  rewrite CodeBuilderFacts.frontmatter_text_shape.
  set (tail := nl +:+ nl +:+ _).
  set (hr := CodeBuilderFacts.header_rest author today matched_skills).
  rewrite search_frontmatter_eq, after_literal_app.
  assert (Hl1 : occurs newline ("spec_id: SPEC-" +:+ spec_id) = false).
  { apply occurs_forall_not_newline. by rewrite string_forall_app, Hsid. }
  assert (Hl2 : occurs newline ("feature: " +:+ feature_name) = false).
  { apply occurs_forall_not_newline. by rewrite string_forall_app, Hfname. }
  unfold nl at 1. rewrite str_app_cons, str_app_nil_l.
  rewrite (lazy_until_skip newline "---" _ _ Hl1).
  rewrite lazy_until_step by done.
  rewrite (lazy_until_skip newline "---" _ _ Hl2).
  rewrite lazy_until_step by done.
  destruct (lazy_until_complete (String newline "---") ("s" +:+ hr) tail)
    as [[g r] Hg].
  change (nl +:+ "---") with (String newline "---").
  rewrite Hg. cbn [option_map fst snd]. by exists g.
Qed.

(** X18. What spec_builder writes, doc_syncer reports: for a spec
    identifier and a feature name without line feed, carriage return
    or white space beyond ASCII, where the identifier does not
    contain the text [feature:] and the name has a character that is
    not whitespace, the report [verify] computes for the created
    document, read in text mode, names the spec [SPEC-] followed by
    the identifier and the feature by its name, both without
    surrounding whitespace, whatever the code tree. *)
Theorem verify_created_header (self : AndroidSkillMatcher)
    (spec_id feature_name purpose : string)
    (requirements matched_skills : list string) (author today : string)
    (d : DocSyncer.CodeDir) :
  string_forall no_line_end spec_id = true →
  no_unicode_space spec_id = true →
  contains "feature:" spec_id = false →
  string_forall no_line_end feature_name = true →
  no_unicode_space feature_name = true →
  strip feature_name ≠ EmptyString →
  let report :=
    DocSyncer.verify
      (DocSyncer.universal_newlines
         (create_spec self spec_id feature_name purpose requirements
            matched_skills author today)) d in
  DocSyncer.spec_id report = strip ("SPEC-" +:+ spec_id)
  ∧ DocSyncer.feature report = strip feature_name.
Proof.
  intros Hsid _ Hkey Hfname _ Hname.
  destruct (CodeBuilderFacts.created_frontmatter_read self spec_id feature_name purpose
              requirements matched_skills author today Hsid Hfname)
    as [g Hfm].
  apply no_line_end_not_newline in Hsid, Hfname.
  cbn [DocSyncer.verify DocSyncer.spec_id DocSyncer.feature].
  rewrite !(metadata_lookup _ _ _ Hfm)
    by (unfold DocSyncer.metadata_fields; set_solver).
  split; apply extract_field_found.
  - by apply CodeBuilderFacts.created_spec_id.
  - by apply strip_nonempty.
  - by apply CodeBuilderFacts.created_feature.
  - done.
Qed.

Lemma verify_created_header_witness :
  let report :=
    DocSyncer.verify
      (DocSyncer.universal_newlines
         (create_spec skill_matcher "001" "Login" "Sign users in"
            ["log the user in"] ["android-compose-ui"] "dev" "2025-01-01"))
      DocSyncerFacts.empty_tree in
  DocSyncer.spec_id report = strip ("SPEC-" +:+ "001")
  ∧ DocSyncer.feature report = strip "Login".
Proof.
  apply (verify_created_header skill_matcher "001" "Login" "Sign users in"
           ["log the user in"] ["android-compose-ui"] "dev" "2025-01-01"
           DocSyncerFacts.empty_tree);
    first [reflexivity | discriminate].
Defined.
End ParserFacts.

(** ** From code_builder.py to doc_syncer.py: annotations in generated code *)

Module GeneratedCodeFacts.
Import Text TextFacts DocSyncer CodeBuilder.

(** *** Looking for a requirement annotation *)

(** How far a reader has come in the text [//], whitespace, [REQ-]:
    nothing, one slash, both slashes, whitespace after them, the
    letters, all of it. *)
Inductive state :=
| Idle | Slash | Open | Spaced | SeenR | SeenRE | SeenREQ | Found.

#[local] Instance state_eq_dec : EqDecision state.
Proof. solve_decision. Defined.

Definition step (q : state) (c : ascii) : state :=
  match q with
  | Found => Found
  | _ =>
      if Ascii.eqb c "/" then
        match q with Idle => Slash | Slash | Open => Open | _ => Slash end
      else if is_space c then
        match q with Open | Spaced => Spaced | _ => Idle end
      else if Ascii.eqb c "R" then
        match q with Open | Spaced => SeenR | _ => Idle end
      else if Ascii.eqb c "E" then
        match q with SeenR => SeenRE | _ => Idle end
      else if Ascii.eqb c "Q" then
        match q with SeenRE => SeenREQ | _ => Idle end
      else if Ascii.eqb c "-" then
        match q with SeenREQ => Found | _ => Idle end
      else Idle
  end.

Fixpoint run (q : state) (s : string) : state :=
  match s with
  | EmptyString => q
  | String c s' => run (step q c) s'
  end.

Lemma run_app (q : state) (a b : string) :
  run q (a +:+ b) = run (run q a) b.
Proof.
  revert q. induction a as [|c a IH]; intros q; [done|].
  rewrite str_app_cons. apply IH.
Qed.

Lemma run_found (s : string) : run Found s = Found.
Proof. induction s as [|c s IH]; [done|exact IH]. Qed.

Lemma space_not_slash (c : ascii) :
  is_space c = true → Ascii.eqb c "/" = false.
Proof.
  intros Hc. destruct (Ascii.eqb_spec c "/") as [->|]; [|done].
  vm_compute in Hc. discriminate.
Qed.

Lemma run_spaces (q : state) (ws : string) :
  q = Open ∨ q = Spaced → string_forall is_space ws = true →
  run q ws = Open ∨ run q ws = Spaced.
Proof.
  revert q. induction ws as [|c ws IH]; intros q Hq; [done|].
  cbn [string_forall run]. intros [Hc Hws]%andb_true_iff.
  apply IH; [|done]. right. unfold step.
  rewrite (space_not_slash c Hc), Hc. by destruct Hq as [-> | ->].
Qed.

(** The reader finds the text wherever it stands. *)
Lemma run_complete (q : state) (a ws b : string) :
  string_forall is_space ws = true →
  run q (a +:+ "//" +:+ ws +:+ "REQ-" +:+ b) = Found.
Proof.
  intros Hws. rewrite !run_app.
  assert (Hopen : run (run q a) "//" = Open ∨ run (run q a) "//" = Found)
    by (destruct (run q a); vm_compute; tauto).
  destruct Hopen as [-> | ->]; [|by rewrite !run_found].
  destruct (run_spaces Open ws) as [-> | ->]; [by left|done|..];
    apply run_found.
Qed.

(** *** Texts put into a template *)

Definition no_slash (s : string) : bool :=
  string_forall (fun c => negb (Ascii.eqb c "/")) s.

Lemma step_other (q : state) (c : ascii) :
  Ascii.eqb c "/" = false → q ≠ Found →
  step q c = Idle
  ∨ (step q c = Spaced ∧ is_space c = true ∧ (q = Open ∨ q = Spaced))
  ∨ (step q c = SeenR ∧ c = "R"%char ∧ is_space c = false
     ∧ (q = Open ∨ q = Spaced))
  ∨ (step q c = SeenRE ∧ c = "E"%char ∧ q = SeenR)
  ∨ (step q c = SeenREQ ∧ c = "Q"%char ∧ q = SeenRE)
  ∨ (step q c = Found ∧ c = "-"%char ∧ q = SeenREQ).
Proof.
  intros Hc Hq. unfold step. rewrite Hc.
  destruct (is_space c) eqn:Hs; [destruct q; tauto|].
  destruct (Ascii.eqb_spec c "R") as [->|_]; [destruct q; tauto|].
  destruct (Ascii.eqb_spec c "E") as [->|_]; [destruct q; tauto|].
  destruct (Ascii.eqb_spec c "Q") as [->|_]; [destruct q; tauto|].
  destruct (Ascii.eqb_spec c "-") as [->|_]; destruct q; tauto.
Qed.

Lemma step_idle (c : ascii) : Ascii.eqb c "/" = false → step Idle c = Idle.
Proof.
  intros Hc. unfold step. rewrite Hc.
  repeat match goal with
         | |- context [if ?b then _ else _] => destruct b
         end; done.
Qed.

Lemma step_slash (c : ascii) : Ascii.eqb c "/" = false → step Slash c = Idle.
Proof.
  intros Hc. unfold step. rewrite Hc.
  repeat match goal with
         | |- context [if ?b then _ else _] => destruct b
         end; done.
Qed.

Lemma run_idle_clean (v : string) : no_slash v = true → run Idle v = Idle.
Proof.
  induction v as [|c v IH]; [done|]. unfold no_slash. cbn [string_forall run].
  intros [Hc Hv]%andb_true_iff. apply negb_true_iff in Hc.
  rewrite step_idle by done. by apply IH.
Qed.

Lemma run_slash_clean (v : string) :
  no_slash v = true → run Slash v = Idle ∨ run Slash v = Slash.
Proof.
  destruct v as [|c v]; [by right|]. unfold no_slash. cbn [string_forall run].
  intros [Hc Hv]%andb_true_iff. apply negb_true_iff in Hc. left.
  rewrite step_slash by done. by apply run_idle_clean.
Qed.

Lemma run_after_letters (q : state) (word v : string) :
  (q = SeenR ∧ word = "EQ-") ∨ (q = SeenRE ∧ word = "Q-")
  ∨ (q = SeenREQ ∧ word = "-") →
  no_slash v = true → startswith word v = false → run q v ≠ Found.
Proof.
  revert q word. induction v as [|c v IH]; intros q word Hq.
  - intros _ _. by destruct Hq as [[-> _]|[[-> _]|[-> _]]].
  - unfold no_slash. cbn [string_forall run].
    intros [Hc Hv]%andb_true_iff Hw. apply negb_true_iff in Hc.
    assert (Hidle : run Idle v ≠ Found) by (by rewrite run_idle_clean).
    assert (Hlive : q ≠ Found) by (by destruct Hq as [[-> _]|[[-> _]|[-> _]]]).
    destruct (step_other q c Hc Hlive) as [->|H]; [done|].
    destruct H as [H|[H|[H|[H|H]]]].
    + destruct H as (_ & _ & [-> | ->]);
        by destruct Hq as [[? _]|[[? _]|[? _]]].
    + destruct H as (_ & _ & _ & [-> | ->]);
        by destruct Hq as [[? _]|[[? _]|[? _]]].
    + destruct H as (-> & -> & ->).
      destruct Hq as [[_ ->]|[[? _]|[? _]]]; [|done..].
      apply (IH SeenRE "Q-"); [tauto|done|exact Hw].
    + destruct H as (-> & -> & ->).
      destruct Hq as [[? _]|[[_ ->]|[? _]]]; [done| |done].
      apply (IH SeenREQ "-"); [tauto|done|exact Hw].
    + destruct H as (_ & -> & ->).
      destruct Hq as [[? _]|[[? _]|[_ ->]]]; [done..|].
      by vm_compute in Hw.
Qed.

Lemma run_identifier (q : state) (v : string) :
  q = Open ∨ q = Spaced →
  no_slash v = true → startswith "REQ-" (lstrip v) = false →
  run q v ≠ Found.
Proof.
  revert q. induction v as [|c v IH]; intros q Hq.
  - intros _ _. by destruct Hq as [-> | ->].
  - unfold no_slash. cbn [string_forall run lstrip].
    intros [Hc Hv]%andb_true_iff Hw. apply negb_true_iff in Hc.
    assert (Hidle : run Idle v ≠ Found) by (by rewrite run_idle_clean).
    assert (Hlive : q ≠ Found) by (by destruct Hq as [-> | ->]).
    destruct (step_other q c Hc Hlive) as [->|H]; [done|].
    destruct H as [H|[H|[H|[H|H]]]].
    + destruct H as (-> & Hs & _). rewrite Hs in Hw.
      apply IH; [by right|done..].
    + destruct H as (-> & -> & Hs & _). rewrite Hs in Hw.
      apply (run_after_letters SeenR "EQ-"); [tauto|done|exact Hw].
    + destruct H as (_ & _ & ->). by destruct Hq.
    + destruct H as (_ & _ & ->). by destruct Hq.
    + destruct H as (_ & _ & ->). by destruct Hq.
Qed.

Lemma run_prose (v : string) :
  contains "//" v = false →
  (run Idle v = Idle ∨ run Idle v = Slash)
  ∧ (startswith "/" v = false → run Slash v = Idle ∨ run Slash v = Slash).
Proof.
  induction v as [|c v IH]; [by split; [left|right]|].
  intros [Hhere Hv]%contains_false_inv. specialize (IH Hv) as [IH1 IH2].
  cbn [run]. destruct (Ascii.eqb_spec c "/") as [->|Hc].
  - split; [|by intros ?]. change (step Idle "/") with Slash. apply IH2.
    destruct v as [|c' v]; [done|]. cbn [startswith] in Hhere |- *.
    change (Ascii.eqb "/" "/") with true in Hhere. exact Hhere.
  - apply Ascii.eqb_neq in Hc.
    assert (H1 := step_idle c Hc). assert (H2 := step_slash c Hc).
    rewrite H1, H2. by split.
Qed.

(** *** Templates *)

(** What is known of a text put into a template: it has no slash; it
    has no slash and does not begin, after whitespace, with [REQ-]; it
    has no two slashes in a row. *)
Inductive kind := Clean | Identifier | Prose.

Inductive piece :=
| Lit (s : string)
| Hole (k : kind) (v : string).

Definition value (p : piece) : string :=
  match p with Lit s => s | Hole _ v => v end.

Fixpoint denote (ps : list piece) : string :=
  match ps with
  | [] => EmptyString
  | p :: ps' =>
      match ps' with
      | [] => value p
      | _ => value p +:+ denote ps'
      end
  end.

Definition holds (p : piece) : bool :=
  match p with
  | Lit _ => true
  | Hole Clean v => no_slash v
  | Hole Identifier v =>
      no_slash v && negb (startswith "REQ-" (lstrip v))
  | Hole Prose v => negb (contains "//" v)
  end.

Definition live : list state :=
  [Idle; Slash; Open; Spaced; SeenR; SeenRE; SeenREQ].

(** Where the reader can be after a text of kind [k] when it was in
    [q] before; [None] when it might have found the annotation. *)
Definition after_hole (k : kind) (q : state) : option (list state) :=
  match k, q with
  | (Clean | Identifier), Idle => Some [Idle]
  | (Clean | Identifier), Slash => Some [Idle; Slash]
  | Identifier, (Open | Spaced) => Some live
  | Prose, Idle => Some [Idle; Slash]
  | _, _ => None
  end.

Fixpoint after_holes (k : kind) (Q : list state) : option (list state) :=
  match Q with
  | [] => Some []
  | q :: Q' =>
      match after_hole k q, after_holes k Q' with
      | Some a, Some b => Some (a ++ b)
      | _, _ => None
      end
  end.

(** The states the reader can be in after the template, from one of
    [Q]; [None] when it might have found the annotation. *)
Fixpoint arun (Q : list state) (ps : list piece) : option (list state) :=
  match ps with
  | [] => Some Q
  | Lit s :: ps' =>
      let Q' := remove_dups (map (fun q => run q s) Q) in
      if bool_decide (Found ∈ Q') then None else arun Q' ps'
  | Hole k _ :: ps' =>
      match after_holes k Q with
      | Some Q' => arun (remove_dups Q') ps'
      | None => None
      end
  end.

Definition checked (ps : list piece) : bool :=
  match arun [Idle] ps with Some _ => true | None => false end.

Lemma denote_cons (p : piece) (ps : list piece) :
  denote (p :: ps) = value p +:+ denote ps.
Proof. destruct ps; [by rewrite str_app_nil_r|done]. Qed.

Lemma after_hole_sound (k : kind) (q : state) (v : string) (L : list state) :
  after_hole k q = Some L → holds (Hole k v) = true →
  run q v ∈ L ∧ Found ∉ L.
Proof.
  assert (Hlive : ∀ q', q' ≠ Found → q' ∈ live)
    by (intros []; unfold live; set_solver).
  destruct k, q; try done; intros [= <-]; cbn [holds]; intros Hv;
    (split; [|unfold live; set_solver]).
  - rewrite run_idle_clean by done. set_solver.
  - destruct (run_slash_clean v Hv) as [-> | ->]; set_solver.
  - apply andb_true_iff in Hv as [Hv _].
    rewrite run_idle_clean by done. set_solver.
  - apply andb_true_iff in Hv as [Hv _].
    destruct (run_slash_clean v Hv) as [-> | ->]; set_solver.
  - apply andb_true_iff in Hv as [Hv Hw%negb_true_iff].
    apply Hlive, run_identifier; [by left|done..].
  - apply andb_true_iff in Hv as [Hv Hw%negb_true_iff].
    apply Hlive, run_identifier; [by right|done..].
  - apply negb_true_iff in Hv.
    destruct (run_prose v Hv) as [[-> | ->] _]; set_solver.
Qed.

Lemma after_holes_sound (k : kind) (v : string) (Q L : list state) :
  after_holes k Q = Some L → holds (Hole k v) = true →
  (Found ∉ L) ∧ ∀ q, q ∈ Q → run q v ∈ L.
Proof.
  intros HL Hv. revert L HL. induction Q as [|q0 Q IH]; intros L.
  - intros [= <-]. split; [set_solver|]. by intros q ?%elem_of_nil.
  - cbn [after_holes].
    destruct (after_hole k q0) as [a|] eqn:Ha; [|done].
    destruct (after_holes k Q) as [b|]; [|done]. intros [= <-].
    destruct (after_hole_sound k q0 v a Ha Hv) as [Hin Hno].
    destruct (IH b eq_refl) as [Hnob Hall]. split; [set_solver|].
    intros q [->|Hq]%elem_of_cons; apply elem_of_app; [by left|].
    right. by apply Hall.
Qed.

Lemma arun_sound (ps : list piece) (Q Q' : list state) :
  arun Q ps = Some Q' → forallb holds ps = true → Found ∉ Q →
  ∀ q, q ∈ Q → run q (denote ps) ≠ Found.
Proof.
  revert Q. induction ps as [|p ps IH]; intros Q.
  - intros _ _ HQ q Hq Heq. simpl in Heq. by subst.
  - intros Hrun [Hp Hps]%andb_true_iff HQ q Hq.
    rewrite denote_cons, run_app. destruct p as [s|k v]; cbn [arun value] in *.
    + destruct (bool_decide_reflect
                  (Found ∈ remove_dups (map (fun q => run q s) Q)))
        as [|Hno]; [done|].
      apply (IH _ Hrun Hps Hno).
      apply elem_of_remove_dups, list_elem_of_fmap. by exists q.
    + destruct (after_holes k Q) as [L|] eqn:HL; [|done].
      destruct (after_holes_sound k v Q L HL Hp) as [Hno Hall].
      apply (IH _ Hrun Hps).
      * by rewrite elem_of_remove_dups.
      * apply elem_of_remove_dups. by apply Hall.
Qed.

(** A template that passes the check has no requirement annotation,
    whatever texts of the right kinds are put into it. *)
Lemma checked_sound (ps : list piece) :
  checked ps = true → forallb holds ps = true →
  run Idle (denote ps) ≠ Found.
Proof.
  unfold checked. destruct (arun [Idle] ps) as [Q'|] eqn:Hrun; [|done].
  intros _ Hps. apply (arun_sound ps [Idle] Q' Hrun Hps); set_solver.
Qed.

(** *** The templates of code_builder.py *)

Definition generate_domain_model_pieces (self : CodeGenerator) : list piece :=
  [Lit ("package ");
   Hole Clean (package_name self);
   Lit (".domain.model

// ");
   Hole Identifier (spec_id (spec self));
   Lit (": ");
   Hole Clean (feature (spec self));
   Lit ("
// Purpose: ");
   Hole Prose (purpose (spec self));
   Lit ("
data class ");
   Hole Clean (feature_name self);
   Lit ("(
    val id: String,
    // TODO: Add properties based on SPEC requirements
)
")].

Definition generate_repository_interface_pieces (self : CodeGenerator) : list piece :=
  [Lit ("package ");
   Hole Clean (package_name self);
   Lit (".domain.repository

import ");
   Hole Clean (package_name self);
   Lit (".domain.model.");
   Hole Clean (feature_name self);
   Lit ("

// ");
   Hole Identifier (spec_id (spec self));
   Lit (": Repository interface
interface ");
   Hole Clean (feature_name self);
   Lit ("Repository {
    suspend fun get");
   Hole Clean (feature_name self);
   Lit ("(id: String): Result<");
   Hole Clean (feature_name self);
   Lit (">
    // TODO: Add methods based on SPEC requirements
}
")].

Definition usecase_code_pieces (self : CodeGenerator) : list piece :=
  [Lit ("package ");
   Hole Clean (package_name self);
   Lit (".domain.usecase

import ");
   Hole Clean (package_name self);
   Lit (".domain.model.");
   Hole Clean (feature_name self);
   Lit ("
import ");
   Hole Clean (package_name self);
   Lit (".domain.repository.");
   Hole Clean (feature_name self);
   Lit ("Repository
import javax.inject.Inject

// ");
   Hole Identifier (spec_id (spec self));
   Lit (": Get ");
   Hole Clean (feature_name self);
   Lit (" use case
class ");
   Hole Clean (usecase_name self);
   Lit (" @Inject constructor(
    private val repository: ");
   Hole Clean (feature_name self);
   Lit ("Repository
) {
    suspend operator fun invoke(id: String): Result<");
   Hole Clean (feature_name self);
   Lit ("> {
        return repository.get");
   Hole Clean (feature_name self);
   Lit ("(id)
    }
}
")].

Definition generate_api_interface_pieces (self : CodeGenerator) : list piece :=
  [Lit ("package ");
   Hole Clean (package_name self);
   Lit (".data.remote

import ");
   Hole Clean (package_name self);
   Lit (".data.remote.");
   Hole Clean (feature_name self);
   Lit ("Dto
import retrofit2.Response
import retrofit2.http.GET
import retrofit2.http.Path

// ");
   Hole Identifier (spec_id (spec self));
   Lit (": API interface
interface ");
   Hole Clean (feature_name self);
   Lit ("Api {
    @GET(" +:+ dquote +:+ "api/");
   Hole Clean (lower (feature_name self));
   Lit ("/{id}" +:+ dquote +:+ ")
    suspend fun get");
   Hole Clean (feature_name self);
   Lit ("(@Path(" +:+ dquote +:+ "id" +:+ dquote +:+ ") id: String): Response<");
   Hole Clean (feature_name self);
   Lit ("Dto>
}
")].

Definition generate_dtos_pieces (self : CodeGenerator) : list piece :=
  [Lit ("package ");
   Hole Clean (package_name self);
   Lit (".data.remote

import ");
   Hole Clean (package_name self);
   Lit (".domain.model.");
   Hole Clean (feature_name self);
   Lit ("
import kotlinx.serialization.Serializable

// ");
   Hole Identifier (spec_id (spec self));
   Lit (": Data transfer object
@Serializable
data class ");
   Hole Clean (feature_name self);
   Lit ("Dto(
    val id: String,
    // TODO: Add fields based on SPEC
)

// ");
   Hole Identifier (spec_id (spec self));
   Lit (": Mapper from DTO to Domain
fun ");
   Hole Clean (feature_name self);
   Lit ("Dto.toDomain(): ");
   Hole Clean (feature_name self);
   Lit (" = ");
   Hole Clean (feature_name self);
   Lit ("(
    id = id,
    // TODO: Map fields
)
")].

Definition generate_repository_implementation_pieces (self : CodeGenerator) : list piece :=
  [Lit ("package ");
   Hole Clean (package_name self);
   Lit (".data.repository

import ");
   Hole Clean (package_name self);
   Lit (".data.remote.");
   Hole Clean (feature_name self);
   Lit ("Api
import ");
   Hole Clean (package_name self);
   Lit (".data.remote.toDomain
import ");
   Hole Clean (package_name self);
   Lit (".domain.model.");
   Hole Clean (feature_name self);
   Lit ("
import ");
   Hole Clean (package_name self);
   Lit (".domain.repository.");
   Hole Clean (feature_name self);
   Lit ("Repository
import javax.inject.Inject

// ");
   Hole Identifier (spec_id (spec self));
   Lit (": Repository implementation
class ");
   Hole Clean (feature_name self);
   Lit ("RepositoryImpl @Inject constructor(
    private val api: ");
   Hole Clean (feature_name self);
   Lit ("Api,
) : ");
   Hole Clean (feature_name self);
   Lit ("Repository {

    override suspend fun get");
   Hole Clean (feature_name self);
   Lit ("(id: String): Result<");
   Hole Clean (feature_name self);
   Lit ("> {
        return try {
            val response = api.get");
   Hole Clean (feature_name self);
   Lit ("(id)
            if (response.isSuccessful) {
                response.body()?.let {
                    Result.success(it.toDomain())
                } ?: Result.failure(Exception(" +:+ dquote +:+ "Empty response" +:+ dquote +:+ "))
            } else {
                Result.failure(Exception(" +:+ dquote +:+ "Error: ${response.code()}" +:+ dquote +:+ "))
            }
        } catch (e: Exception) {
            Result.failure(e)
        }
    }
}
")].

Definition generate_state_pieces (self : CodeGenerator) : list piece :=
  [Lit ("package ");
   Hole Clean (package_name self);
   Lit (".presentation.state

import ");
   Hole Clean (package_name self);
   Lit (".domain.model.");
   Hole Clean (feature_name self);
   Lit ("

// ");
   Hole Identifier (spec_id (spec self));
   Lit (": Screen state
data class ");
   Hole Clean (feature_name self);
   Lit ("State(
    val isLoading: Boolean = false,
    val data: ");
   Hole Clean (feature_name self);
   Lit ("? = null,
    val error: String? = null,
)

// ");
   Hole Identifier (spec_id (spec self));
   Lit (": User actions
sealed interface ");
   Hole Clean (feature_name self);
   Lit ("Action {
    data class Load(val id: String) : ");
   Hole Clean (feature_name self);
   Lit ("Action
}

// ");
   Hole Identifier (spec_id (spec self));
   Lit (": One-time events
sealed interface ");
   Hole Clean (feature_name self);
   Lit ("Event {
    data class ShowError(val message: String) : ");
   Hole Clean (feature_name self);
   Lit ("Event
}
")].

Definition generate_viewmodel_pieces (self : CodeGenerator) : list piece :=
  [Lit ("package ");
   Hole Clean (package_name self);
   Lit (".presentation.viewmodel

import androidx.lifecycle.ViewModel
import androidx.lifecycle.viewModelScope
import ");
   Hole Clean (package_name self);
   Lit (".domain.usecase.Get");
   Hole Clean (feature_name self);
   Lit ("UseCase
import ");
   Hole Clean (package_name self);
   Lit (".presentation.state.");
   Hole Clean (feature_name self);
   Lit ("Action
import ");
   Hole Clean (package_name self);
   Lit (".presentation.state.");
   Hole Clean (feature_name self);
   Lit ("Event
import ");
   Hole Clean (package_name self);
   Lit (".presentation.state.");
   Hole Clean (feature_name self);
   Lit ("State
import dagger.hilt.android.lifecycle.HiltViewModel
import kotlinx.coroutines.channels.Channel
import kotlinx.coroutines.flow.*
import kotlinx.coroutines.launch
import javax.inject.Inject

// ");
   Hole Identifier (spec_id (spec self));
   Lit (": ViewModel
@HiltViewModel
class ");
   Hole Clean (feature_name self);
   Lit ("ViewModel @Inject constructor(
    private val get");
   Hole Clean (feature_name self);
   Lit ("UseCase: Get");
   Hole Clean (feature_name self);
   Lit ("UseCase,
) : ViewModel() {

    private val _state = MutableStateFlow(");
   Hole Clean (feature_name self);
   Lit ("State())
    val state: StateFlow<");
   Hole Clean (feature_name self);
   Lit ("State> = _state.asStateFlow()

    private val _events = Channel<");
   Hole Clean (feature_name self);
   Lit ("Event>()
    val events = _events.receiveAsFlow()

    fun onAction(action: ");
   Hole Clean (feature_name self);
   Lit ("Action) {
        when (action) {
            is ");
   Hole Clean (feature_name self);
   Lit ("Action.Load -> load(action.id)
        }
    }

    private fun load(id: String) {
        viewModelScope.launch {
            _state.update { it.copy(isLoading = true, error = null) }

            get");
   Hole Clean (feature_name self);
   Lit ("UseCase(id)
                .onSuccess { data ->
                    _state.update { it.copy(isLoading = false, data = data) }
                }
                .onFailure { error ->
                    _state.update { it.copy(isLoading = false, error = error.message) }
                    _events.send(");
   Hole Clean (feature_name self);
   Lit ("Event.ShowError(error.message ?: " +:+ dquote +:+ "Unknown error" +:+ dquote +:+ "))
                }
        }
    }
}
")].

Definition generate_screen_pieces (self : CodeGenerator) : list piece :=
  [Lit ("package ");
   Hole Clean (package_name self);
   Lit (".presentation.ui

import androidx.compose.foundation.layout.*
import androidx.compose.material3.*
import androidx.compose.runtime.*
import androidx.compose.ui.Alignment
import androidx.compose.ui.Modifier
import androidx.compose.ui.unit.dp
import androidx.hilt.navigation.compose.hiltViewModel
import androidx.lifecycle.compose.collectAsStateWithLifecycle
import ");
   Hole Clean (package_name self);
   Lit (".presentation.state.");
   Hole Clean (feature_name self);
   Lit ("Action
import ");
   Hole Clean (package_name self);
   Lit (".presentation.state.");
   Hole Clean (feature_name self);
   Lit ("Event
import ");
   Hole Clean (package_name self);
   Lit (".presentation.viewmodel.");
   Hole Clean (feature_name self);
   Lit ("ViewModel

// ");
   Hole Identifier (spec_id (spec self));
   Lit (": Screen
@Composable
fun ");
   Hole Clean (feature_name self);
   Lit ("Screen(
    viewModel: ");
   Hole Clean (feature_name self);
   Lit ("ViewModel = hiltViewModel(),
) {
    val state by viewModel.state.collectAsStateWithLifecycle()

    LaunchedEffect(Unit) {
        viewModel.events.collect { event ->
            when (event) {
                is ");
   Hole Clean (feature_name self);
   Lit ("Event.ShowError -> {
                    // TODO: Show snackbar or toast
                }
            }
        }
    }

    ");
   Hole Clean (feature_name self);
   Lit ("Content(
        state = state,
        onAction = viewModel::onAction,
    )
}

@Composable
private fun ");
   Hole Clean (feature_name self);
   Lit ("Content(
    state: ");
   Hole Clean (replace " " EmptyString (feature (spec self)));
   Lit ("State,
    onAction: (");
   Hole Clean (feature_name self);
   Lit ("Action) -> Unit,
) {
    Column(
        modifier = Modifier
            .fillMaxSize()
            .padding(16.dp),
        horizontalAlignment = Alignment.CenterHorizontally,
        verticalArrangement = Arrangement.Center,
    ) {
        when {
            state.isLoading -> CircularProgressIndicator()
            state.error != null -> Text(" +:+ dquote +:+ "Error: ${state.error}" +:+ dquote +:+ ")
            state.data != null -> Text(" +:+ dquote +:+ "Data: ${state.data}" +:+ dquote +:+ ")
            else -> Text(" +:+ dquote +:+ "No data" +:+ dquote +:+ ")
        }
    }
}
")].

Definition generate_unit_tests_pieces (self : CodeGenerator) : list piece :=
  [Lit ("package ");
   Hole Clean (package_name self);
   Lit (".domain

import ");
   Hole Clean (package_name self);
   Lit (".domain.model.");
   Hole Clean (feature_name self);
   Lit ("
import ");
   Hole Clean (package_name self);
   Lit (".domain.repository.");
   Hole Clean (feature_name self);
   Lit ("Repository
import ");
   Hole Clean (package_name self);
   Lit (".domain.usecase.Get");
   Hole Clean (feature_name self);
   Lit ("UseCase
import kotlinx.coroutines.test.runTest
import org.junit.Before
import org.junit.Test
import org.mockito.Mock
import org.mockito.Mockito.`when`
import org.mockito.MockitoAnnotations
import kotlin.test.assertTrue

// TEST-");
   Hole Identifier (spec_id (spec self));
   Lit ("-U-01: Test Get");
   Hole Clean (feature_name self);
   Lit ("UseCase
class ");
   Hole Clean (feature_name self);
   Lit ("UseCaseTest {

    @Mock
    private lateinit var repository: ");
   Hole Clean (feature_name self);
   Lit ("Repository

    private lateinit var useCase: Get");
   Hole Clean (feature_name self);
   Lit ("UseCase

    @Before
    fun setup() {
        MockitoAnnotations.openMocks(this)
        useCase = Get");
   Hole Clean (feature_name self);
   Lit ("UseCase(repository)
    }

    @Test
    fun `get ");
   Hole Clean (lower (feature_name self));
   Lit (" returns success`() = runTest {
        // Given
        val id = " +:+ dquote +:+ "test-id" +:+ dquote +:+ "
        val expected");
   Hole Clean (feature_name self);
   Lit (" = ");
   Hole Clean (feature_name self);
   Lit ("(id = id)
        `when`(repository.get");
   Hole Clean (feature_name self);
   Lit ("(id)).thenReturn(Result.success(expected");
   Hole Clean (feature_name self);
   Lit ("))

        // When
        val result = useCase(id)

        // Then
        assertTrue(result.isSuccess)
    }
}
")].

(** The templates in the order [generate_all] writes their files. *)
Definition all_pieces (self : CodeGenerator) : list (list piece) :=
  [generate_domain_model_pieces self;
   generate_repository_interface_pieces self;
   usecase_code_pieces self;
   generate_api_interface_pieces self;
   generate_dtos_pieces self;
   generate_repository_implementation_pieces self;
   generate_state_pieces self;
   generate_viewmodel_pieces self;
   generate_screen_pieces self;
   generate_unit_tests_pieces self].

Lemma generate_all_texts (self : CodeGenerator) :
  map snd (generate_all self) = map denote (all_pieces self).
Proof. reflexivity. Qed.

Lemma all_pieces_checked (self : CodeGenerator) :
  forallb checked (all_pieces self) = true.
Proof. vm_compute. reflexivity. Qed.

Lemma forallb_holds (ps : list piece) :
  Forall (fun p => holds p = true) ps → forallb holds ps = true.
Proof.
  induction 1 as [|p ps Hp _ IH]; [done|]. cbn [forallb]. by rewrite Hp, IH.
Qed.

Lemma string_forall_replace (f : ascii → bool) (skip : nat) (old s : string) :
  string_forall f s = true →
  string_forall f (replace_from skip old EmptyString s) = true.
Proof.
  revert skip. induction s as [|c s IH]; intros skip; [done|].
  cbn [string_forall replace_from]. intros [Hc Hs]%andb_true_iff.
  destruct skip as [|k]; [|by apply IH].
  destruct (startswith old (String c s)).
  - rewrite str_app_nil_l. by apply IH.
  - cbn [string_forall]. rewrite Hc. by apply IH.
Qed.

Lemma lower_char_slash (c : ascii) :
  Ascii.eqb (lower_char c) "/" = Ascii.eqb c "/".
Proof. destruct c as [[] [] [] [] [] [] [] []]; vm_compute; reflexivity. Qed.

Lemma no_slash_lower (s : string) : no_slash s = true → no_slash (lower s) = true.
Proof.
  unfold no_slash. induction s as [|c s IH]; [done|].
  cbn [string_forall lower]. intros [Hc Hs]%andb_true_iff.
  by rewrite lower_char_slash, Hc, IH.
Qed.

Section Generated.
Variable document : SpecDocument.
Variable package : string.
Hypothesis Hpackage : no_slash package = true.
Hypothesis Hid : no_slash (spec_id document) = true.
Hypothesis Hreq : startswith "REQ-" (lstrip (spec_id document)) = false.
Hypothesis Hfeature : no_slash (feature document) = true.
Hypothesis Hpurpose : contains "//" (purpose document) = false.

(** The generator as [main] sets it up. *)
Let self : CodeGenerator := with_package (init document) package.

Lemma all_pieces_hold (ps : list piece) :
  ps ∈ all_pieces self → forallb holds ps = true.
Proof.
  assert (H1 : holds (Hole Clean (package_name self)) = true)
    by exact Hpackage.
  assert (Hname : no_slash (feature_name self) = true)
    by (by do 2 apply string_forall_replace).
  assert (H2 : holds (Hole Clean (feature_name self)) = true)
    by exact Hname.
  assert (H3 : holds (Hole Identifier (spec_id (spec self))) = true)
    by (cbn [holds self with_package init spec]; by rewrite Hid, Hreq).
  assert (H4 : holds (Hole Clean (feature (spec self))) = true)
    by exact Hfeature.
  assert (H5 : holds (Hole Prose (purpose (spec self))) = true)
    by (cbn [holds self with_package init spec]; by rewrite Hpurpose).
  assert (H6 : holds (Hole Clean (usecase_name self)) = true).
  { cbn [holds]. unfold usecase_name, no_slash.
    rewrite !string_forall_app. fold (no_slash (feature_name self)).
    by rewrite Hname. }
  assert (H7 : holds (Hole Clean (lower (feature_name self))) = true)
    by (by apply no_slash_lower).
  assert (H8 : holds (Hole Clean
                        (replace " " EmptyString (feature (spec self))))
               = true)
    by (by apply string_forall_replace).
  unfold all_pieces, generate_domain_model_pieces,
    generate_repository_interface_pieces, usecase_code_pieces,
    generate_api_interface_pieces, generate_dtos_pieces,
    generate_repository_implementation_pieces, generate_state_pieces,
    generate_viewmodel_pieces, generate_screen_pieces,
    generate_unit_tests_pieces.
  intros Hps.
  repeat (apply elem_of_cons in Hps as [->|Hps];
          [apply forallb_holds;
           repeat match goal with
                  | |- Forall _ [] => constructor
                  | |- Forall _ (_ :: _) =>
                      constructor;
                      [cbv beta;
                       first [ reflexivity | exact H1 | exact H2 | exact H3
                             | exact H4 | exact H5 | exact H6 | exact H7
                             | exact H8 ]|]
                  end|]).
  by apply elem_of_nil in Hps.
Qed.

(** No text [generate_all] writes holds a requirement annotation. *)
Lemma generated_text_free (w : WrittenFile) :
  w ∈ generate_all self → run Idle (snd w) ≠ Found.
Proof.
  intros Hw.
  assert (Hin : snd w ∈ map denote (all_pieces self)).
  { rewrite <- generate_all_texts. by apply list_elem_of_fmap_2. }
  apply list_elem_of_fmap in Hin as (ps & -> & Hps).
  apply checked_sound; [|by apply all_pieces_hold].
  pose proof (all_pieces_checked self) as Hall.
  rewrite forallb_forall in Hall. apply Hall. by apply list_elem_of_In.
Qed.

End Generated.

(** *** From the text written to the lines read *)

Lemma step_space (q : state) (c : ascii) :
  is_space c = true →
  step q c = match q with
             | Found => Found
             | Open | Spaced => Spaced
             | _ => Idle
             end.
Proof.
  intros Hc. unfold step. rewrite (space_not_slash c Hc), Hc. by destruct q.
Qed.

Lemma run_universal_from (s : string) (q : state) :
  run q (universal_newlines_from false s) = run q s
  ∧ (step q newline = q → run q (universal_newlines_from true s) = run q s).
Proof.
  assert (Hcr : is_space (ascii_of_nat 13) = true) by reflexivity.
  assert (Hlf : is_space newline = true) by reflexivity.
  revert q. induction s as [|c s IH]; intros q; [done|].
  cbn [universal_newlines_from].
  destruct (Ascii.eqb_spec c (ascii_of_nat 13)) as [->|_].
  - assert (H : run q (String newline (universal_newlines_from true s))
                = run q (String (ascii_of_nat 13) s)).
    { cbn [run]. rewrite (step_space q _ Hcr), <- (step_space q _ Hlf).
      apply IH. rewrite !(step_space _ _ Hlf). by destruct q. }
    by split.
  - split; [cbn [andb]; rewrite andb_false_r; cbn [run]; apply IH|].
    intros Hq. rewrite andb_true_r.
    destruct (Ascii.eqb_spec c newline) as [->|_].
    + cbn [run]. rewrite Hq. apply IH.
    + cbn [run]. apply IH.
Qed.

Lemma run_universal (q : state) (s : string) :
  run q (universal_newlines s) = run q s.
Proof. apply run_universal_from. Qed.

Lemma split_keepends_concat (s : string) :
  String.concat EmptyString (split_keepends s) = s.
Proof.
  induction s as [|c s IH]; [done|]. cbn [split_keepends].
  destruct (Ascii.eqb c newline).
  - by rewrite PipelineFacts.str_concat_cons, IH.
  - destruct (split_keepends s) as [|line lines].
    + simpl in IH. by rewrite <- IH.
    + rewrite PipelineFacts.str_concat_cons in *.
      by rewrite str_app_cons, IH.
Qed.

Lemma line_within (text line : string) :
  line ∈ readlines text →
  PipelineFacts.within line (universal_newlines text).
Proof.
  unfold readlines. intros Hline.
  rewrite <- (split_keepends_concat (universal_newlines text)).
  rewrite <- (map_id (split_keepends _)).
  by apply (PipelineFacts.within_concat (fun x : string => x)).
Qed.

Lemma match_annotation_req (s g rest : string) :
  match_annotation s = Some (g, rest) → startswith "REQ-" g = true →
  ∃ ws b, s = "//" +:+ ws +:+ "REQ-" +:+ b
          ∧ string_forall is_space ws = true.
Proof.
  unfold match_annotation.
  destruct (after_literal "//" s) as [r1|] eqn:H1; [|done].
  apply after_literal_inv in H1 as ->.
  pose proof (ScannerFacts.span_forall is_space r1) as Hws.
  pose proof (ScannerFacts.span_app_eq is_space r1) as Hr1.
  set (ws := fst (span is_space r1)) in *.
  set (r2 := snd (span is_space r1)) in *.
  destruct (after_literal "SPEC" r2) as [r3|].
  - destruct (after_literal "-" r3) as [r4|]; [|done].
    destruct (span is_id_char r4) as [[|a run0] r5]; [done|].
    by intros [= <- _].
  - destruct (after_literal "REQ" r2) as [r3|] eqn:H3; [|done].
    apply after_literal_inv in H3.
    destruct (after_literal "-" r3) as [r4|] eqn:H4; [|done].
    apply after_literal_inv in H4. intros _ _.
    exists ws, r4. split; [|done]. rewrite Hr1, H3, H4. by norm_app.
Qed.

Lemma line_found (line g : string) (q : state) :
  g ∈ findall match_annotation line → startswith "REQ-" g = true →
  run q line = Found.
Proof.
  intros Hg Hreq.
  apply ScannerFacts.findall_from_sound in Hg as (a & s & rest & -> & Hm).
  destruct (match_annotation_req s g rest Hm Hreq) as (ws & b & -> & Hws).
  by apply run_complete.
Qed.

Lemma within_found (line s : string) :
  PipelineFacts.within line s → (∀ q, run q line = Found) →
  run Idle s = Found.
Proof.
  intros (a & b & ->) Hline. by rewrite !run_app, Hline, run_found.
Qed.

Lemma not_both_prefixes (x : string) :
  startswith "REQ-" x = true → startswith "SPEC-" x = true → False.
Proof.
  intros H1%startswith_inv H2%startswith_inv. rewrite H1 in H2.
  rewrite !str_app_cons in H2. discriminate H2.
Qed.

Lemma generated_references (document : SpecDocument) (package : string)
    (d : CodeDir) :
  no_slash package = true →
  no_slash (spec_id document) = true →
  startswith "REQ-" (lstrip (spec_id document)) = false →
  no_slash (feature document) = true →
  contains "//" (purpose document) = false →
  (∀ f, f ∈ entries d →
        ∃ w, w ∈ generate_all (with_package (init document) package)
             ∧ file_lines f = readlines (snd w)) →
  ∀ r, r ∈ ScannerFacts.all_references d →
       startswith "SPEC-" (requirement_id r) = true.
Proof.
  intros Hpackage Hid Hreq Hfeature Hpurpose Htree r.
  unfold ScannerFacts.all_references.
  intros (refs & Hr & Hf)%ScannerFacts.elem_of_concat.
  apply list_elem_of_fmap in Hf as (f & -> & Hf).
  apply list_elem_of_filter in Hf as [_ Hf].
  unfold file_references in Hr.
  apply ScannerFacts.elem_of_concat in Hr as (lrefs & Hr & Hl).
  apply list_elem_of_fmap in Hl as ([n line] & -> & Hnl).
  apply ScannerFacts.elem_of_enumerate_from in Hnl as [_ Hline].
  apply list_elem_of_lookup_2 in Hline.
  unfold line_references in Hr. cbn [fst snd] in Hr.
  apply list_elem_of_fmap in Hr as (g & -> & Hg).
  cbn [requirement_id].
  destruct (startswith "REQ-" g) eqn:Hg_req.
  - exfalso. destruct (Htree f Hf) as (w & Hw & Hlines).
    rewrite Hlines in Hline. apply line_within in Hline.
    apply (generated_text_free document package Hpackage Hid Hreq Hfeature
             Hpurpose w Hw).
    rewrite <- run_universal. apply (within_found line); [done|].
    intros q. by apply (line_found line g).
  - pose proof Hg as Hshape.
    apply ScannerFacts.findall_from_sound in Hshape
      as (a & s & rest & _ & Hm).
    apply ScannerFacts.match_annotation_shape in Hm
      as (run0 & [-> | ->] & _).
    + apply startswith_app.
    + by rewrite startswith_app in Hg_req.
Qed.

(** A tree with none but [SPEC-] references implements nothing. *)
Lemma spec_references_report (d : CodeDir) (content : string) :
  (∀ r, r ∈ ScannerFacts.all_references d →
        startswith "SPEC-" (requirement_id r) = true) →
  implemented_requirements (verify content d) = ∅
  ∧ missing_requirements (verify content d)
    = list_to_set (parse_requirements content)
  ∧ (DocSyncer.main CmdVerify (Some content) (Some d) = 0
     ↔ parse_requirements content = []).
Proof.
  intros Hrefs.
  assert (Hnone : implemented_of (parse_requirements content)
                    (find_spec_references d) = ∅).
  { apply set_eq. intros x. rewrite DocSyncerFacts.implemented_of_spec.
    split; [|set_solver]. intros [Hx [refs Hlookup]].
    apply list_elem_of_filter in Hx as [Hx _].
    apply ScannerFacts.references_lookup in Hlookup as [Hne ->].
    destruct (filter _ (ScannerFacts.all_references d)) as [|r l] eqn:Hf;
      [done|].
    assert (Hr : r ∈ filter (fun r => requirement_id r = x)
                   (ScannerFacts.all_references d)) by (rewrite Hf; left).
    apply list_elem_of_filter in Hr as [<- Hr].
    destruct (not_both_prefixes _ Hx (Hrefs r Hr)). }
  assert (Hmissing : missing_requirements (verify content d)
                     = list_to_set (parse_requirements content)).
  { cbn [verify missing_requirements]. rewrite Hnone. set_solver. }
  split; [exact Hnone|]. split; [exact Hmissing|].
  cbn [DocSyncer.main]. rewrite Hmissing.
  destruct (parse_requirements content) as [|x l].
  - by rewrite decide_True by done.
  - rewrite decide_False by set_solver. done.
Qed.

(** X22. The code that code_builder generates is never counted by
    doc_syncer.  When the package name, the parsed spec identifier and
    the feature name hold no slash, the identifier does not begin with
    [REQ-] and the purpose holds no two slashes in a row, a tree whose
    files hold texts written by [generate_all] gives only references
    that begin with [SPEC-]; so for every document [verify] reports no
    requirement as implemented and all of them as missing, and the
    [verify] command ends with status 0 only for a document without
    requirements. *)
Theorem generated_code_not_counted (document : SpecDocument)
    (package : string) (d : CodeDir) :
  no_slash package = true →
  no_slash (spec_id document) = true →
  startswith "REQ-" (lstrip (spec_id document)) = false →
  no_slash (feature document) = true →
  contains "//" (purpose document) = false →
  (∀ f, f ∈ entries d →
        ∃ w, w ∈ generate_all (with_package (init document) package)
             ∧ file_lines f = readlines (snd w)) →
  (∀ r, r ∈ ScannerFacts.all_references d →
        startswith "SPEC-" (requirement_id r) = true)
  ∧ ∀ content,
      implemented_requirements (verify content d) = ∅
      ∧ missing_requirements (verify content d)
        = list_to_set (parse_requirements content)
      ∧ (DocSyncer.main CmdVerify (Some content) (Some d) = 0
         ↔ parse_requirements content = []).
Proof.
  intros Hpackage Hid Hreq Hfeature Hpurpose Htree.
  pose proof (generated_references document package d Hpackage Hid Hreq
                Hfeature Hpurpose Htree) as Hrefs.
  split; [exact Hrefs|]. intros content. by apply spec_references_report.
Qed.

(** The tree doc_syncer finds when [files] have been written into an
    empty directory and that directory is given as the code
    directory. *)
Definition written_tree (prefix : string) (files : list WrittenFile)
    : CodeDir :=
  {| dir_prefix := prefix;
     entries := map (fun w => {| rel_path := fst w;
                                 file_lines := readlines (snd w) |})
                    files |}.

Definition sample_document : SpecDocument :=
  {| spec_id := "SPEC-001"; feature := "User Log-in"; status := "draft";
     version := "1.0.0"; author := "dev"; date := "2025-01-01";
     related_skills := []; requirements := [];
     purpose := "Let users in/out" |}.

(** The files written for the sample document and another package. *)
Definition sample_tree : CodeDir :=
  written_tree "out/"
    (generate_all (with_package (init sample_document) "org.demo.shop")).

Lemma generated_code_not_counted_witness :
  (∀ r, r ∈ ScannerFacts.all_references sample_tree →
        startswith "SPEC-" (requirement_id r) = true)
  ∧ ∀ content,
      implemented_requirements (verify content sample_tree) = ∅
      ∧ missing_requirements (verify content sample_tree)
        = list_to_set (parse_requirements content)
      ∧ (DocSyncer.main CmdVerify (Some content) (Some sample_tree) = 0
         ↔ parse_requirements content = []).
Proof.
  apply (generated_code_not_counted sample_document "org.demo.shop"
           sample_tree);
    [reflexivity..|].
  intros f Hf. unfold sample_tree, written_tree in Hf. cbn [entries] in Hf.
  apply list_elem_of_fmap in Hf as (w & -> & Hw). by exists w.
Defined.

(** *** Where the generated files go *)

Lemma endswith_app (p a : string) : endswith p (a +:+ p) = true.
Proof.
  unfold endswith. rewrite str_length_app.
  replace (String.length a + String.length p - String.length p)
    with (String.length a) by lia.
  rewrite drop_app, String.eqb_refl, andb_true_r. apply Nat.leb_le. lia.
Qed.

(** The path of the unit test [generate_tests] writes. *)
Definition unit_test_path (self : CodeGenerator) : string :=
  "src/test/kotlin/com/example/app/domain/" +:+ feature_name self
    +:+ "UseCaseTest.kt".

(** The files of the three layers. *)
Definition main_files (self : CodeGenerator) : list WrittenFile :=
  generate_domain_layer self ++ generate_data_layer self
  ++ generate_presentation_layer self.

Lemma generate_all_paths (document : SpecDocument) :
  let self := init document in
  map fst (generate_all self)
  = map fst (main_files self) ++ [unit_test_path self].
Proof.
  intros self. unfold generate_all, main_files.
  by rewrite !map_app, <- !app_assoc.
Qed.

Lemma main_files_paths (document : SpecDocument) (p : string) :
  p ∈ map fst (main_files (init document)) →
  startswith "src/main/" p = true.
Proof.
  unfold main_files, generate_domain_layer, generate_data_layer,
    generate_presentation_layer, _generate_usecases.
  cbn [map app fst]. intros Hp.
  repeat (apply elem_of_cons in Hp as [->|Hp]; [reflexivity|]).
  by apply elem_of_nil in Hp.
Qed.

(** X23. What code_builder writes as a test, doc_syncer lists as a
    test: for a feature name without a slash and the package name
    [__init__] sets, in the tree of the generated files the test
    files of the report are the one unit test [generate_tests] wrote,
    and its path is not among the code files. *)
Theorem generated_test_is_test_file (document : SpecDocument)
    (prefix content : string) :
  no_slash (feature document) = true →
  let d := written_tree prefix (generate_all (init document)) in
  test_files (verify content d) = [unit_test_path (init document)]
  ∧ unit_test_path (init document) ∉ code_files (verify content d).
Proof.
  intros _ d. split.
  - cbn [verify test_files]. unfold find_test_files, rglob_tests.
    subst d. cbn [entries written_tree].
    assert (Hfilter : ∀ l : list WrittenFile,
              map rel_path
                (filter (fun f => startswith "src/test/" (rel_path f) = true
                                  ∧ endswith "Test.kt" (rel_path f) = true)
                   (map (fun w => {| rel_path := fst w;
                                     file_lines := readlines (snd w) |}) l))
              = filter (fun p => startswith "src/test/" p = true
                                 ∧ endswith "Test.kt" p = true)
                       (map fst l)).
    { induction l as [|w l IH]; [done|]. cbn [map].
      destruct (decide (startswith "src/test/" (fst w) = true
                        ∧ endswith "Test.kt" (fst w) = true)).
      - rewrite !filter_cons_True by done. cbn [map]. by rewrite IH.
      - by rewrite !filter_cons_False by done. }
    rewrite Hfilter, generate_all_paths. rewrite filter_app.
    rewrite RequirementFacts.filter_none.
    2:{ intros p Hp%main_files_paths [Htest _].
        apply startswith_inv in Hp, Htest. rewrite Hp in Htest.
        rewrite !str_app_cons in Htest. discriminate Htest. }
    rewrite app_nil_l, filter_cons_True; [done|]. split; [done|].
    unfold unit_test_path.
    change "UseCaseTest.kt" with ("UseCase" +:+ "Test.kt").
    rewrite <- !str_app_assoc. apply endswith_app.
  - cbn [verify code_files].
    intros (f & Hpath & Hf)%list_elem_of_fmap.
    apply list_elem_of_filter in Hf as [Hcode _].
    unfold full_path in Hcode. rewrite <- Hpath in Hcode.
    assert (Htest : contains "/test/"
                      (dir_prefix d +:+ unit_test_path (init document))
                    = true).
    { apply contains_app_l.
      apply (contains_infix "/test/" "src"
               ("kotlin/com/example/app/domain/"
                  +:+ feature_name (init document) +:+ "UseCaseTest.kt")). }
    congruence.
Qed.

Lemma generated_test_is_test_file_witness :
  let d := written_tree "out/" (generate_all (init sample_document)) in
  test_files (verify Examples.small_doc d)
  = [unit_test_path (init sample_document)]
  ∧ unit_test_path (init sample_document)
    ∉ code_files (verify Examples.small_doc d).
Proof.
  apply (generated_test_is_test_file sample_document "out/"
           Examples.small_doc).
  reflexivity.
Defined.

End GeneratedCodeFacts.

(** ** The workflow: spec_builder, code_builder, doc_syncer *)

Module WorkflowFacts.
Import Text TextFacts DocSyncer SpecBuilder CodeBuilder.
Import PipelineFacts GeneratedCodeFacts.

Definition no_star (s : string) : bool :=
  string_forall (fun c => negb (Ascii.eqb c "*")) s.

Lemma digit_facts (c : ascii) :
  is_digit c = true →
  not_newline c = true ∧ negb (Ascii.eqb c "/") = true ∧ is_id_char c = true.
Proof.
  intros Hc. unfold not_newline, is_id_char. rewrite Hc.
  destruct (Ascii.eqb_spec c newline) as [->|_]; [by vm_compute in Hc|].
  destruct (Ascii.eqb_spec c "/") as [->|_]; [by vm_compute in Hc|].
  by destruct (is_upper c).
Qed.

Lemma digits_no_key (s : string) :
  string_forall is_digit s = true → contains "feature:" s = false.
Proof.
  intros Hs. destruct (contains "feature:" s) eqn:Hc; [|done].
  apply MatrixFacts.contains_inv in Hc as (a & b & ->).
  rewrite !string_forall_app in Hs.
  apply andb_true_iff in Hs as [_ [Hs _]%andb_true_iff]. by vm_compute in Hs.
Qed.

Lemma string_forall_rstrip (f : ascii → bool) (s : string) :
  string_forall f s = true → string_forall f (rstrip s) = true.
Proof.
  induction s as [|c s IH]; [done|]. cbn [string_forall rstrip].
  intros [Hc Hs]%andb_true_iff. specialize (IH Hs).
  destruct (rstrip s) as [|x r].
  - destruct (is_space c); [done|]. cbn [string_forall]. by rewrite Hc.
  - cbn [string_forall] in *. by rewrite Hc.
Qed.

Lemma string_forall_strip (f : ascii → bool) (s : string) :
  string_forall f s = true → string_forall f (strip s) = true.
Proof.
  intros Hs. unfold strip. by apply string_forall_rstrip, string_forall_lstrip.
Qed.

Lemma strip_head (c : ascii) (s : string) :
  is_space c = false → ∃ r, strip (String c s) = String c r.
Proof.
  intros Hc. unfold strip. cbn [lstrip]. rewrite Hc. cbn [rstrip].
  destruct (rstrip s); rewrite ?Hc; by eexists.
Qed.

(** *** The purpose of a created document *)

Lemma search_purpose_skip (a s : string) :
  no_star a = true → search_purpose (a +:+ s) = search_purpose s.
Proof.
  unfold no_star. induction a as [|c a IH]; [done|].
  cbn [string_forall]. intros [Hc Ha]%andb_true_iff.
  apply negb_true_iff in Hc. rewrite str_app_cons.
  cbn [search_purpose]. unfold after_literal at 1. cbn [startswith].
  rewrite Ascii.eqb_sym, Hc. cbn [andb]. by apply IH.
Qed.

Lemma search_purpose_here (p t : string) :
  p ≠ EmptyString → string_forall not_newline p = true →
  search_purpose ("**Purpose**: " +:+ p +:+ String newline t) = Some p.
Proof.
  intros Hne Hp.
  assert (Hm : match after_literal "**Purpose**: "
                       ("**Purpose**: " +:+ p +:+ String newline t) with
               | Some r =>
                   match span not_newline r with
                   | (EmptyString, _) => None
                   | (g, _) => Some g
                   end
               | None => None
               end = Some p).
  { rewrite after_literal_app, span_all_stop by done. by destruct p. }
  generalize dependent ("**Purpose**: " +:+ p +:+ String newline t).
  intros s Hm. destruct s; cbn [search_purpose]; by rewrite Hm.
Qed.

Lemma no_star_concat {A} (f : A → string) (l : list A) :
  Forall (fun x => no_star (f x) = true) l →
  no_star (String.concat EmptyString (map f l)) = true.
Proof.
  induction 1 as [|x l Hx _ IH]; [done|]. cbn [map].
  rewrite str_concat_cons. unfold no_star in *.
  by rewrite string_forall_app, Hx, IH.
Qed.

Lemma ears_requirements_nonempty (sid : string) (reqs : list string) :
  reqs ≠ [] → ears_requirements_of sid reqs ≠ [].
Proof.
  intros Hne Hnil.
  assert (Hperm : map RequirementFacts.kind_and_text
                    (ears_requirements_of sid reqs)
                  ≡ₚ map categorize_requirement reqs).
  { rewrite RequirementFacts.ears_kind_and_text.
    apply (RequirementFacts.concat_filter_keys fst);
      [apply RequirementFacts.req_types_NoDup|].
    intros p (req & -> & _)%list_elem_of_fmap.
    apply RequirementFacts.categorize_requirement_shape. }
  rewrite Hnil in Hperm. apply Permutation_nil_l in Hperm.
  by destruct reqs.
Qed.

Section Created.
Variable self : AndroidSkillMatcher.
Variables sid fname text author today : string.
Variables reqs skills : list string.
Hypothesis Hsid : string_forall is_digit sid = true.
Hypothesis Hsid_ne : sid ≠ EmptyString.
Hypothesis Hfname : string_forall not_newline fname = true.
Hypothesis Hname : strip fname ≠ EmptyString.
Hypothesis Hfname_slash : no_slash fname = true.
Hypothesis Hfname_star : no_star fname = true.
Hypothesis Htext : string_forall not_newline text = true.
Hypothesis Htext_ne : text ≠ EmptyString.
Hypothesis Htext_slash : contains "//" text = false.
Hypothesis Hauthor : no_star author = true.
Hypothesis Htoday : no_star today = true.
Hypothesis Hskills : Forall (fun skill => no_star skill = true) skills.

Let content : string :=
  create_spec self sid fname text reqs skills author today.

Lemma sid_facts :
  string_forall not_newline sid = true ∧ no_slash sid = true
  ∧ string_forall is_id_char sid = true ∧ no_star sid = true.
Proof.
  repeat split; apply (string_forall_impl is_digit); try done;
    intros c Hc; try by apply digit_facts.
  destruct (Ascii.eqb_spec c "*") as [->|_]; [by vm_compute in Hc|done].
Qed.

Lemma created_purpose : search_purpose content = Some text.
Proof.
  destruct sid_facts as (_ & _ & _ & Hsid_star).
  assert (Hshape : ∃ t,
            content
            = (frontmatter_text sid fname author today skills
                 +:+ "# " +:+ fname +:+ " Specification

## 1. Overview

")
                +:+ "**Purpose**: " +:+ text +:+ String newline t).
  { eexists. unfold content, create_spec, generate_spec_content,
      overview_text.
    rewrite !str_app_assoc. reflexivity. }
  destruct Hshape as [t ->].
  rewrite search_purpose_skip; [by apply search_purpose_here|].
  unfold frontmatter_text, no_star in *.
  rewrite !string_forall_app.
  fold (no_star (String.concat EmptyString
                   (map (fun skill => "  - " +:+ skill +:+ nl) skills))).
  rewrite no_star_concat.
  - by rewrite Hsid_star, Hfname_star, Hauthor, Htoday.
  - eapply Forall_impl; [exact Hskills|]. intros skill Hs.
    unfold no_star in *. by rewrite !string_forall_app, Hs.
Qed.

(** The document [parse] returns for the created text. *)
Lemma created_document :
  ∃ document,
    parse content = inr document
    ∧ spec_id document = strip ("SPEC-" +:+ sid)
    ∧ feature document = strip fname
    ∧ purpose document = text.
Proof.
  destruct sid_facts as (Hsid_nl & _ & _ & _).
  destruct (ParserFacts.created_frontmatter self sid fname text reqs skills
              author today Hsid_nl Hfname) as [g Hfm].
  fold content in Hfm. unfold parse. rewrite Hfm.
  eexists. split; [reflexivity|].
  cbn [spec_id feature purpose]. rewrite created_purpose.
  split; [by apply CodeBuilderFacts.created_spec_id|].
  split; [|done].
  apply CodeBuilderFacts.created_feature; [by apply digits_no_key|done..].
Qed.

Lemma created_document_hygiene (document : SpecDocument) :
  spec_id document = strip ("SPEC-" +:+ sid) →
  feature document = strip fname →
  purpose document = text →
  no_slash (spec_id document) = true
  ∧ startswith "REQ-" (lstrip (spec_id document)) = false
  ∧ no_slash (feature document) = true
  ∧ contains "//" (purpose document) = false.
Proof.
  destruct sid_facts as (_ & Hsid_slash & _ & _).
  intros -> -> ->. repeat split; [| |by apply string_forall_strip|done].
  - apply string_forall_strip. unfold no_slash in *.
    by rewrite string_forall_app, Hsid_slash.
  - destruct (strip_head "S" ("PEC-" +:+ sid) eq_refl) as [r Hr].
    change ("SPEC-" +:+ sid) with (String "S" ("PEC-" +:+ sid)).
    by rewrite Hr.
Qed.

End Created.

(** X24. The workflow from requirements to the check.  Take a spec
    identifier of digits, a feature name and a purpose of one line
    each, the name with a character that is not whitespace and
    without slash or star, the purpose not empty and without two
    slashes in a row, an author, a date and skills without star, and a
    package name without slash.  Then code_builder's [main] parses the
    document of [create_spec] and writes its files, and for a tree
    that holds texts it wrote, [verify] on the created document
    reports nothing implemented and every generated requirement
    identifier missing; with at least one requirement the [verify]
    command ends with status 1. *)
Theorem workflow_reports_all_missing (self : AndroidSkillMatcher)
    (sid fname text author today package : string)
    (reqs skills : list string) :
  string_forall is_digit sid = true → sid ≠ EmptyString →
  string_forall not_newline fname = true → strip fname ≠ EmptyString →
  no_slash fname = true → no_star fname = true →
  string_forall not_newline text = true → text ≠ EmptyString →
  contains "//" text = false →
  no_star author = true → no_star today = true →
  Forall (fun skill => no_star skill = true) skills →
  no_slash package = true →
  let content := create_spec self sid fname text reqs skills author today in
  ∃ files,
    CodeBuilder.main package content = inr files
    ∧ ∀ d,
        (∀ f, f ∈ entries d →
              ∃ w, w ∈ files ∧ file_lines f = readlines (snd w)) →
        implemented_requirements (verify content d) = ∅
        ∧ (∀ r, r ∈ ears_requirements_of sid reqs →
                fst (fst r) ∈ missing_requirements (verify content d))
        ∧ (reqs ≠ [] →
           DocSyncer.main CmdVerify (Some content) (Some d) = 1).
Proof.
  intros Hsid Hsid_ne Hfname Hname Hfname_slash Hfname_star Htext Htext_ne
    Htext_slash Hauthor Htoday Hskills Hpackage content.
  destruct (created_document self sid fname text author today reqs skills)
    as (document & Hparse & Hid & Hfeature & Hpurpose); try done.
  exists (generate_all (with_package (init document) package)).
  split; [unfold CodeBuilder.main, content; by rewrite Hparse|].
  intros d Htree.
  destruct (created_document_hygiene sid fname text Hsid Hfname_slash
              Htext_slash document Hid Hfeature Hpurpose)
    as (H1 & H2 & H3 & H4).
  pose proof (generated_references document package d Hpackage H1 H2 H3 H4
                Htree) as Hrefs.
  destruct (spec_references_report d content Hrefs)
    as (Hnone & Hmissing & Hmain).
  assert (Hids : ∀ r, r ∈ ears_requirements_of sid reqs →
                      fst (fst r) ∈ parse_requirements content).
  { intros r Hr.
    destruct (ears_entry _ _ _ Hr) as [Hkind [number Hrid]].
    destruct (sid_facts sid Hsid) as (_ & _ & Hchars & _).
    destruct (generated_id_chars sid (snd (fst r)) number Hchars Hkind)
      as [Hidc Hreq].
    rewrite <- Hrid in Hidc, Hreq.
    apply bolded_parsed; [by apply created_line_within|done..]. }
  split; [exact Hnone|]. split.
  - intros r Hr. rewrite Hmissing. apply elem_of_list_to_set. by apply Hids.
  - intros Hreqs.
    assert (Hstatus : DocSyncer.main CmdVerify (Some content) (Some d) ≠ 0).
    { intros H0%Hmain.
      pose proof (ears_requirements_nonempty sid reqs Hreqs) as Hne.
      assert (Hex : ∃ r, r ∈ ears_requirements_of sid reqs).
      { revert Hne. generalize (ears_requirements_of sid reqs).
        intros [|r l] Hne; [done|]. exists r. left. }
      destruct Hex as [r Hr%Hids]. rewrite H0 in Hr.
      by apply elem_of_nil in Hr. }
    cbn [DocSyncer.main] in *.
    by destruct (decide (missing_requirements (verify content d) = ∅)).
Qed.

Lemma workflow_reports_all_missing_witness :
  let content :=
    create_spec skill_matcher "001" "User Login" "Let users in/out"
      ["sign the user in"; "show an error when the password is wrong"]
      ["android-compose-ui"] "Claude Code" "2025-01-01" in
  ∃ files,
    CodeBuilder.main "com.example.app" content = inr files
    ∧ ∀ d,
        (∀ f, f ∈ entries d →
              ∃ w, w ∈ files ∧ file_lines f = readlines (snd w)) →
        implemented_requirements (verify content d) = ∅
        ∧ (∀ r, r ∈ ears_requirements_of "001"
                      ["sign the user in";
                       "show an error when the password is wrong"] →
                fst (fst r) ∈ missing_requirements (verify content d))
        ∧ (["sign the user in"; "show an error when the password is wrong"]
           ≠ [] →
           DocSyncer.main CmdVerify (Some content) (Some d) = 1).
Proof.
  apply (workflow_reports_all_missing skill_matcher "001" "User Login"
           "Let users in/out" "Claude Code" "2025-01-01" "com.example.app"
           ["sign the user in"; "show an error when the password is wrong"]
           ["android-compose-ui"]);
    first [reflexivity | discriminate | by repeat constructor].
Defined.

End WorkflowFacts.

(** ** validate_specs.py: the validator and the other tools *)

Module ValidatorFacts.
Import Text TextFacts SpecBuilder SpecValidator PipelineFacts.

(** *** The spec identifier check *)

Lemma match_spec_number_sound (s g : string) :
  match_spec_number s = Some g →
  ∃ ws b, s = "spec_id:" +:+ ws +:+ "SPEC-" +:+ g +:+ b.
Proof.
  unfold match_spec_number.
  destruct (after_literal "spec_id:" s) as [r1|] eqn:H1; [|done].
  apply after_literal_inv in H1 as ->.
  pose proof (ScannerFacts.span_app_eq is_space r1) as Hr1.
  destruct (after_literal "SPEC-" (snd (span is_space r1))) as [r2|] eqn:H2;
    [|done].
  apply after_literal_inv in H2.
  pose proof (ScannerFacts.span_app_eq is_digit r2) as Hr2.
  destruct (span is_digit r2) as [[|c digits] r3]; [done|].
  intros [= <-]. exists (fst (span is_space r1)), r3.
  rewrite Hr1 at 1. rewrite H2, Hr2. cbn [fst snd]. by norm_app.
Qed.

Lemma search_spec_number_sound (content g : string) :
  search_spec_number content = Some g →
  within ("SPEC-" +:+ g) content.
Proof.
  assert (Hm : ∀ s, match_spec_number s = Some g →
                    within ("SPEC-" +:+ g) s).
  { intros s (ws & b & ->)%match_spec_number_sound.
    exists ("spec_id:" +:+ ws), b. by rewrite !str_app_assoc. }
  induction content as [|c content IH]; cbn [search_spec_number].
  - destruct (match_spec_number EmptyString) eqn:H; [|done].
    intros [= ->]. by apply Hm.
  - destruct (match_spec_number (String c content)) eqn:H.
    + intros [= ->]. by apply Hm.
    + intros Hs%IH. by apply (within_app_r _ (String c EmptyString)).
Qed.

Lemma contains_within (needle s : string) :
  within needle s → contains needle s = true.
Proof. intros (a & b & ->). apply contains_infix. Qed.

Lemma within_contains (needle lit s : string) :
  contains needle lit = true → within lit s → contains needle s = true.
Proof.
  intros (a & b & ->)%MatrixFacts.contains_inv Hs.
  apply contains_within. apply (within_trans _ (a +:+ needle +:+ b)); [|done].
  by exists a, b.
Qed.

Lemma referenced_number (content g : string) :
  search_spec_number content = Some g →
  contains ("SPEC-" +:+ g) content = true.
Proof. intros Hs. by apply contains_within, search_spec_number_sound. Qed.

(** X25. The check of the spec identifier never warns: when the
    pattern finds a number, the text [SPEC-] with that number is in
    the document, because the match itself holds it.  The check adds
    its one error exactly when the pattern finds nothing. *)
Theorem spec_id_check_never_warns (self : SpecValidator.SpecValidator)
    (content : string) :
  warnings (_validate_spec_id self content) = warnings self
  ∧ errors (_validate_spec_id self content)
    = errors self
        ++ match search_spec_number content with
           | Some _ => []
           | None => ["Invalid SPEC ID format"]
           end.
Proof.
  unfold _validate_spec_id.
  destruct (search_spec_number content) as [g|] eqn:Hs; [|done].
  rewrite (referenced_number content g Hs). by rewrite app_nil_r.
Qed.

(** *** The header block *)

(** X26. The validator is the stricter reader of the header: when it
    finds the header block, which it looks for at the start of the
    text only, doc_syncer and code_builder find the same block, and
    [parse] returns a document. *)
Theorem validator_header_is_parsed (content fm : string) :
  match_frontmatter content = Some fm →
  search_frontmatter content = Some fm
  ∧ ∃ document, CodeBuilder.parse content = inr document.
Proof.
  unfold match_frontmatter. intros Hm.
  assert (Hs : search_frontmatter content = Some fm).
  { rewrite search_frontmatter_eq.
    destruct (after_literal ("---" +:+ nl) content) as [r|]; [|done].
    destruct (lazy_until (nl +:+ "---") r) as [[g rest]|]; [|done].
    by injection Hm as ->. }
  split; [exact Hs|]. unfold CodeBuilder.parse. rewrite Hs. by eexists.
Qed.

Lemma validator_header_is_parsed_witness :
  search_frontmatter Examples.small_doc
  = Some ("spec_id: SPEC-001" +:+ nl +:+ "feature: Login")
  ∧ ∃ document, CodeBuilder.parse Examples.small_doc = inr document.
Proof.
  apply (validator_header_is_parsed Examples.small_doc
           ("spec_id: SPEC-001" +:+ nl +:+ "feature: Login")).
  reflexivity.
Defined.

(** A header block after a blank line: the parsers read it, the
    validator does not. *)
Example header_after_blank_line :
  let content := nl +:+ Examples.small_doc in
  match_frontmatter content = None
  ∧ search_frontmatter content
    = Some ("spec_id: SPEC-001" +:+ nl +:+ "feature: Login").
Proof. by vm_compute. Qed.

(** *** The errors of each check *)

Lemma fold_errors {A} (step : SpecValidator.SpecValidator → A →
                             SpecValidator.SpecValidator)
    (message : A → option string) (l : list A)
    (self : SpecValidator.SpecValidator) :
  (∀ v x, errors (step v x)
          = errors v ++ match message x with Some m => [m] | None => [] end) →
  errors (foldl step self l) = errors self ++ omap message l.
Proof.
  intros Hstep. revert self. induction l as [|x l IH]; intros self.
  - by rewrite app_nil_r.
  - cbn [foldl]. rewrite IH, Hstep. cbn [omap list_omap].
    destruct (message x); cbn [app]; by rewrite <- app_assoc.
Qed.

Lemma validate_sections_errors (self : SpecValidator.SpecValidator)
    (content : string) :
  (∀ section, section ∈ REQUIRED_SECTIONS →
              contains section content = true) →
  errors (_validate_sections self content) = errors self.
Proof.
  intros Hall. unfold _validate_sections.
  rewrite (fold_errors _ (fun section =>
             if contains section content then None
             else Some ("Missing required section: " +:+ section))).
  - assert (Hnone : ∀ l, (∀ x, x ∈ l → contains x content = true) →
              omap (fun section =>
                      if contains section content then None
                      else Some ("Missing required section: " +:+ section)) l
              = []).
    { induction l as [|x l IH]; [done|]. intros Hl. cbn [omap list_omap].
      rewrite (Hl x) by left. apply IH. intros y Hy. apply Hl. by right. }
    by rewrite Hnone, app_nil_r.
  - intros v x. destruct (contains x content); [by rewrite app_nil_r|done].
Qed.

(** The text of the error for an identifier. *)
Definition invalid_id (req_id : string) : string :=
  "Invalid requirement ID format: " +:+ req_id.

Lemma validate_requirements_errors (self : SpecValidator.SpecValidator)
    (content : string) :
  errors (_validate_requirements self content)
  = errors self
      ++ map invalid_id
           (filter (fun req_id => startswith "REQ-" req_id = false)
                   (map fst (findall match_requirement content))).
Proof.
  unfold _validate_requirements.
  destruct (findall match_requirement content) as [|r l] eqn:Hf.
  - by rewrite app_nil_r.
  - rewrite (fold_errors _ (fun _ => None)).
    2:{ intros v x. destruct (contains x content); by rewrite app_nil_r. }
    assert (Hnone : ∀ l' : list string,
              omap (fun _ : string => @None string) l' = [])
      by (induction l' as [|? ? ?]; done).
    rewrite Hnone, app_nil_r.
    rewrite (fold_errors _ (fun req : string * string =>
               if negb (startswith "REQ-" (fst req))
               then Some (invalid_id (fst req)) else None)).
    2:{ intros v x. destruct (startswith "REQ-" (fst x)); cbn [negb].
        - destruct (negb (standard_id (fst x))); by rewrite app_nil_r.
        - done. }
    f_equal. generalize (r :: l). clear. intros l.
    induction l as [|x l IH]; [done|]. cbn [omap list_omap map].
    destruct (startswith "REQ-" (fst x)) eqn:Hx; cbn [negb].
    + by rewrite filter_cons_False by (by rewrite Hx).
    + rewrite filter_cons_True by done. cbn [map]. by rewrite IH.
Qed.

(** *** A created document *)

Section Created.
Variable self : AndroidSkillMatcher.
Variables sid fname text author today : string.
Variables reqs skills : list string.

Let content : string :=
  create_spec self sid fname text reqs skills author today.

(** The headings of the required sections are in the text written. *)
Lemma created_sections (section : string) :
  section ∈ REQUIRED_SECTIONS → contains section content = true.
Proof.
  assert (Hoverview : ∀ lit,
            within lit " Specification

## 1. Overview

**Purpose**: "
            ∨ within lit "

**Scope**:
- In Scope: [To be defined]
- Out of Scope: [To be defined]

**Dependencies**:
- External: [To be defined]
- Internal: [To be defined]

---

## 2. Requirements (EARS Format)

" → within lit content).
  { intros lit Hlit. unfold content, create_spec, generate_spec_content.
    apply within_app_r, within_app_l. unfold overview_text.
    destruct Hlit as [Hlit|Hlit].
    - do 2 apply within_app_r. by apply within_app_l.
    - by do 4 apply within_app_r. }
  assert (Hstories : ∀ lit, within lit stories_text → within lit content).
  { intros lit Hlit. unfold content, create_spec, generate_spec_content.
    do 3 apply within_app_r. by apply within_app_l. }
  assert (Hchecklist : ∀ lit, within lit checklist_text →
                              within lit content).
  { intros lit Hlit. unfold content, create_spec, generate_spec_content.
    do 5 apply within_app_r. by apply within_app_l. }
  assert (Hlit : ∀ needle lit, contains needle lit = true →
                               within needle lit).
  { intros needle lit (a & b & ->)%MatrixFacts.contains_inv. by exists a, b. }
  unfold REQUIRED_SECTIONS. intros Hs.
  repeat (apply elem_of_cons in Hs as [->|Hs];
          [apply contains_within;
           first [ apply Hoverview; left; apply Hlit; by vm_compute
                 | apply Hoverview; right; apply Hlit; by vm_compute
                 | apply Hstories, Hlit; by vm_compute
                 | apply Hchecklist, Hlit; by vm_compute ]|]).
  by apply elem_of_nil in Hs.
Qed.

End Created.

Section CreatedRead.
Variable self : AndroidSkillMatcher.
Variables sid fname text author today : string.
Variables reqs skills : list string.
Hypothesis Hsid : string_forall is_digit sid = true.
Hypothesis Hsid_ne : sid ≠ EmptyString.
Hypothesis Hfname : string_forall no_line_end fname = true.
Hypothesis Hauthor : string_forall no_line_end author = true.
Hypothesis Htoday : string_forall no_line_end today = true.

Let content : string :=
  DocSyncer.universal_newlines
    (create_spec self sid fname text reqs skills author today).

(** The created document as the validator reads it: the lines of the
    header up to the key of the skills as they were written, then
    some text up to a closing marker. *)
Lemma created_header_lines_read :
  ∃ g t,
    content
    = ("---" +:+ nl)
        +:+ ("spec_id: SPEC-" +:+ sid)
        +:+ String newline
              (("feature: " +:+ fname)
               +:+ String newline
                     ("status: draft"
                      +:+ String newline
                            ("version: 1.0.0"
                             +:+ String newline
                                   (("author: " +:+ author)
                                    +:+ String newline
                                          (("date: " +:+ today)
                                           +:+ String newline
                                                 ("related_skills:"
                                                  +:+ (g +:+ String newline
                                                               ("---" +:+ t)))))))).
Proof.
  unfold content, create_spec, generate_spec_content.
  rewrite CodeBuilderFacts.frontmatter_text_shape.
  set (tail := nl +:+ nl +:+ _).
  assert (Hrest : ∃ a,
            ("s" +:+ CodeBuilderFacts.header_rest author today skills)
              +:+ (nl +:+ "---") +:+ tail
            = "status: draft"
                +:+ String newline
                      ("version: 1.0.0"
                       +:+ String newline
                             (("author: " +:+ author)
                              +:+ String newline
                                    (("date: " +:+ today)
                                     +:+ String newline
                                           ("related_skills:"
                                            +:+ (a +:+ String newline
                                                         ("---" +:+ tail))))))).
  { exists (String newline
              (String.concat EmptyString
                 (map (fun skill => "  - " +:+ skill +:+ nl) skills)
               +:+ "traceability:
  requirements: []
  code_files: []
  test_files: []")).
    unfold CodeBuilderFacts.header_rest, nl. norm_app. reflexivity. }
  destruct Hrest as [a ->].
  unfold DocSyncer.universal_newlines.
  change (("---" +:+ nl) +:+ ?x) with ("---" +:+ String newline x).
  pose proof (digits_no_line_end sid Hsid) as Hsid_nl.
  rewrite (universal_app_plain false "---") by (done || by right).
  rewrite universal_newline.
  rewrite (universal_app_plain false ("spec_id: SPEC-" +:+ sid))
    by (by rewrite ?string_forall_app, ?Hsid_nl || by right).
  rewrite universal_newline.
  rewrite (universal_app_plain false ("feature: " +:+ fname))
    by (by rewrite ?string_forall_app, ?Hfname || by right).
  rewrite universal_newline.
  rewrite (universal_app_plain false "status: draft") by (done || by right).
  rewrite universal_newline.
  rewrite (universal_app_plain false "version: 1.0.0") by (done || by right).
  rewrite universal_newline.
  rewrite (universal_app_plain false ("author: " +:+ author))
    by (by rewrite ?string_forall_app, ?Hauthor || by right).
  rewrite universal_newline.
  rewrite (universal_app_plain false ("date: " +:+ today))
    by (by rewrite ?string_forall_app, ?Htoday || by right).
  rewrite universal_newline.
  rewrite (universal_app_plain false "related_skills:") by (done || by right).
  destruct (universal_keeps_marker "---" a tail) as (g & t & ->); [done..|].
  by exists g, t.
Qed.

Lemma created_match_frontmatter_read :
  ∃ g,
    match_frontmatter content
    = Some (("spec_id: SPEC-" +:+ sid)
              +:+ String newline
                    (("feature: " +:+ fname)
                     +:+ String newline
                           ("status: draft"
                            +:+ String newline
                                  ("version: 1.0.0"
                                   +:+ String newline
                                         (("author: " +:+ author)
                                          +:+ String newline
                                                (("date: " +:+ today)
                                                 +:+ String newline
                                                       ("related_skills:"
                                                        +:+ g))))))).
Proof.
  destruct created_header_lines_read as (a & tail & ->).
  pose proof (digits_no_line_end sid Hsid) as Hsid_nl.
  unfold match_frontmatter. rewrite after_literal_app.
  assert (Hno : ∀ u, string_forall no_line_end u = true →
                     occurs newline u = false).
  { intros u Hu. by apply occurs_forall_not_newline,
                   no_line_end_not_newline. }
  change (nl +:+ "---") with (String newline "---").
  rewrite (lazy_until_skip newline "---" ("spec_id: SPEC-" +:+ sid))
    by (apply Hno; by rewrite string_forall_app, Hsid_nl).
  rewrite lazy_until_step by done.
  rewrite (lazy_until_skip newline "---" ("feature: " +:+ fname))
    by (apply Hno; by rewrite string_forall_app, Hfname).
  rewrite lazy_until_step by done.
  rewrite (lazy_until_skip newline "---" "status: draft") by done.
  rewrite lazy_until_step by done.
  rewrite (lazy_until_skip newline "---" "version: 1.0.0") by done.
  rewrite lazy_until_step by done.
  rewrite (lazy_until_skip newline "---" ("author: " +:+ author))
    by (apply Hno; by rewrite string_forall_app, Hauthor).
  rewrite lazy_until_step by done.
  rewrite (lazy_until_skip newline "---" ("date: " +:+ today))
    by (apply Hno; by rewrite string_forall_app, Htoday).
  rewrite lazy_until_step by done.
  rewrite (lazy_until_skip newline "---" "related_skills:") by done.
  change (String newline ("---" +:+ tail)) with (String newline "---" +:+ tail).
  destruct (lazy_until_complete (String newline "---") a tail)
    as [[g r] Hg].
  rewrite Hg. cbn [option_map fst snd]. by exists g.
Qed.

Lemma created_frontmatter_errors_read :
  errors (_validate_frontmatter SpecValidator.init content) = [].
Proof.
  destruct created_match_frontmatter_read as [g Hm].
  unfold _validate_frontmatter. rewrite Hm.
  set (fm := _ +:+ String newline _).
  assert (H1 : contains ("spec_id" +:+ ":") fm = true)
    by (apply contains_here; reflexivity).
  assert (Hkey : ∀ key a b, fm = a +:+ key +:+ b → contains key fm = true).
  { intros key a b ->. apply contains_infix. }
  assert (H2 : contains ("feature" +:+ ":") fm = true).
  { apply (Hkey _ (("spec_id: SPEC-" +:+ sid) +:+ nl)
             (" " +:+ fname +:+ String newline
                ("status: draft" +:+ String newline
                   ("version: 1.0.0" +:+ String newline
                      (("author: " +:+ author) +:+ String newline
                         (("date: " +:+ today) +:+ String newline
                            ("related_skills:" +:+ g))))))).
    unfold fm, nl. rewrite !str_app_assoc. reflexivity. }
  assert (H3 : contains ("status" +:+ ":") fm = true).
  { apply (Hkey _ (("spec_id: SPEC-" +:+ sid) +:+ nl
                     +:+ ("feature: " +:+ fname) +:+ nl)
             (" draft" +:+ String newline
                ("version: 1.0.0" +:+ String newline
                   (("author: " +:+ author) +:+ String newline
                      (("date: " +:+ today) +:+ String newline
                         ("related_skills:" +:+ g)))))).
    unfold fm, nl. rewrite !str_app_assoc. reflexivity. }
  assert (H4 : contains ("version" +:+ ":") fm = true).
  { apply (Hkey _ (("spec_id: SPEC-" +:+ sid) +:+ nl
                     +:+ ("feature: " +:+ fname) +:+ nl
                     +:+ "status: draft" +:+ nl)
             (" 1.0.0" +:+ String newline
                (("author: " +:+ author) +:+ String newline
                   (("date: " +:+ today) +:+ String newline
                      ("related_skills:" +:+ g))))).
    unfold fm, nl. rewrite !str_app_assoc. reflexivity. }
  assert (H5 : contains ("related_skills" +:+ ":") fm = true).
  { apply (Hkey _ (("spec_id: SPEC-" +:+ sid) +:+ nl
                     +:+ ("feature: " +:+ fname) +:+ nl
                     +:+ "status: draft" +:+ nl +:+ "version: 1.0.0" +:+ nl
                     +:+ ("author: " +:+ author) +:+ nl
                     +:+ ("date: " +:+ today) +:+ nl) g).
    unfold fm, nl. rewrite !str_app_assoc. reflexivity. }
  unfold REQUIRED_FRONTMATTER_FIELDS. cbn [foldl].
  rewrite H1, H2, H3, H4, H5.
  change (contains "related_skills:" fm) with
    (contains ("related_skills" +:+ ":") fm). rewrite H5.
  by destruct (CodeBuilder.search_skills fm).
Qed.

Lemma created_sections_read (section : string) :
  section ∈ REQUIRED_SECTIONS → contains section content = true.
Proof.
  intros Hs.
  pose proof (created_sections self sid fname text author
                today reqs skills section Hs) as Hc.
  apply MatrixFacts.contains_inv in Hc.
  assert (Hplain : string_forall no_line_end section = true).
  { unfold REQUIRED_SECTIONS in Hs.
    repeat (apply elem_of_cons in Hs as [->|Hs]; [done|]).
    by apply elem_of_nil in Hs. }
  destruct (universal_keeps_literal section _ false Hplain Hc)
    as (a & t & Heq).
  unfold content, DocSyncer.universal_newlines. rewrite Heq.
  apply contains_infix.
Qed.

End CreatedRead.

(** X27. What spec_builder writes, the validator accepts but for the
    requirement identifiers: for a spec identifier of digits and a
    feature name, an author and a date without line feed or carriage
    return, every error [validate] reports on the document of
    [create_spec], read in text mode, is the error about a
    requirement identifier that does not begin with [REQ-]; the
    header block, the required sections and the spec identifier
    pass. *)
Theorem created_document_errors (self : AndroidSkillMatcher)
    (sid fname text author today path : string)
    (reqs skills : list string) :
  string_forall is_digit sid = true → sid ≠ EmptyString →
  string_forall no_line_end fname = true →
  string_forall no_line_end author = true →
  string_forall no_line_end today = true →
  let content :=
    DocSyncer.universal_newlines
      (create_spec self sid fname text reqs skills author today) in
  errors (snd (validate path (Some content)))
  = map invalid_id
        (filter (fun req_id => startswith "REQ-" req_id = false)
                (map fst (findall match_requirement content))).
Proof.
  intros Hsid Hsid_ne Hfname Hauthor Htoday content.
  cbn [validate snd]. unfold _validate_spec_id.
  assert (Hfound : search_spec_number content = Some sid)
    by (by apply NextIdFacts.search_spec_number_read).
  rewrite Hfound, (referenced_number content sid Hfound).
  rewrite validate_requirements_errors.
  rewrite validate_sections_errors
    by (intros section Hs; by apply created_sections_read).
  unfold content. by rewrite created_frontmatter_errors_read.
Qed.

Lemma created_document_errors_witness :
  let content :=
    DocSyncer.universal_newlines
      (create_spec skill_matcher "001" "User Login" "Let users in"
         ["sign the user in"] ["android-compose-ui"] "Claude Code"
         "2025-01-01") in
  errors (snd (validate "specs/user-login/SPEC.md" (Some content)))
  = map invalid_id
        (filter (fun req_id => startswith "REQ-" req_id = false)
                (map fst (findall match_requirement content))).
Proof.
  apply (created_document_errors skill_matcher "001" "User Login"
           "Let users in" "Claude Code" "2025-01-01"
           "specs/user-login/SPEC.md" ["sign the user in"]
           ["android-compose-ui"]);
    first [reflexivity | discriminate].
Defined.

(** A carriage return in the author's name: read in text mode it
    ends the line, the marker after it closes the header block
    early, and the validator misses the keys that follow. *)
Example carriage_return_in_author :
  errors (snd (validate "SPEC.md"
     (Some (DocSyncer.universal_newlines
              (create_spec skill_matcher "001" "Login" "Let users in"
                 ["sign the user in"] []
                 ("a" +:+ String carriage_return "---") "2025-01-01")))))
  = ["Missing required frontmatter field: related_skills"].
Proof. by vm_compute. Qed.

End ValidatorFacts.
